(** * Google Map Exporter: the search / filter / enrich / rank pipeline

    A shallow embedding of the scraping engine of the repository (class
    [GoogleMapScraper], the third document of [src/index.js]) together with
    the filter record built by [src/server.js], and the properties the
    specification states about them.

    Conventions of the embedding.
    - A JavaScript string is the list of its UTF-16 code units ([jsstring]);
      literals are written as Rocq strings and decoded by [js].
    - A JavaScript number is [NaN], an infinity or a finite rational
      ([number]).  A run of digits is read as the double nearest to it
      ([JsNumber.toDouble]); a rating is a one-digit decimal, kept exact
      (doubles that near compare and subtract as the decimals they stand
      for).  A number handed to [parseInt] is printed first: in plain
      digits below 1e21, with an exponent, by the engine, from there on.
    - Regular-expression literals are values of [regex], run by a leftmost,
      greedy, backtracking matcher ([exec], [matchAll]).
    - The browser is an oracle: what a page visit returns is an input.

    The first part of the properties settles the statements of the
    specification; the second part covers the rest of the scraper: the
    scroll loop, the patterns of the list extractor, the scheduler's
    chunks, rounds and tally, the retry budget, and the record the CSV
    exporter writes. *)

From Stdlib Require Import ZArith QArith Qabs Lqa List String Ascii Bool Lia Permutation Sorted.
From Stdlib Require SpecFloat.
From stdpp Require Import base gmap list.
Import ListNotations.

Local Open Scope nat_scope.

(* ===================================================================== *)
(** ** JavaScript strings *)
(* ===================================================================== *)

Abbreviation jsstring := (list N).

Module JsString.

(** Bytes of a Rocq string literal (UTF-8 in the source file). *)
Fixpoint bytes (s : string) : list N :=
  match s with
  | EmptyString => []
  | String a s' => N_of_ascii a :: bytes s'
  end.

(** UTF-8 bytes to code points. *)
Fixpoint decode (l : list N) : list N :=
  match l with
  | [] => []
  | b0 :: l1 =>
      if (b0 <? 128)%N then b0 :: decode l1
      else if (b0 <? 224)%N then
        match l1 with
        | b1 :: l2 => ((b0 mod 32) * 64 + b1 mod 64)%N :: decode l2
        | _ => []
        end
      else if (b0 <? 240)%N then
        match l1 with
        | b1 :: b2 :: l3 =>
            ((b0 mod 16) * 4096 + (b1 mod 64) * 64 + b2 mod 64)%N :: decode l3
        | _ => []
        end
      else
        match l1 with
        | b1 :: b2 :: b3 :: l4 =>
            ((b0 mod 8) * 262144 + (b1 mod 64) * 4096
             + (b2 mod 64) * 64 + b3 mod 64)%N :: decode l4
        | _ => []
        end
  end.

(** Code points to UTF-16 code units (surrogate pairs above the BMP). *)
Definition units (cp : N) : list N :=
  if (cp <? 65536)%N then [cp]
  else let v := (cp - 65536)%N in [(55296 + v / 1024)%N; (56320 + v mod 1024)%N].

Definition js (s : string) : jsstring := flat_map units (decode (bytes s)).

(** [s.startsWith(p)] *)
Fixpoint startsWith (p s : jsstring) : bool :=
  match p, s with
  | [], _ => true
  | _ :: _, [] => false
  | a :: p', b :: s' => (a =? b)%N && startsWith p' s'
  end.

(** [s.indexOf(p)]: [None] stands for -1. *)
Fixpoint indexOf (p s : jsstring) : option nat :=
  if startsWith p s then Some 0
  else match s with
       | [] => None
       | _ :: s' => option_map S (indexOf p s')
       end.

(** [s.includes(p)] *)
Definition includes (s p : jsstring) : bool :=
  match indexOf p s with Some _ => true | None => false end.

(** [s.substring(a, b)] for [0 <= a <= b]. *)
Definition substring (s : jsstring) (a b : nat) : jsstring :=
  firstn (b - a) (skipn a s).

(** [s.substring(a)] *)
Definition substringFrom (s : jsstring) (a : nat) : jsstring := skipn a s.

(** [s.split(c)] for a one-unit separator [c]. *)
Fixpoint split (c : N) (s : jsstring) : list jsstring :=
  match s with
  | [] => [[]]
  | x :: s' =>
      if (x =? c)%N then [] :: split c s'
      else match split c s' with
           | [] => [[x]]
           | w :: ws => (x :: w) :: ws
           end
  end.

(** WhiteSpace and LineTerminator code units, as [trim] and [\s] use. *)
Definition isSpace (c : N) : bool :=
  ((9 <=? c) && (c <=? 13) || (c =? 32) || (c =? 160) || (c =? 5760)
   || (8192 <=? c) && (c <=? 8202) || (c =? 8232) || (c =? 8233)
   || (c =? 8239) || (c =? 8287) || (c =? 12288) || (c =? 65279))%N.

Fixpoint trimStart (s : jsstring) : jsstring :=
  match s with
  | c :: s' => if isSpace c then trimStart s' else s
  | [] => []
  end.

(** [s.trim()] *)
Definition trim (s : jsstring) : jsstring :=
  rev (trimStart (rev (trimStart s))).

(** [s.replace(p, '')] with a string pattern: the first occurrence only. *)
Definition removeFirst (p s : jsstring) : jsstring :=
  match indexOf p s with
  | Some i => firstn i s ++ skipn (i + length p) s
  | None => s
  end.

(** [s.replace(/c/g, '')] for a one-unit class. *)
Definition removeAll (p : N -> bool) (s : jsstring) : jsstring :=
  List.filter (fun c => negb (p c)) s.

(** [a.join(sep)] *)
Fixpoint join (sep : jsstring) (l : list jsstring) : jsstring :=
  match l with
  | [] => []
  | [x] => x
  | x :: l' => x ++ sep ++ join sep l'
  end.

(** Truthiness of a string: non-empty. *)
Definition truthy (s : jsstring) : bool :=
  match s with [] => false | _ => true end.

(** [a || b] on strings. *)
Definition or (a b : jsstring) : jsstring := if truthy a then a else b.

Definition eqb (a b : jsstring) : bool :=
  (length a =? length b) && startsWith a b.

End JsString.

Import JsString.

(* ===================================================================== *)
(** ** JavaScript numbers *)
(* ===================================================================== *)

Inductive number : Type :=
| NaN
| Inf (negative : bool)
| Fin (q : Q).

(** Functions of the JavaScript engine whose result depends on Unicode
    tables, on number printing or on the locale.  The program's behaviour
    is stated for every implementation of them. *)
Class Host : Type := {
  toLowerCase : jsstring -> jsstring;
  numberToString : number -> jsstring;
  toLocaleString : number -> jsstring
}.

Module JsNumber.

Definition ofZ (z : Z) : number := Fin (inject_Z z).

Definition zero : number := ofZ 0.

(** [a < b]; any comparison with [NaN] is false. *)
Definition lt (a b : number) : bool :=
  match a, b with
  | Fin x, Fin y => negb (Qle_bool y x)
  | Inf true, Fin _ => true
  | Inf true, Inf false => true
  | Fin _, Inf false => true
  | _, _ => false
  end.

(** [a > b] *)
Definition gt (a b : number) : bool := lt b a.

(** [a >= b] *)
Definition ge (a b : number) : bool :=
  match a, b with
  | Fin x, Fin y => Qle_bool y x
  | Inf false, Fin _ => true
  | Inf false, Inf _ => true
  | Fin _, Inf true => true
  | Inf true, Inf true => true
  | _, _ => false
  end.

(** [a <= b] *)
Definition le (a b : number) : bool := ge b a.

(** [a === b]; [NaN] is not equal to itself. *)
Definition strictEq (a b : number) : bool :=
  match a, b with
  | Fin x, Fin y => Qeq_bool x y
  | Inf s, Inf t => Bool.eqb s t
  | _, _ => false
  end.

(** Truthiness: every number but [0] and [NaN]. *)
Definition truthy (a : number) : bool :=
  match a with
  | NaN => false
  | Inf _ => true
  | Fin x => negb (Qeq_bool x 0)
  end.

(** [a || b] on numbers. *)
Definition or (a b : number) : number := if truthy a then a else b.

(** [a - b], [a * b], [a + b].  Finite results are kept exact and in
    lowest terms: the program multiplies and adds hours and minutes only,
    and reads nothing but the sign of a difference. *)
Definition sub (a b : number) : number :=
  match a, b with
  | Fin x, Fin y => Fin (Qred (x - y))
  | Inf s, Fin _ => Inf s
  | Fin _, Inf t => Inf (negb t)
  | Inf s, Inf t => if Bool.eqb s t then NaN else Inf s
  | _, _ => NaN
  end.

Definition mul (a b : number) : number :=
  match a, b with
  | Fin x, Fin y => Fin (Qred (x * y))
  | Inf s, Fin y | Fin y, Inf s =>
      if Qeq_bool y 0 then NaN else Inf (xorb s (negb (Qle_bool 0 y)))
  | Inf s, Inf t => Inf (xorb s t)
  | _, _ => NaN
  end.

Definition add (a b : number) : number :=
  match a, b with
  | Fin x, Fin y => Fin (Qred (x + y))
  | Inf s, Fin _ | Fin _, Inf s => Inf s
  | Inf s, Inf t => if Bool.eqb s t then Inf s else NaN
  | _, _ => NaN
  end.

(** The double nearest to the integer [z], ties to the even mantissa
    (53 bits); [Infinity] from 2^1024 - 2^970 on. *)
Definition toDouble (z : Z) : number :=
  let a := Z.abs z in
  if (a <? 2 ^ 53)%Z then ofZ z
  else
    let e := (Z.log2 a - 52)%Z in
    let m := Z.shiftr a e in
    let r := (a - Z.shiftl m e)%Z in
    let half := Z.shiftl 1 (e - 1) in
    let m' := if (half <? r)%Z || ((r =? half)%Z && Z.odd m) then (m + 1)%Z else m in
    let v := Z.shiftl m' e in
    if (2 ^ 1024 <=? v)%Z then Inf (z <? 0)%Z else ofZ (Z.sgn z * v).

Definition isDigit (c : N) : bool := ((48 <=? c) && (c <=? 57))%N.

Definition digitVal (c : N) : Z := Z.of_N c - 48.

(** Longest prefix of decimal digits: its length and value. *)
Fixpoint digits (acc : Z) (n : nat) (s : jsstring) : nat * Z * jsstring :=
  match s with
  | c :: s' => if isDigit c then digits (10 * acc + digitVal c) (S n) s' else (n, acc, s)
  | [] => (n, acc, s)
  end.

Definition signOf (s : jsstring) : Z * jsstring :=
  match s with
  | 45%N :: s' => (-1, s')%Z
  | 43%N :: s' => (1, s')%Z
  | _ => (1%Z, s)
  end.

(** [parseInt(s)] on a string: leading white space, a sign, then the
    longest run of decimal digits, read as the nearest double (as V8,
    the engine of Node and of Chromium, computes it); [NaN] when there
    is no digit.  (No argument in this program starts with 0x, so the
    hexadecimal prefix is left out.) *)
Definition parseInt (s : jsstring) : number :=
  let '(sg, s1) := signOf (trimStart s) in
  match digits 0 0 s1 with
  | (O, _, _) => NaN
  | (_, v, _) => toDouble (sg * v)
  end.

(** [parseFloat(s)] on a string: leading white space, a sign, digits and
    an optional fraction; [NaN] when there is no digit.  (Arguments here
    are matches of digit-dot-digit, so exponents are left out, and the
    one-digit decimal is kept exact: doubles that near compare and
    subtract as the decimals they stand for.) *)
Definition parseFloat (s : jsstring) : number :=
  let '(sg, s1) := signOf (trimStart s) in
  let '(n, v, s2) := digits 0 0 s1 in
  match s2 with
  | 46%N :: s3 =>
      let '(m, f, _) := digits 0 0 s3 in
      match n, m with
      | O, O => NaN
      | _, _ => Fin (Qred (inject_Z sg * (inject_Z v + inject_Z f / inject_Z (10 ^ Z.of_nat m))))
      end
  | _ => match n with O => NaN | _ => toDouble (sg * v) end
  end.

(** [parseFloat(n)] applied to a number: the number is printed and read
    back, which gives the number itself. *)
Definition parseFloatNum (n : number) : number := n.

(** Numbers that [Number::toString] prints in plain decimal digits: 0 and
    the magnitudes from 1e-6 up to, not including, 1e21.  The others are
    printed with an exponent (1e21 as 1e+21). *)
Definition printsPlain (x : Q) : bool :=
  Qeq_bool x 0
  || (Qle_bool (1 # 1000000) (Qabs x) && negb (Qle_bool (inject_Z (10 ^ 21)) (Qabs x))).

(** [parseInt(n)] applied to a number: the number is printed and the
    text is read back.  [NaN] and the infinities print as words, so they
    read as [NaN]; plain decimal digits read as the integer part; a text
    with an exponent is read up to its first non-digit, so that
    [parseInt(1e21)] is 1. *)
Definition parseIntNum {host : Host} (n : number) : number :=
  match n with
  | NaN => NaN
  | Inf _ => NaN
  | Fin x =>
      if printsPlain x then Fin (inject_Z (Z.quot (Qnum x) (Zpos (Qden x))))
      else parseInt (numberToString n)
  end.

End JsNumber.

(* ===================================================================== *)
(** ** Regular expressions *)
(* ===================================================================== *)

(** The fragment the program's literals use: classes of one code unit,
    sequence, alternation, greedy quantifiers over a class, and capturing
    groups (never nested). *)
Inductive regex : Type :=
| Eps
| Cls (p : N -> bool)
| Cat (r1 r2 : regex)
| Alt (r1 r2 : regex)
| Rep (p : N -> bool) (lo : nat) (hi : option nat)
| Cap (r : regex).

Module Regex.

Definition chr (c : N) : N -> bool := fun x => (x =? c)%N.
Definition range (a b : N) : N -> bool := fun x => ((a <=? x) && (x <=? b))%N.
Definition either (p q : N -> bool) : N -> bool := fun x => p x || q x.

(** [\d] and [[0-9]] *)
Definition digit : N -> bool := range 48 57.

(** A class given by the list of its members, as in [[xy]]. *)
Definition oneOf (l : jsstring) : N -> bool := fun x => existsb (N.eqb x) l.

(** A literal string as a sequence of one-unit classes. *)
Fixpoint lit (s : jsstring) : regex :=
  match s with
  | [] => Eps
  | c :: s' => Cat (Cls (chr c)) (lit s')
  end.

(** Sequence of several expressions. *)
Fixpoint seq (l : list regex) : regex :=
  match l with
  | [] => Eps
  | r :: l' => Cat r (seq l')
  end.

(** Number of leading units of [s] in the class [p], at most [hi]. *)
Fixpoint run (p : N -> bool) (hi : option nat) (s : jsstring) : nat :=
  match hi, s with
  | Some O, _ => O
  | _, [] => O
  | _, c :: s' =>
      if p c then S (run p (option_map Nat.pred hi) s') else O
  end.

(** Greedy backtracking: try [i], [i-1], ... down to [lo] repetitions. *)
Fixpoint tryDown {R : Type} (i lo : nat) (s : jsstring)
    (k : jsstring -> option R) : option R :=
  if i <? lo then None
  else match k (skipn i s) with
       | Some x => Some x
       | None => match i with
                 | O => None
                 | S i' => tryDown i' lo s k
                 end
       end.

(** Match [r] at the head of [s]; the continuation receives the rest of
    the input and the captures made so far, in order of closing. *)
Fixpoint matchHere {R : Type} (r : regex) (s : jsstring) (caps : list jsstring)
    (k : jsstring -> list jsstring -> option R) : option R :=
  match r with
  | Eps => k s caps
  | Cls p =>
      match s with
      | c :: s' => if p c then k s' caps else None
      | [] => None
      end
  | Cat r1 r2 => matchHere r1 s caps (fun s' caps' => matchHere r2 s' caps' k)
  | Alt r1 r2 =>
      match matchHere r1 s caps k with
      | Some x => Some x
      | None => matchHere r2 s caps k
      end
  | Rep p lo hi => tryDown (run p hi s) lo s (fun s' => k s' caps)
  | Cap r1 =>
      matchHere r1 s caps
        (fun s' caps' => k s' (caps' ++ [firstn (length s - length s') s]))
  end.

(** A successful match: where it starts, what it covers, its groups. *)
Record result : Type := mkResult {
  index : nat;
  whole : jsstring;
  groups : list jsstring
}.

Definition at0 (r : regex) (s : jsstring) : option (jsstring * list jsstring) :=
  matchHere r s []
    (fun s' caps => Some (firstn (length s - length s') s, caps)).

(** [s.match(r)] without the [g] flag: the leftmost match. *)
Fixpoint execFrom (r : regex) (i : nat) (s : jsstring) : option result :=
  match at0 r s with
  | Some (w, caps) => Some (mkResult i w caps)
  | None => match s with
            | [] => None
            | _ :: s' => execFrom r (S i) s'
            end
  end.

Definition exec (r : regex) (s : jsstring) : option result := execFrom r 0 s.

(** [s.match(r)] with the [g] flag: every match, left to right, each
    search resuming where the previous match ended (one unit further
    after an empty match). *)
Fixpoint matchAllFuel (fuel : nat) (r : regex) (s : jsstring) : list jsstring :=
  match fuel with
  | O => []
  | S fuel' =>
      match exec r s with
      | None => []
      | Some m =>
          whole m ::
          matchAllFuel fuel' r (skipn (index m + Nat.max 1 (length (whole m))) s)
      end
  end.

Definition matchAll (r : regex) (s : jsstring) : list jsstring :=
  matchAllFuel (S (length s)) r s.

(** The [n]-th group of a match ([m[n]], [n >= 1]). *)
Definition group (n : nat) (m : result) : jsstring := nth (n - 1) (groups m) [].

End Regex.

Import Regex.

(** [/(\d{1,2}):(\d{2})/] *)
Definition reClock : regex :=
  seq [Cap (Rep digit 1 (Some 2)); lit (js ":"); Cap (Rep digit 2 (Some 2))].

(* ===================================================================== *)
(** ** Data model *)
(* ===================================================================== *)

(** A list-stage record, as [extractBasicList] pushes it. *)
Module Candidate.
Record t : Type := mk {
  name : jsstring;
  rating : number;
  reviews : number;
  url : jsstring;
  category : jsstring;
  budget : jsstring;
  review : jsstring;
  listText : jsstring
}.
End Candidate.

(** What [getDetailsWithPage] returns. *)
Module Details.
Record t : Type := mk {
  address : jsstring;
  category : jsstring;
  budget : jsstring;
  businessHours : jsstring;
  detailRating : number;
  detailReviews : number
}.
End Details.

(** The merged object of [processChunk], after its three [delete]s. *)
Module Merged.
Record t : Type := mk {
  name : jsstring;
  rating : number;
  reviews : number;
  url : jsstring;
  category : jsstring;
  budget : jsstring;
  review : jsstring;
  address : jsstring;
  businessHours : jsstring
}.
End Merged.

(** The [filters] object built by the server; [None] is [null]. *)
Module Filters.
Record t : Type := mk {
  address : jsstring;
  category : jsstring;
  budgetMin : option number;
  budgetMax : option number;
  days : list jsstring;
  hours : jsstring;
  maxItems : number
}.
End Filters.

Record FilterOutcome : Type := mkOutcome {
  passed : bool;
  reason : jsstring
}.

(* ===================================================================== *)
(** ** FilterEngine: [checkOpenAtTime] and [checkFilters] *)
(* ===================================================================== *)

(** [/(\d{1,2})時(\d{2})分/] *)
Definition reBusinessTime : regex :=
  seq [Cap (Rep digit 1 (Some 2)); lit (js "時"); Cap (Rep digit 2 (Some 2)); lit (js "分")].

(** [/[￥¥]([0-9,]+)/] *)
Definition rePrice : regex :=
  seq [Cls (oneOf (js "￥¥")); Cap (Rep (either digit (oneOf (js ","))) 1 None)].

Definition comma : N := 44%N.
Definition slash : N := 47%N.

(** [day.replace('曜日', '')] *)
Definition dayShort (day : jsstring) : jsstring := removeFirst (js "曜日") day.

(** The inner function [parseTime] of [checkOpenAtTime]. *)
Definition parseTime (timeStr : jsstring) : option number :=
  if negb (JsString.truthy timeStr) then None
  else match exec reClock timeStr with
       | Some m =>
           Some (JsNumber.add
                   (JsNumber.mul (JsNumber.parseInt (group 1 m)) (JsNumber.ofZ 60))
                   (JsNumber.parseInt (group 2 m)))
       | None => None
       end.

(** The inner function [parseBusinessTime]: the first two [N時MM分] of the
    text, as minutes since midnight. *)
Definition parseBusinessTime (timeStr : jsstring) : option (number * number) :=
  match matchAll reBusinessTime timeStr with
  | m0 :: m1 :: _ =>
      match exec reBusinessTime m0, exec reBusinessTime m1 with
      | Some open, Some close =>
          Some (JsNumber.add
                  (JsNumber.mul (JsNumber.parseInt (group 1 open)) (JsNumber.ofZ 60))
                  (JsNumber.parseInt (group 2 open)),
                JsNumber.add
                  (JsNumber.mul (JsNumber.parseInt (group 1 close)) (JsNumber.ofZ 60))
                  (JsNumber.parseInt (group 2 close)))
      | _, _ => None
      end
  | _ => None
  end.

(** The value given to [isOpen] for one window. *)
Definition isOpen (open close targetMinutes : number) : bool :=
  if JsNumber.gt close open
  then JsNumber.ge targetMinutes open && JsNumber.lt targetMinutes close
  else JsNumber.ge targetMinutes open || JsNumber.lt targetMinutes close.

(** One turn of the loop over the segments: [None] is [continue],
    [Some b] the value of [isOpen]. *)
Definition segmentOpen (segment : jsstring) (targetMinutes : number)
    (targetDays : list jsstring) : option bool :=
  match indexOf (js ":") segment with
  | None => None
  | Some colonIndex =>
      let dayPart := substring segment 0 colonIndex in
      let timePart := substringFrom segment (colonIndex + 1) in
      let matchesDay :=
        match targetDays with
        | [] => true
        | _ => existsb (fun d => includes dayPart d) (map dayShort targetDays)
        end in
      if negb matchesDay then None
      else match parseBusinessTime timePart with
           | None => None
           | Some (open, close) => Some (isOpen open close targetMinutes)
           end
  end.

(** The loop: [foundMatch] at its end. *)
Fixpoint foundMatch (segments : list jsstring) (targetMinutes : number)
    (targetDays : list jsstring) : bool :=
  match segments with
  | [] => false
  | segment :: rest =>
      match segmentOpen segment targetMinutes targetDays with
      | Some true => true
      | _ => foundMatch rest targetMinutes targetDays
      end
  end.

Definition pass : FilterOutcome := mkOutcome true [].
Definition fail (r : jsstring) : FilterOutcome := mkOutcome false r.

Definition checkOpenAtTime (businessHours targetTime : jsstring)
    (targetDays : list jsstring) : FilterOutcome :=
  match parseTime targetTime with
  | None => pass
  | Some targetMinutes =>
      let segments := map trim (split slash businessHours) in
      if negb (foundMatch segments targetMinutes targetDays)
      then fail (targetTime ++ js "に営業していない")
      else pass
  end.

(** An early [return] inside a sequence of checks: [Some o] returns [o],
    [None] falls through to the next statement. *)
Definition orReturn (c : option FilterOutcome) (rest : FilterOutcome) : FilterOutcome :=
  match c with
  | Some o => o
  | None => rest
  end.

Notation "c >>> rest" := (orReturn c rest) (at level 65, right associativity).

Section PostFilter.

Context {host : Host}.

(** [s.split(',').map(x => x.trim()).filter(x => x)] *)
Definition addressKeywordsOf (s : jsstring) : list jsstring :=
  List.filter JsString.truthy (map trim (split comma s)).

(** [s.split(',').map(x => x.trim().toLowerCase()).filter(x => x)] *)
Definition categoryKeywordsOf (s : jsstring) : list jsstring :=
  List.filter JsString.truthy (map (fun x => toLowerCase (trim x)) (split comma s)).

Definition checkReviews (item : Merged.t) (minReviews : number) : option FilterOutcome :=
  if JsNumber.gt minReviews JsNumber.zero then
    let rev := JsNumber.or (JsNumber.parseIntNum (Merged.reviews item)) JsNumber.zero in
    if JsNumber.lt rev minReviews
    then Some (fail (js "レビュー数不足 (" ++ numberToString rev ++ js "件 < "
                     ++ numberToString minReviews ++ js "件)"))
    else None
  else None.

Definition checkAddress (item : Merged.t) (filters : Filters.t) : option FilterOutcome :=
  if JsString.truthy (Filters.address filters) then
    let addressKeywords := addressKeywordsOf (Filters.address filters) in
    match addressKeywords with
    | [] => None
    | _ =>
        let addr := JsString.or (Merged.address item) [] in
        if negb (existsb (fun keyword => includes addr keyword) addressKeywords)
        then Some (fail (js "住所不一致 ("
                         ++ JsString.or (substring addr 0 20) (js "不明") ++ js "...)"))
        else None
    end
  else None.

Definition checkCategory (item : Merged.t) (filters : Filters.t) : option FilterOutcome :=
  if JsString.truthy (Filters.category filters) then
    let categoryKeywords := categoryKeywordsOf (Filters.category filters) in
    match categoryKeywords with
    | [] => None
    | _ =>
        let cat := toLowerCase (JsString.or (Merged.category item) []) in
        if negb (existsb (fun keyword => includes cat keyword) categoryKeywords)
        then Some (fail (js "カテゴリ不一致 ("
                         ++ JsString.or (Merged.category item) (js "不明") ++ js ")"))
        else None
    end
  else None.

(** [x !== null] *)
Definition notNull (x : option number) : bool :=
  match x with
  | Some _ => true
  | None => false
  end.

(** [x !== null && price < x], [x !== null && price > x] *)
Definition below (price : number) (bound : option number) : bool :=
  match bound with
  | Some b => JsNumber.lt price b
  | None => false
  end.

Definition above (price : number) (bound : option number) : bool :=
  match bound with
  | Some b => JsNumber.gt price b
  | None => false
  end.

Definition localeOf (bound : option number) : jsstring :=
  match bound with
  | Some b => toLocaleString b
  | None => []
  end.

Definition checkBudget (item : Merged.t) (filters : Filters.t) : option FilterOutcome :=
  if notNull (Filters.budgetMin filters) || notNull (Filters.budgetMax filters) then
    let budget := JsString.or (Merged.budget item) [] in
    if JsString.truthy budget then
      match exec rePrice budget with
      | Some priceMatch =>
          let price := JsNumber.parseInt (removeAll (chr comma) (group 1 priceMatch)) in
          if below price (Filters.budgetMin filters)
          then Some (fail (js "予算が下限未満 (" ++ budget ++ js " < ￥"
                           ++ localeOf (Filters.budgetMin filters) ++ js ")"))
          else if above price (Filters.budgetMax filters)
          then Some (fail (js "予算が上限超過 (" ++ budget ++ js " > ￥"
                           ++ localeOf (Filters.budgetMax filters) ++ js ")"))
          else None
      | None => None
      end
    else None
  else None.

(** The loop over [filters.days]: [foundOpenDay] at its end. *)
Fixpoint foundOpenDay (lowerHours hours : jsstring) (days : list jsstring) : bool :=
  match days with
  | [] => false
  | day :: rest =>
      if (includes lowerHours (js "定休") || includes lowerHours (js "休み"))
         && includes hours (dayShort day)
      then foundOpenDay lowerHours hours rest
      else if includes hours (dayShort day) then true
      else foundOpenDay lowerHours hours rest
  end.

Definition checkDays (item : Merged.t) (filters : Filters.t) : option FilterOutcome :=
  match Filters.days filters with
  | [] => None
  | _ =>
      let hours := JsString.or (Merged.businessHours item) [] in
      if JsString.truthy hours then
        let lowerHours := toLowerCase hours in
        if negb (foundOpenDay lowerHours hours (Filters.days filters)) then
          let dayNames := join (js "・") (map dayShort (Filters.days filters)) in
          Some (fail (js "指定曜日(" ++ dayNames ++ js ")に営業していない"))
        else None
      else None
  end.

Definition checkHours (item : Merged.t) (filters : Filters.t) : option FilterOutcome :=
  if JsString.truthy (Filters.hours filters) then
    let hours := JsString.or (Merged.businessHours item) [] in
    if JsString.truthy hours then
      let timeResult := checkOpenAtTime hours (Filters.hours filters) (Filters.days filters) in
      if negb (passed timeResult) then Some (fail (reason timeResult)) else None
    else None
  else None.

(** [checkFilters(item, minReviews, filters)] *)
Definition checkFilters (item : Merged.t) (minReviews : number) (filters : Filters.t)
    : FilterOutcome :=
  checkReviews item minReviews >>>
  checkAddress item filters >>>
  checkCategory item filters >>>
  checkBudget item filters >>>
  checkDays item filters >>>
  checkHours item filters >>>
  pass.

End PostFilter.

(* ===================================================================== *)
(** ** CandidateExtractor: rating of a list item, deduplication by url *)
(* ===================================================================== *)

(** [/([1-5]\.[0-9])/g] *)
Definition reListRating : regex :=
  Cap (seq [Cls (range 49 53); lit (js "."); Cls digit]).

(** The loop over [ratingMatches]: the first value within 1.0 .. 5.0. *)
Fixpoint firstRatingInRange (ratingMatches : list jsstring) : number :=
  match ratingMatches with
  | [] => JsNumber.zero
  | m :: rest =>
      let val := JsNumber.parseFloat m in
      if JsNumber.ge val (JsNumber.ofZ 1) && JsNumber.le val (JsNumber.ofZ 5)
      then val
      else firstRatingInRange rest
  end.

(** The [rating] that [extractBasicList] gives to an item whose text is
    [text] ([let rating = 0] and the block that follows). *)
Definition extractRating (text : jsstring) : number :=
  firstRatingInRange (matchAll reListRating text).

(** The end of [extractBasicList]: [unique] and [urlMap] after the loop
    over [results]. *)
Fixpoint uniqueLoop (results : list Candidate.t)
    (unique : list Candidate.t) (urlMap : gmap jsstring bool)
    : list Candidate.t * gmap jsstring bool :=
  match results with
  | [] => (unique, urlMap)
  | item :: rest =>
      match urlMap !! Candidate.url item with
      | None =>
          uniqueLoop rest (unique ++ [item]) (<[Candidate.url item := true]> urlMap)
      | Some _ => uniqueLoop rest unique urlMap
      end
  end.

Definition uniqueByUrl (results : list Candidate.t) : list Candidate.t :=
  fst (uniqueLoop results [] ∅).

(* ===================================================================== *)
(** ** DetailFetchScheduler: the detail record of one page *)
(* ===================================================================== *)

(** What [page.evaluate] hands back; a missing attribute ([null]) is the
    empty string, which the code treats alike. *)
Module PageData.
Record t : Type := mk {
  text : jsstring;
  lines : list jsstring;
  addressLabel : jsstring;
  ratingLabel : jsstring;
  categoryText : jsstring
}.
End PageData.

(** The browser's answer to one visit: [GotoFailed] when the second
    [page.goto] throws too, [EvaluateFailed] when [page.evaluate] throws. *)
Inductive Visit : Type :=
| GotoFailed (message : jsstring)
| EvaluateFailed
| Loaded (pageData : PageData.t).

(** [/([0-9]\.[0-9])/] *)
Definition reDetailRating : regex :=
  Cap (seq [Cls digit; lit (js "."); Cls digit]).

(** [/([0-9,]+)\s*件のクチコミ/] *)
Definition reReviewCount : regex :=
  seq [Cap (Rep (either digit (oneOf (js ","))) 1 None); Rep isSpace 0 None;
       lit (js "件のクチコミ")].

(** [/￥[0-9,]+～[0-9,]+|¥[0-9,]+～[0-9,]+/] *)
Definition reBudgetRange : regex :=
  let num := Rep (either digit (oneOf (js ","))) 1 None in
  Alt (seq [lit (js "￥"); num; lit (js "～"); num])
      (seq [lit (js "¥"); num; lit (js "～"); num]).

Definition detailRatingOf (ratingLabel : jsstring) : number :=
  match exec reDetailRating ratingLabel with
  | Some ratingMatch => JsNumber.parseFloat (group 1 ratingMatch)
  | None => JsNumber.zero
  end.

Fixpoint detailReviewsOf (lines : list jsstring) : number :=
  match lines with
  | [] => JsNumber.zero
  | line :: rest =>
      if includes line (js "件のクチコミ") && negb (includes line (js "ローカルガイド"))
      then match exec reReviewCount line with
           | Some m => JsNumber.parseInt (removeAll (chr comma) (group 1 m))
           | None => detailReviewsOf rest
           end
      else detailReviewsOf rest
  end.

Fixpoint detailBudgetOf (budget : jsstring) (lines : list jsstring) : jsstring :=
  match lines with
  | [] => budget
  | line :: rest =>
      if includes line (js "￥") || includes line (js "¥") then
        match (if includes line (js "1 人あたり") then exec reBudgetRange line else None) with
        | Some m => whole m
        | None =>
            if negb (JsString.truthy budget) then
              match exec reBudgetRange line with
              | Some m => detailBudgetOf (whole m) rest
              | None => detailBudgetOf budget rest
              end
            else detailBudgetOf budget rest
        end
      else detailBudgetOf budget rest
  end.

Fixpoint detailHoursOf (lines : list jsstring) : jsstring :=
  match lines with
  | [] => []
  | line :: rest =>
      if includes line (js "営業") && (includes line (js ":00") || includes line (js "時"))
      then substring line 0 100
      else detailHoursOf rest
  end.

(** [getDetailsWithPage(page, url)] once the browser has answered:
    [inl message] is the exception it lets escape. *)
Definition getDetailsWithPage (v : Visit) : jsstring + Details.t :=
  match v with
  | GotoFailed message => inl message
  | EvaluateFailed =>
      inr (Details.mk [] (js "Unknown") [] [] JsNumber.zero JsNumber.zero)
  | Loaded pageData =>
      let address :=
        if JsString.truthy (PageData.addressLabel pageData)
        then trim (removeFirst (js "住所: ") (PageData.addressLabel pageData))
        else [] in
      let rating := detailRatingOf (PageData.ratingLabel pageData) in
      let category :=
        if JsString.truthy (PageData.categoryText pageData)
        then trim (PageData.categoryText pageData)
        else js "Unknown" in
      let reviews := detailReviewsOf (PageData.lines pageData) in
      let budget := detailBudgetOf [] (PageData.lines pageData) in
      let businessHours := detailHoursOf (PageData.lines pageData) in
      inr (Details.mk (JsString.or address [])
                      (JsString.or category (js "Unknown"))
                      (JsString.or budget [])
                      (JsString.or businessHours [])
                      rating reviews)
  end.

(** The object literal [mergedResult] of [processChunk], with the spread
    of [target] and [details] written out field by field. *)
Definition mergedResult (target : Candidate.t) (details : Details.t) : Merged.t :=
  {| Merged.name := Candidate.name target;
     Merged.url := Candidate.url target;
     Merged.address := Details.address details;
     Merged.businessHours := Details.businessHours details;
     Merged.rating :=
       if JsNumber.gt (Details.detailRating details) JsNumber.zero
       then Details.detailRating details
       else Candidate.rating target;
     Merged.reviews :=
       if JsNumber.gt (Details.detailReviews details) JsNumber.zero
       then Details.detailReviews details
       else Candidate.reviews target;
     Merged.category :=
       if JsString.truthy (Candidate.category target)
          && negb (JsString.eqb (Candidate.category target) (js "Unknown"))
       then Candidate.category target
       else JsString.or (Details.category details) (js "Unknown");
     Merged.budget :=
       JsString.or (JsString.or (Candidate.budget target) (Details.budget details)) [];
     Merged.review := JsString.or (Candidate.review target) [] |}.

(* ===================================================================== *)
(** ** ResultRanker: [Array.prototype.sort] and the comparator *)
(* ===================================================================== *)

(** [Array.prototype.sort(comparefn)] is a stable sort (ECMAScript 2019):
    an element moves behind another only when [comparefn] is positive on
    them.  Stable insertion gives that unique result. *)
Section ArraySort.

Context {A : Type} (comparefn : A -> A -> number).

Fixpoint insertSorted (x : A) (l : list A) : list A :=
  match l with
  | [] => [x]
  | y :: l' =>
      if JsNumber.gt (comparefn x y) JsNumber.zero
      then y :: insertSorted x l'
      else x :: y :: l'
  end.

Fixpoint arraySort (l : list A) : list A :=
  match l with
  | [] => []
  | x :: l' => insertSorted x (arraySort l')
  end.

End ArraySort.

Section Comparator.

Context {host : Host}.

(** [parseFloat(a.rating) || 0] and [parseInt(a.reviews) || 0] *)
Definition ratingKey (a : Merged.t) : number :=
  JsNumber.or (JsNumber.parseFloatNum (Merged.rating a)) JsNumber.zero.

Definition reviewsKey (a : Merged.t) : number :=
  JsNumber.or (JsNumber.parseIntNum (Merged.reviews a)) JsNumber.zero.

(** The arrow function given to [finalResults.sort]. *)
Definition compareResults (a b : Merged.t) : number :=
  let ratingA := ratingKey a in
  let ratingB := ratingKey b in
  if negb (JsNumber.strictEq ratingB ratingA)
  then JsNumber.sub ratingB ratingA
  else
    let reviewsA := reviewsKey a in
    let reviewsB := reviewsKey b in
    JsNumber.sub reviewsB reviewsA.

End Comparator.

(* ===================================================================== *)
(** ** [search]: pre-filter, detail rounds, ranking *)
(* ===================================================================== *)

(** Why the pre-filter loop leaves a candidate: the counter of
    [preFilteredOut] it increments before [continue], or [Kept] when the
    candidate reaches [targets.push]. *)
Inductive PreFilter : Type :=
| Kept
| OutRating
| OutReviews
| OutCategory
| OutBudget.

(** One element of the array a chunk worker returns. *)
Module Item.
Record t : Type := mk {
  result : option Merged.t;
  passed : bool;
  reason : jsstring;
  error : option jsstring;
  name : jsstring
}.
End Item.

(** The accumulators of step 6. *)
Module Tally.
Record t : Type := mk {
  finalResults : list Merged.t;
  successCount : nat;
  failCount : nat;
  filteredOutCount : nat;
  processedCount : nat
}.
End Tally.

(** The two loops [for (i = 0; i < a.length; i += k) ... a.slice(i, i + k)]:
    consecutive slices of [k] elements. *)
Fixpoint slices {A : Type} (fuel k : nat) (a : list A) : list (list A) :=
  match fuel, a with
  | O, _ => []
  | _, [] => []
  | S fuel', _ => firstn k a :: slices fuel' k (skipn k a)
  end.

(** The result feed after [autoScroll]: [NoFeed] when [feed.waitFor]
    times out, else the records the extraction loop pushed to [results]
    (items without url or text are skipped and counted, never pushed). *)
Inductive FeedState : Type :=
| NoFeed
| Feed (results : list Candidate.t).

Definition maxItemsPerTab : nat := 3.

(** [Math.min(Math.ceil(n / maxItemsPerTab), 5)] *)
Definition numTabsFor (n : nat) : nat :=
  Nat.min ((n + (maxItemsPerTab - 1)) / maxItemsPerTab) 5.

Section Search.

Context {host : Host}.

(** The browser: what visiting [url] in the tab [pages[pageIndex]] gives. *)
Variable browse : nat -> jsstring -> Visit.

Definition preFilterCategory (c : Candidate.t) (filters : Filters.t) : bool :=
  if JsString.truthy (Filters.category filters) then
    let categoryKeywords := categoryKeywordsOf (Filters.category filters) in
    match categoryKeywords with
    | [] => false
    | _ =>
        let cat := toLowerCase (JsString.or (Candidate.category c) []) in
        let listText := toLowerCase (JsString.or (Candidate.listText c) []) in
        let matchesCategory := existsb (fun keyword => includes cat keyword) categoryKeywords in
        let matchesListText := existsb (fun keyword => includes listText keyword) categoryKeywords in
        negb matchesCategory && negb matchesListText
    end
  else false.

Definition preFilterBudget (c : Candidate.t) (filters : Filters.t) : bool :=
  if (notNull (Filters.budgetMin filters) || notNull (Filters.budgetMax filters))
     && JsString.truthy (Candidate.budget c) then
    match exec rePrice (Candidate.budget c) with
    | Some priceMatch =>
        let price := JsNumber.parseInt (removeAll (chr comma) (group 1 priceMatch)) in
        below price (Filters.budgetMin filters) || above price (Filters.budgetMax filters)
    | None => false
    end
  else false.

(** The body of the loop [for (const c of candidates)]. *)
Definition preFilter (c : Candidate.t) (minRating minReviews : number)
    (filters : Filters.t) : PreFilter :=
  let r := JsNumber.or (JsNumber.parseFloatNum (Candidate.rating c)) JsNumber.zero in
  let rev := JsNumber.or (JsNumber.parseIntNum (Candidate.reviews c)) JsNumber.zero in
  if JsNumber.gt minRating JsNumber.zero && JsNumber.lt r minRating then OutRating
  else if JsNumber.gt minReviews JsNumber.zero && JsNumber.gt rev JsNumber.zero
          && JsNumber.lt rev minReviews then OutReviews
  else if preFilterCategory c filters then OutCategory
  else if preFilterBudget c filters then OutBudget
  else Kept.

Definition isKept (p : PreFilter) : bool :=
  match p with Kept => true | _ => false end.

Definition targetsOf (candidates : list Candidate.t) (minRating minReviews : number)
    (filters : Filters.t) : list Candidate.t :=
  List.filter (fun c => isKept (preFilter c minRating minReviews filters)) candidates.

(** [processChunk(chunk, pageIndex, chunkIndex)] in a pool of [numTabs] pages. *)
Definition processChunk (numTabs : nat) (minReviews : number) (filters : Filters.t)
    (chunk : list Candidate.t) (pageIndex : nat) : list Item.t :=
  let page := pageIndex mod numTabs in
  map (fun target =>
         match getDetailsWithPage (browse page (Candidate.url target)) with
         | inr details =>
             let merged := mergedResult target details in
             let filterResult := checkFilters merged minReviews filters in
             Item.mk (Some merged) (passed filterResult) (reason filterResult)
                     None (Candidate.name target)
         | inl message =>
             Item.mk None false [] (Some message) (Candidate.name target)
         end) chunk.

(** The tally of one item ([for (const item of chunkResults)]). *)
Definition tallyItem (t : Tally.t) (item : Item.t) : Tally.t :=
  let processed := S (Tally.processedCount t) in
  match Item.error item, Item.passed item, Item.result item with
  | Some (_ :: _), _, _ =>
      Tally.mk (Tally.finalResults t) (Tally.successCount t) (S (Tally.failCount t))
               (Tally.filteredOutCount t) processed
  | _, true, Some r =>
      Tally.mk (Tally.finalResults t ++ [r]) (S (Tally.successCount t)) (Tally.failCount t)
               (Tally.filteredOutCount t) processed
  | _, _, _ =>
      Tally.mk (Tally.finalResults t) (Tally.successCount t) (Tally.failCount t)
               (S (Tally.filteredOutCount t)) processed
  end.

(** One round: the workers of a batch, joined by [Promise.all], then the
    tally of their results in the order of the batch. *)
Definition processBatch (numTabs : nat) (minReviews : number) (filters : Filters.t)
    (t : Tally.t) (batch : list (list Candidate.t)) : Tally.t :=
  let batchResults :=
    imap (fun idx chunk => processChunk numTabs minReviews filters chunk idx) batch in
  fold_left (fun t chunkResults => fold_left tallyItem chunkResults t) batchResults t.

(** [search(address, keyword, minRating, minReviews, filters)] for a
    session in which the navigation and the query went through: from the
    wait for the feed to the final sort.  [autoScroll] and
    [extractBasicList] receive the feed locator only. *)
Definition search (feed : FeedState) (minRating minReviews : number)
    (filters : Filters.t) : list Merged.t :=
  match feed with
  | NoFeed => []
  | Feed results =>
      let candidates := uniqueByUrl results in
      match candidates with
      | [] => []
      | _ =>
          let targets := targetsOf candidates minRating minReviews filters in
          match targets with
          | [] => []
          | _ =>
              let numTabs := numTabsFor (length targets) in
              let chunks := slices (length targets) maxItemsPerTab targets in
              let batches := slices (length chunks) numTabs chunks in
              let tally :=
                fold_left (processBatch numTabs minReviews filters) batches
                          (Tally.mk [] 0 0 0 0) in
              arraySort compareResults (Tally.finalResults tally)
          end
      end
  end.

End Search.

(* ===================================================================== *)
(** ** RetryExecutor: [retryOperation] *)
(* ===================================================================== *)

(** What an operation may throw: [undefined], [null], or any other
    value (an [Error], a string, a number, ...), whose [message] the
    [catch] block can read and print. *)
Inductive Thrown (Err : Type) : Type :=
| Undefined
| Null
| Value (error : Err).

Arguments Undefined {Err}.
Arguments Null {Err}.
Arguments Value {Err} error.

(** How a call ends: [return result]; [throw lastError] after the loop
    ([lastError] is still [undefined] when the loop never ran); or the
    [TypeError] raised inside the [catch] block when [error.message] is
    read off [undefined] or [null]. *)
Inductive Completion (Res Err : Type) : Type :=
| Return (result : Res)
| Throw (lastError : Thrown Err)
| ThrowTypeError.

Arguments Return {Res Err} result.
Arguments Throw {Res Err} lastError.
Arguments ThrowTypeError {Res Err}.

Section Retry.

Context {World Res Err : Type}.

(** One call [await fn()]: the world it leaves and what it produced. *)
Variable fn : World -> World * (Thrown Err + Res).

(** [await this.page?.waitForTimeout(delay).catch(() => {})] *)
Variable waitForTimeout : Z -> World -> World.

Definition retryDelay : Z := 2000.

(** The [for] loop from [attempt] on, [remaining] turns being left; the
    second component counts the calls of [fn]. *)
Fixpoint retryLoop (remaining attempt maxRetries : nat) (lastError : Thrown Err)
    (calls : nat) (w : World) : World * nat * Completion Res Err :=
  match remaining with
  | O => (w, calls, Throw lastError)
  | S remaining' =>
      match fn w with
      | (w', inr result) => (w', S calls, Return result)
      | (w', inl (Value error)) =>
          let w'' :=
            if attempt <? maxRetries
            then waitForTimeout (retryDelay * Z.of_nat attempt) w'
            else w' in
          retryLoop remaining' (S attempt) maxRetries (Value error) (S calls) w''
      | (w', inl _) => (w', S calls, ThrowTypeError)
      end
  end.

(** [retryOperation(fn, operationName, maxRetries)] *)
Definition retryOperation (maxRetries : nat) (w : World)
    : World * nat * Completion Res Err :=
  retryLoop maxRetries 1 maxRetries Undefined 0 w.

End Retry.

(* ===================================================================== *)
(** ** ScrollCollector: [autoScroll] *)
(* ===================================================================== *)

(** What the page does in one turn of the loop: the measure of the
    height at the top of the turn throws; or [scrollBy], the wait or the
    second measure throws (caught inside the loop); or the end text is
    visible; or it is not (or its check throws) and the new height is
    measured. *)
Inductive ScrollTurn : Type :=
| HeightThrows
| ScrollThrows
| EndVisible
| Measured (newHeight : Z).

(** How the function leaves the loop. *)
Inductive ScrollEnd : Type :=
| SawEnd
| NoMoreContent
| CapReached
| Aborted.

Definition maxScrollAttempts : nat := 100.

(** The [for] loop from turn [i] on, [remaining] turns being left;
    the result is [scrollAttempt] and the way out. *)
Fixpoint scrollLoop (turns : nat -> ScrollTurn) (remaining i : nat)
    (previousHeight : Z) (noChangeCount : nat) : nat * ScrollEnd :=
  match remaining with
  | O => (i, CapReached)
  | S remaining' =>
      match turns i with
      | HeightThrows => (S i, Aborted)
      | ScrollThrows => scrollLoop turns remaining' (S i) previousHeight noChangeCount
      | EndVisible => (S i, SawEnd)
      | Measured newHeight =>
          if (newHeight =? previousHeight)%Z then
            if 3 <=? S noChangeCount then (S i, NoMoreContent)
            else scrollLoop turns remaining' (S i) newHeight (S noChangeCount)
          else scrollLoop turns remaining' (S i) newHeight 0
      end
  end.

(** [autoScroll(feedLocator)] *)
Definition autoScroll (turns : nat -> ScrollTurn) : nat * ScrollEnd :=
  scrollLoop turns maxScrollAttempts 0 0%Z 0.

(* ===================================================================== *)
(** ** CandidateExtractor: the other fields of a list item *)
(* ===================================================================== *)

Definition digitOrComma : N -> bool := either digit (oneOf (js ",")).
Definition digitCommaDot : N -> bool := either digit (oneOf (js ",.")).

(** [/\(([0-9,\.]+)\)/] *)
Definition reParenCount : regex :=
  seq [lit (js "("); Cap (Rep digitCommaDot 1 None); lit (js ")")].

(** [/([0-9,]+)\s*件/] *)
Definition reCountKen : regex :=
  seq [Cap (Rep digitOrComma 1 None); Rep isSpace 0 None; lit (js "件")].

(** One letter under the [i] flag: either case. *)
Definition letter (lower upper : string) : regex := Cls (oneOf (js lower ++ js upper)).

(** [/([0-9,]+)\s*reviews?/i] *)
Definition reCountReviews : regex :=
  seq [Cap (Rep digitOrComma 1 None); Rep isSpace 0 None;
       letter "r" "R"; letter "e" "E"; letter "v" "V"; letter "i" "I";
       letter "e" "E"; letter "w" "W"; Rep (oneOf (js "sS")) 0 (Some 1)].

(** [/[1-5]\.[0-9]\s*\(([0-9,\.]+)\)/] *)
Definition reRatedCount : regex :=
  seq [Cls (range 49 53); lit (js "."); Cls digit; Rep isSpace 0 None;
       lit (js "("); Cap (Rep digitCommaDot 1 None); lit (js ")")].

(** One pattern of the cascade: tried only while [reviews === 0]. *)
Definition orPattern (reviews : number) (r : regex) (strip : N -> bool)
    (text : jsstring) : number :=
  if JsNumber.strictEq reviews JsNumber.zero then
    match exec r text with
    | Some m => JsNumber.parseInt (removeAll strip (group 1 m))
    | None => reviews
    end
  else reviews.

(** The [reviews] that [extractBasicList] gives to an item whose text is
    [text] ([let reviews = 0] and the block of the four patterns). *)
Definition extractReviews (text : jsstring) : number :=
  let reviews1 := orPattern JsNumber.zero reParenCount (oneOf (js ",.")) text in
  let reviews2 := orPattern reviews1 reCountKen (oneOf (js ",")) text in
  let reviews3 := orPattern reviews2 reCountReviews (oneOf (js ",")) text in
  orPattern reviews3 reRatedCount (oneOf (js ",.")) text.

(** [/[￥¥][0-9,]+(?:～[0-9,]+)?/] *)
Definition reListBudget : regex :=
  seq [Cls (oneOf (js "￥¥")); Rep digitOrComma 1 None;
       Alt (seq [lit (js "～"); Rep digitOrComma 1 None]) Eps].

(** The [budget] of a list item. *)
Definition extractBudget (text : jsstring) : jsstring :=
  match exec reListBudget text with
  | Some budgetMatch => whole budgetMatch
  | None => []
  end.

(** [/[1-5]\.[0-9]/] and [/[￥¥]/], as [rawName.search] uses them. *)
Definition reRatingMark : regex := seq [Cls (range 49 53); lit (js "."); Cls digit].
Definition reYenMark : regex := Cls (oneOf (js "￥¥")).

(** [s.search(r)]: [None] stands for -1. *)
Definition search_ (r : regex) (s : jsstring) : option nat :=
  option_map index (exec r s).

(** [if (pos > 0) rawName = rawName.substring(0, pos)] *)
Definition cutAt (pos : option nat) (rawName : jsstring) : jsstring :=
  match pos with
  | Some (S p) => substring rawName 0 (S p)
  | _ => rawName
  end.

(** [text.split('\n').map(l => l.trim()).filter(l => l)] *)
Definition linesOf (text : jsstring) : list jsstring :=
  List.filter JsString.truthy (map trim (split 10 text)).

(** The [name] of a list item with accessible label [ariaLabel] (empty
    when there is none) and text [text]. *)
Definition extractName (ariaLabel text : jsstring) : jsstring :=
  if JsString.truthy ariaLabel && JsString.truthy (trim ariaLabel) then trim ariaLabel
  else
    let rawName0 := JsString.or (nth 0 (linesOf text) []) [] in
    let rawName1 := cutAt (search_ reRatingMark rawName0) rawName0 in
    let rawName2 := cutAt (indexOf (js "·") rawName1) rawName1 in
    let rawName3 := cutAt (search_ reYenMark rawName2) rawName2 in
    JsString.or (trim rawName3) (js "Unknown").

Definition quote : N := 34%N.

(** A quoted text (a double quote, one or more units other than a
    double quote captured as group 1, a double quote) and [/★(\d)/]. *)
Definition reQuoted : regex :=
  seq [Cls (chr quote); Cap (Rep (fun c => negb (chr quote c)) 1 None); Cls (chr quote)].

Definition reStar : regex := seq [lit (js "★"); Cap (Cls digit)].

(** The [review] snippet of a list item. *)
Definition extractReview (text : jsstring) : jsstring :=
  match exec reQuoted text with
  | Some reviewMatch =>
      if JsString.truthy (group 1 reviewMatch) then
        let reviewText := trim (group 1 reviewMatch) in
        let beforeQuote :=
          match indexOf [quote] text with
          | Some i => substring text 0 i
          | None => []
          end in
        match exec reStar beforeQuote with
        | Some starMatch => js "★" ++ group 1 starMatch ++ js " " ++ reviewText
        | None => reviewText
        end
      else []
  | None => []
  end.

(* ===================================================================== *)
(** ** CsvExporter: the record written for a result *)
(* ===================================================================== *)

(** The object the [map] of [writeRecords] builds for one record. *)
Definition sanitizedRecord (record : Merged.t) : Merged.t :=
  {| Merged.name := JsString.or (Merged.name record) (js "Unknown");
     Merged.category := JsString.or (Merged.category record) (js "Unknown");
     Merged.rating := JsNumber.or (Merged.rating record) JsNumber.zero;
     Merged.reviews := JsNumber.or (Merged.reviews record) JsNumber.zero;
     Merged.budget := JsString.or (Merged.budget record) [];
     Merged.businessHours := JsString.or (Merged.businessHours record) [];
     Merged.address := JsString.or (Merged.address record) [];
     Merged.review := JsString.or (Merged.review record) [];
     Merged.url := JsString.or (Merged.url record) [] |}.

(* ===================================================================== *)
(** ** A host for running examples *)
(* ===================================================================== *)

(** Case mapping on A-Z only. *)
Definition asciiLower (s : jsstring) : jsstring :=
  map (fun c => if ((65 <=? c) && (c <=? 90))%N then (c + 32)%N else c) s.

(** The decimal digits of [n]. *)
Fixpoint showDigits (fuel : nat) (n : Z) (acc : jsstring) : jsstring :=
  match fuel with
  | O => acc
  | S fuel' =>
      let acc' := (Z.to_N (n mod 10) + 48)%N :: acc in
      if (n <? 10)%Z then acc' else showDigits fuel' (n / 10)%Z acc'
  end.

Definition showNat (n : Z) : jsstring := showDigits (S (Z.to_nat (Z.log2 n))) n [].

Fixpoint dropZeros (s : jsstring) : jsstring :=
  match s with
  | 48%N :: s' => dropZeros s'
  | _ => s
  end.

(** Integers as an engine prints them: plain digits below 1e21, and from
    there on the first digit, the digits that follow it up to the last
    one that is not 0, and the exponent (1e21 is printed 1e+21). *)
Definition showNumber (n : number) : jsstring :=
  match n with
  | NaN => js "NaN"
  | Inf negative => (if negative then js "-" else []) ++ js "Infinity"
  | Fin q =>
      let z := Z.quot (Qnum q) (Zpos (Qden q)) in
      let ds := showNat (Z.abs z) in
      (if (z <? 0)%Z then js "-" else [])
      ++ (if (Z.abs z <? 10 ^ 21)%Z then ds
          else
            let fraction := rev (dropZeros (rev (skipn 1 ds))) in
            firstn 1 ds
            ++ (if JsString.truthy fraction then js "." ++ fraction else [])
            ++ js "e+" ++ showNat (Z.of_nat (length ds - 1)))
  end.

Definition sampleHost : Host :=
  {| toLowerCase := asciiLower;
     numberToString := showNumber;
     toLocaleString := showNumber |}.

(** ** Sample inputs *)

Definition noFilters : Filters.t :=
  Filters.mk [] [] None None [] [] JsNumber.zero.

(** A list item whose text showed no rating. *)
Definition unratedCandidate : Candidate.t :=
  Candidate.mk (js "珈琲店 A") JsNumber.zero (JsNumber.ofZ 35)
               (js "https://www.google.co.jp/maps/place/a")
               (js "Unknown") [] (js "★5 落ち着く") (js "珈琲店 A (35)").

Definition ratedCandidate : Candidate.t :=
  Candidate.mk (js "ラーメン B") (Fin (42 # 10)) JsNumber.zero
               (js "https://www.google.co.jp/maps/place/b")
               (js "ラーメン") (js "￥1,000～2,000") [] (js "ラーメン B 4.2").

Definition sampleDetails : Details.t :=
  Details.mk (js "東京都新宿区1-1") (js "カフェ") (js "￥2,000～3,000")
             (js "月: 18時00分～5時00分") (Fin (43 # 10)) JsNumber.zero.

Definition mondayNight : jsstring := js "月: 18時00分～5時00分".

(** A merged record without business hours, and one that closes on Mondays. *)
Definition noHoursItem : Merged.t :=
  Merged.mk (js "珈琲店 A") (Fin (43 # 10)) (JsNumber.ofZ 35)
            (js "https://www.google.co.jp/maps/place/a")
            (js "カフェ") [] [] (js "東京都新宿区1-1") [].

Definition tuesdayItem : Merged.t :=
  Merged.mk (js "ラーメン B") (Fin (42 # 10)) (JsNumber.ofZ 120)
            (js "https://www.google.co.jp/maps/place/b")
            (js "ラーメン") [] [] (js "東京都渋谷区2-2") (js "火: 11時00分～15時00分").

Definition mondayFilters : Filters.t :=
  Filters.mk [] [] None None [js "月曜日"] [] JsNumber.zero.

(** The same url seen again further down the feed, under another name. *)
Definition repeatedCandidate : Candidate.t :=
  Candidate.mk (js "珈琲店 A 新宿") (Fin (41 # 10)) (JsNumber.ofZ 12)
               (js "https://www.google.co.jp/maps/place/a")
               (js "カフェ") [] [] (js "珈琲店 A 新宿 4.1(12)").

Definition feedWithRepeat : list Candidate.t :=
  [unratedCandidate; ratedCandidate; repeatedCandidate].

(** An operation that throws the number of the call on every call, and
    one that succeeds on its second call; the world counts the calls. *)
Definition alwaysFails (w : nat) : nat * (Thrown nat + jsstring) := (S w, inl (Value (S w))).

Definition secondTimeLucky (w : nat) : nat * (Thrown nat + jsstring) :=
  if w =? 1 then (S w, inr (js "ok")) else (S w, inl (Value (S w))).


Definition noWait (delay : Z) (w : nat) : nat := w.

(** The three records of the ranking example, in completion order. *)
Definition matched (name : string) (rating : Q) (reviews : Z) : Merged.t :=
  Merged.mk (js name) (Fin rating) (JsNumber.ofZ reviews) (js name) (js "Unknown")
            [] [] [] [].

Definition rankingExample : list Merged.t :=
  [matched "a" (42 # 10) 10; matched "b" (48 # 10) 2; matched "c" (42 # 10) 50].

(** Two records of one rating, with 5 and with 1e21 reviews. *)
Definition fewReviews : Merged.t := matched "few" (42 # 10) 5.
Definition hugeCount : Merged.t := matched "huge" (42 # 10) (10 ^ 21).

(** A detail page whose star label reads 9.9. *)
Definition overratedPage : PageData.t :=
  PageData.mk (js "9.9 つ星") [js "9.9 つ星"] [] (js "9.9 つ星") [].

(** A browser in which every place has the same detail page. *)
Definition samplePage : PageData.t :=
  PageData.mk (js "4.3 つ星 / 1,234 件のクチコミ")
              [js "4.3 つ星"; js "1,234 件のクチコミ"; js "営業時間 月: 18時00分～5時00分"]
              (js "住所: 東京都新宿区1-1") (js "4.3 つ星") (js "カフェ").

Definition sampleBrowse (pageIndex : nat) (url : jsstring) : Visit := Loaded samplePage.


Definition withMaxItems (filters : Filters.t) (n : number) : Filters.t :=
  Filters.mk (Filters.address filters) (Filters.category filters)
             (Filters.budgetMin filters) (Filters.budgetMax filters)
             (Filters.days filters) (Filters.hours filters) n.

(** The detail record [samplePage] gives. *)
Definition sampleDetailsOfPage : Details.t :=
  Details.mk (js "東京都新宿区1-1") (js "カフェ") [] (js "営業時間 月: 18時00分～5時00分")
             (Fin (43 # 10)) (JsNumber.ofZ 1234).

(** A budget between 500 and 3000. *)
Definition budgetFilters : Filters.t :=
  Filters.mk [] [] (Some (JsNumber.ofZ 500)) (Some (JsNumber.ofZ 3000)) [] [] JsNumber.zero.

(** A world that is a clock in ms: the operation fails at once, a wait
    lets the delay pass. *)
Definition failsAtOnce (w : Z) : Z * (Thrown nat + jsstring) := (w, inl (Value 0)).

Definition elapse (delay w : Z) : Z := (w + delay)%Z.

(** A candidate with the fields the extractor reads off a list text. *)
Definition sampleListText : jsstring := js "ラーメン B 4.2(1,234) · ￥1,000～2,000".

Definition extractedCandidate : Candidate.t :=
  Candidate.mk (extractName [] sampleListText) (extractRating sampleListText)
               (extractReviews sampleListText)
               (js "https://www.google.co.jp/maps/place/b")
               (js "Unknown") (extractBudget sampleListText) (extractReview sampleListText)
               (substring sampleListText 0 300).

(** A list text whose review count has 22 digits. *)
Definition hugeListText : jsstring := js "店 C 4.2(1,000,000,000,000,000,000,000)".

(** The double the Standard Library's specification of IEEE 754
    arithmetic gives for an integer (53 bits of mantissa, exponents
    below 1024), for comparison with [JsNumber.toDouble]. *)
Definition ieeeDouble (z : Z) : number :=
  match SpecFloat.binary_normalize 53 1024 z 0 false with
  | SpecFloat.S754_zero _ => JsNumber.zero
  | SpecFloat.S754_infinity negative => Inf negative
  | SpecFloat.S754_nan => NaN
  | SpecFloat.S754_finite negative m e =>
      Fin (Qred ((if negative then -1 else 1) * inject_Z (Zpos m) * 2 ^ e))
  end.

Definition sameNumber (a b : number) : bool :=
  match a, b with
  | NaN, NaN => true
  | Inf s, Inf t => Bool.eqb s t
  | Fin x, Fin y => Qeq_bool x y
  | _, _ => false
  end.

(** A feed that grows by 700 at each scroll, whose scroll throws at the
    third turn and whose end text shows at the sixth. *)
Definition scrollWithErrors (i : nat) : ScrollTurn :=
  if i =? 2 then ScrollThrows
  else if i =? 5 then EndVisible
  else Measured (Z.of_nat (S i) * 700).

(* ===================================================================== *)
(** * Properties *)
(* ===================================================================== *)

(** ** Worked examples of the embedding *)

Example js_monday : js "月曜日" = [26376; 26332; 26085]%N.
Proof. vm_compute. reflexivity. Qed.

Example split_trim_example :
  map trim (split 47 (js "a: 1 / b: 2")) = [js "a: 1"; js "b: 2"].
Proof. vm_compute. reflexivity. Qed.

Example parseFloat_45 : JsNumber.parseFloat (js "4.5") = Fin (9 # 2).
Proof. vm_compute. reflexivity. Qed.

Example parseInt_1234 : JsNumber.parseInt (js "1234") = Fin 1234.
Proof. vm_compute. reflexivity. Qed.

Example parseInt_empty : JsNumber.parseInt [] = NaN.
Proof. reflexivity. Qed.

(** Digits are read as doubles: 2^53 + 1 is rounded to 2^53, 21 nines
    to 1e21, and a run of 309 nines is [Infinity]. *)
Example parseInt_rounds :
  JsNumber.parseInt (js "9007199254740993") = JsNumber.ofZ 9007199254740992
  /\ JsNumber.parseInt (js "999999999999999999999") = JsNumber.ofZ (10 ^ 21)
  /\ JsNumber.parseInt (repeat 57%N 309) = Inf false.
Proof. split; [|split]; vm_compute; reflexivity. Qed.

(** The rounding agrees with the Standard Library's IEEE 754 on small
    integers, around 2^53, on ties, and around the largest double. *)
Example toDouble_as_ieee :
  forallb (fun z => sameNumber (JsNumber.toDouble z) (ieeeDouble z))
    [0; 1; -7; 2 ^ 53 - 1; 2 ^ 53; 2 ^ 53 + 1; 2 ^ 53 + 2; 2 ^ 53 + 3; 2 ^ 54 + 2;
     2 ^ 54 + 6; - (2 ^ 53 + 1); 10 ^ 21 - 1; 10 ^ 21; 10 ^ 21 + 1; 10 ^ 22;
     123456789012345678901234567890; 10 ^ 308; 2 ^ 1024 - 2 ^ 971;
     2 ^ 1024 - 2 ^ 970 - 1; 2 ^ 1024 - 2 ^ 970; 2 ^ 1024; 10 ^ 309; - 10 ^ 309]%Z
  = true.
Proof. vm_compute. reflexivity. Qed.

(** A number is read back through its printed form: up to 1e21 the
    number itself, from 1e21 on the digits before the first non-digit. *)
Example parseIntNum_read_back :
  @JsNumber.parseIntNum sampleHost (JsNumber.ofZ 1234) = JsNumber.ofZ 1234
  /\ showNumber (JsNumber.ofZ (10 ^ 21)) = js "1e+21"
  /\ @JsNumber.parseIntNum sampleHost (JsNumber.ofZ (10 ^ 21)) = JsNumber.ofZ 1
  /\ @JsNumber.parseIntNum sampleHost (Inf false) = NaN.
Proof. split; [|split; [|split]]; vm_compute; reflexivity. Qed.

(** A list text can carry a count that is read as 1e21. *)
Example extractReviews_huge : extractReviews hugeListText = JsNumber.ofZ (10 ^ 21).
Proof. vm_compute. reflexivity. Qed.

Example reClock_backtracks :
  option_map (fun m => (index m, groups m)) (exec reClock (js "123:45"))
  = Some (1, [js "23"; js "45"]).
Proof. vm_compute. reflexivity. Qed.

Example reBusinessTime_two :
  parseBusinessTime (js " 18時00分～5時00分")
  = Some (JsNumber.ofZ 1080, JsNumber.ofZ 300).
Proof. vm_compute. reflexivity. Qed.

Example detailRating_example : detailRatingOf (js "4.3 つ星") = Fin (43 # 10).
Proof. vm_compute. reflexivity. Qed.

Example extractRating_skips : extractRating (js "5.7 km 4.5(120)") = Fin (9 # 2).
Proof. vm_compute. reflexivity. Qed.

Example showNumber_120 : showNumber (JsNumber.ofZ 120) = js "120".
Proof. vm_compute. reflexivity. Qed.

Example checkFilters_time_of_day :
  let item := mergedResult ratedCandidate sampleDetails in
  let at_ (t : jsstring) := Filters.mk [] [] None None [js "月曜日"] t JsNumber.zero in
  passed (@checkFilters sampleHost item JsNumber.zero (at_ (js "23:00"))) = true
  /\ @checkFilters sampleHost item JsNumber.zero (at_ (js "10:00"))
     = fail (js "10:00に営業していない").
Proof. vm_compute. split; reflexivity. Qed.

(** ** Numbers and strings *)

(** A number that is known and strictly positive. *)
Definition positive (n : number) : Prop :=
  match n with
  | NaN => False
  | Inf negative => negative = false
  | Fin q => (0 < q)%Q
  end.

(** The rational a finite number stands for. *)
Definition valueOf (n : number) : Q :=
  match n with
  | Fin q => q
  | _ => 0%Q
  end.

Lemma lt_Fin (x y : Q) : JsNumber.lt (Fin x) (Fin y) = true <-> (x < y)%Q.
Proof.
  unfold JsNumber.lt. rewrite negb_true_iff. split.
  - intros H. apply Qnot_le_lt. intros Hle. apply Qle_bool_iff in Hle. congruence.
  - intros H. destruct (Qle_bool y x) eqn:E; [|reflexivity].
    apply Qle_bool_iff in E. exfalso. exact (Qlt_not_le _ _ H E).
Qed.

Lemma ge_Fin (x y : Q) : JsNumber.ge (Fin x) (Fin y) = true <-> (y <= x)%Q.
Proof. unfold JsNumber.ge. apply Qle_bool_iff. Qed.

Lemma gt_zero_positive (n : number) :
  JsNumber.gt n JsNumber.zero = true <-> positive n.
Proof.
  unfold JsNumber.gt, JsNumber.zero, JsNumber.ofZ, positive. destruct n as [|[|]|q].
  - split; [discriminate | intros []].
  - split; discriminate.
  - split; reflexivity.
  - apply lt_Fin.
Qed.

Lemma gt_zero_not_positive (n : number) :
  JsNumber.gt n JsNumber.zero = false <-> ~ positive n.
Proof.
  rewrite <- gt_zero_positive. destruct (JsNumber.gt n JsNumber.zero); split; congruence.
Qed.

(** The comparisons order the numbers other than [NaN], the infinities
    standing at both ends. *)
Lemma Qle_bool_total (x y : Q) : Qle_bool x y = true \/ Qle_bool y x = true.
Proof.
  destruct (Qlt_le_dec x y) as [H | H]; [left | right]; apply Qle_bool_iff;
    [apply Qlt_le_weak|]; exact H.
Qed.

Lemma ge_trans (a b c : number) :
  JsNumber.ge a b = true -> JsNumber.ge b c = true -> JsNumber.ge a c = true.
Proof.
  destruct a as [|[|]|x], b as [|[|]|y], c as [|[|]|z]; cbn [JsNumber.ge];
    try discriminate; try reflexivity.
  intros H1 H2. apply Qle_bool_iff in H1. apply Qle_bool_iff in H2.
  apply Qle_bool_iff. apply (Qle_trans _ y); assumption.
Qed.

Lemma ge_total (a b : number) :
  a <> NaN -> b <> NaN -> JsNumber.ge a b = true \/ JsNumber.ge b a = true.
Proof.
  destruct a as [|[|]|x], b as [|[|]|y]; cbn [JsNumber.ge]; intros Ha Hb;
    try congruence; try (left; reflexivity); try (right; reflexivity).
  destruct (Qle_bool_total x y) as [H | H]; [right | left]; exact H.
Qed.

Lemma lt_not_ge (a b : number) :
  a <> NaN -> b <> NaN -> JsNumber.lt a b = negb (JsNumber.ge a b).
Proof.
  destruct a as [|[|]|x], b as [|[|]|y]; cbn [JsNumber.ge JsNumber.lt negb]; intros Ha Hb;
    congruence.
Qed.

Lemma strictEq_ge (a b : number) :
  a <> NaN -> b <> NaN ->
  JsNumber.strictEq a b = JsNumber.ge a b && JsNumber.ge b a.
Proof.
  destruct a as [|[|]|x], b as [|[|]|y];
    cbn [JsNumber.ge JsNumber.strictEq Bool.eqb andb]; intros Ha Hb; try congruence.
  apply eq_true_iff_eq. rewrite andb_true_iff, Qeq_bool_iff, !Qle_bool_iff.
  split; [intros H; split; rewrite H; apply Qle_refl | intros [H1 H2]; apply Qle_antisym; assumption].
Qed.

(** The sign of a difference. *)
Lemma gt_sub_zero (a b : number) :
  a <> NaN -> b <> NaN ->
  JsNumber.gt (JsNumber.sub b a) JsNumber.zero = JsNumber.lt a b.
Proof.
  destruct a as [|[|]|x], b as [|[|]|y];
    cbn [JsNumber.gt JsNumber.lt JsNumber.sub JsNumber.zero JsNumber.ofZ Bool.eqb negb];
    intros Ha Hb; try congruence.
  f_equal. apply eq_true_iff_eq. rewrite !Qle_bool_iff, Qred_correct.
  change (inject_Z 0) with 0%Q. split; intros H; lra.
Qed.

Lemma number_or_zero_not_NaN (n : number) : JsNumber.or n JsNumber.zero <> NaN.
Proof.
  unfold JsNumber.or. destruct n as [| |q]; cbn; [discriminate | discriminate|].
  destruct (negb _); discriminate.
Qed.

Lemma startsWith_same_length (a b : jsstring) :
  length a = length b -> startsWith a b = true -> a = b.
Proof.
  revert b. induction a as [|x a IH]; intros [|y b] Hlen H; simpl in *; try congruence.
  apply andb_true_iff in H as [Hxy Hab]. apply N.eqb_eq in Hxy. subst y.
  f_equal. apply IH; [lia | exact Hab].
Qed.

Lemma startsWith_refl (a : jsstring) : startsWith a a = true.
Proof. induction a as [|x a IH]; simpl; [reflexivity|]. rewrite N.eqb_refl. exact IH. Qed.

Lemma eqb_eq (a b : jsstring) : JsString.eqb a b = true <-> a = b.
Proof.
  unfold JsString.eqb. split.
  - intros H. apply andb_true_iff in H as [Hl Hs]. apply Nat.eqb_eq in Hl.
    apply startsWith_same_length; assumption.
  - intros ->. rewrite Nat.eqb_refl, startsWith_refl. reflexivity.
Qed.

Lemma truthy_nonempty (s : jsstring) : JsString.truthy s = true <-> s <> [].
Proof. destruct s; simpl; split; congruence. Qed.

Lemma or_nonempty (a b : jsstring) : a <> [] -> JsString.or a b = a.
Proof. unfold JsString.or. destruct a; simpl; congruence. Qed.

Lemma or_empty_r (a : jsstring) : JsString.or a [] = a.
Proof. destruct a; reflexivity. Qed.

(** ** C1: precedence of the merge *)

(** C1.  For every candidate and detail record, the merged rating and review
    count are the detail value when it is strictly positive and the
    candidate's value otherwise; the category is the candidate's when it is
    non-empty and not "Unknown", else the detail category, "Unknown" when
    that is empty; the budget is the candidate's when non-empty, else the
    detail budget (which may be empty); the review snippet is the
    candidate's. *)
Theorem mergedResult_precedence (target : Candidate.t) (details : Details.t) :
  let m := mergedResult target details in
  (positive (Details.detailRating details) ->
     Merged.rating m = Details.detailRating details)
  /\ (~ positive (Details.detailRating details) ->
     Merged.rating m = Candidate.rating target)
  /\ (positive (Details.detailReviews details) ->
     Merged.reviews m = Details.detailReviews details)
  /\ (~ positive (Details.detailReviews details) ->
     Merged.reviews m = Candidate.reviews target)
  /\ (Candidate.category target <> [] -> Candidate.category target <> js "Unknown" ->
     Merged.category m = Candidate.category target)
  /\ (Candidate.category target = [] \/ Candidate.category target = js "Unknown" ->
     Merged.category m
     = match Details.category details with
       | [] => js "Unknown"
       | _ => Details.category details
       end)
  /\ (Candidate.budget target <> [] -> Merged.budget m = Candidate.budget target)
  /\ (Candidate.budget target = [] -> Merged.budget m = Details.budget details)
  /\ Merged.review m = Candidate.review target.
Proof.
  cbn zeta. unfold mergedResult; cbn [Merged.rating Merged.reviews Merged.category
    Merged.budget Merged.review].
  repeat split.
  - intros H. apply gt_zero_positive in H. rewrite H. reflexivity.
  - intros H. apply gt_zero_not_positive in H. rewrite H. reflexivity.
  - intros H. apply gt_zero_positive in H. rewrite H. reflexivity.
  - intros H. apply gt_zero_not_positive in H. rewrite H. reflexivity.
  - intros Hne Hunk. apply truthy_nonempty in Hne. rewrite Hne.
    destruct (JsString.eqb (Candidate.category target) (js "Unknown")) eqn:E.
    + apply eqb_eq in E. contradiction.
    + reflexivity.
  - intros [He | Hu].
    + rewrite He. cbn. destruct (Details.category details); reflexivity.
    + rewrite Hu. replace (JsString.eqb (js "Unknown") (js "Unknown")) with true
        by (symmetry; apply eqb_eq; reflexivity).
      rewrite andb_false_r. destruct (Details.category details); reflexivity.
  - intros Hne. rewrite (or_nonempty _ _ Hne). apply or_nonempty. exact Hne.
  - intros ->. cbn. apply or_empty_r.
  - apply or_empty_r.
Qed.

Lemma mergedResult_precedence_witness :
  Merged.rating (mergedResult unratedCandidate sampleDetails) = Fin (43 # 10)
  /\ Merged.reviews (mergedResult unratedCandidate sampleDetails) = JsNumber.ofZ 35
  /\ Merged.category (mergedResult unratedCandidate sampleDetails) = js "カフェ"
  /\ Merged.budget (mergedResult unratedCandidate sampleDetails) = js "￥2,000～3,000".
Proof.
  destruct (mergedResult_precedence unratedCandidate sampleDetails)
    as (Hr & _ & _ & Hv & _ & Hc & _ & Hb & _).
  split; [|split; [|split]].
  - apply Hr. reflexivity.
  - apply Hv. intros Hpos. discriminate Hpos.
  - apply Hc. right. reflexivity.
  - apply Hb. reflexivity.
Defined.

(** ** Reading a count back with [parseInt] *)

Lemma printsPlain_whole (z : Z) :
  (Z.abs z < 10 ^ 21)%Z -> JsNumber.printsPlain (inject_Z z) = true.
Proof.
  intros Hz. unfold JsNumber.printsPlain.
  destruct (Z.eq_dec z 0%Z) as [-> | Hne]; [reflexivity|].
  apply orb_true_iff. right. apply andb_true_iff. split.
  - apply Qle_bool_iff. unfold Qle, inject_Z, Qabs. cbn [Qnum Qden]. lia.
  - apply negb_true_iff. destruct (Qle_bool _ _) eqn:E; [|reflexivity].
    apply Qle_bool_iff in E. unfold Qle, inject_Z, Qabs in E. cbn [Qnum Qden] in E. lia.
Qed.

Section ReadBack.

Context {host : Host}.

(** A whole number below 1e21 is printed in plain digits and read back
    as itself. *)
Lemma parseIntNum_whole (z : Z) :
  (Z.abs z < 10 ^ 21)%Z -> JsNumber.parseIntNum (JsNumber.ofZ z) = JsNumber.ofZ z.
Proof.
  intros Hz. unfold JsNumber.parseIntNum, JsNumber.ofZ.
  rewrite (printsPlain_whole z Hz). cbn [inject_Z Qnum Qden]. rewrite Z.quot_1_r. reflexivity.
Qed.

Lemma or_zero_whole (z : Z) :
  JsNumber.or (JsNumber.ofZ z) JsNumber.zero = JsNumber.ofZ z.
Proof.
  unfold JsNumber.or, JsNumber.truthy, JsNumber.ofZ.
  destruct (Qeq_bool (inject_Z z) 0) eqn:E; [|reflexivity]. cbn [negb].
  apply Qeq_bool_iff in E. unfold Qeq, inject_Z in E. cbn [Qnum Qden] in E.
  replace z with 0%Z by lia. reflexivity.
Qed.

(** [parseInt(n) || 0] for a whole number below 1e21: the number. *)
Lemma count_read_whole (z : Z) :
  (Z.abs z < 10 ^ 21)%Z ->
  JsNumber.or (JsNumber.parseIntNum (JsNumber.ofZ z)) JsNumber.zero = JsNumber.ofZ z.
Proof. intros Hz. rewrite (parseIntNum_whole z Hz). apply or_zero_whole. Qed.

End ReadBack.

Lemma gt_zero_whole (z : Z) :
  JsNumber.gt (JsNumber.ofZ z) JsNumber.zero = true <-> (0 < z)%Z.
Proof.
  unfold JsNumber.gt, JsNumber.zero, JsNumber.ofZ. rewrite lt_Fin, <- Zlt_Qlt. reflexivity.
Qed.

(** ** C2: the pre-filter on rating and review count *)

Section PreFilterFacts.

Context {host : Host}.

Lemma or_zero_zero : JsNumber.or JsNumber.zero JsNumber.zero = JsNumber.zero.
Proof. reflexivity. Qed.

Lemma lt_zero_positive (n : number) :
  positive n -> JsNumber.lt JsNumber.zero n = true.
Proof. intros H. apply gt_zero_positive in H. exact H. Qed.

(** C2 (as the code has it).  A candidate whose rating is unknown (0) is
    rejected on the rating criterion by every rating minimum above 0: the
    rating test has no "known" guard.  On the review count the guard is
    there: a candidate whose count is a whole number below 1e21 leaves
    by the review counter only when the count is above 0 and below a
    minimum that is above 0, and a candidate whose count is unknown (0 or
    NaN) never leaves by it. *)
Theorem preFilter_unknown_rating_rejected
    (c : Candidate.t) (minRating minReviews : number) (filters : Filters.t) :
  (Candidate.rating c = JsNumber.zero -> positive minRating ->
     preFilter c minRating minReviews filters = OutRating)
  /\ (forall z : Z,
        Candidate.reviews c = JsNumber.ofZ z -> (0 <= z < 10 ^ 21)%Z ->
        preFilter c minRating minReviews filters = OutReviews ->
        positive minReviews /\ (0 < z)%Z
        /\ JsNumber.lt (Candidate.reviews c) minReviews = true)
  /\ (Candidate.reviews c = JsNumber.zero \/ Candidate.reviews c = NaN ->
      preFilter c minRating minReviews filters <> OutReviews).
Proof.
  split; [|split].
  - intros Hr Hmin. unfold preFilter. rewrite Hr.
    unfold JsNumber.parseFloatNum. rewrite or_zero_zero.
    replace (JsNumber.gt minRating JsNumber.zero) with true
      by (symmetry; apply gt_zero_positive; exact Hmin).
    rewrite (lt_zero_positive _ Hmin). reflexivity.
  - intros z Hrev Hz. unfold preFilter. cbn zeta. rewrite Hrev.
    rewrite count_read_whole by lia.
    destruct (JsNumber.gt minRating JsNumber.zero && _); [discriminate|].
    destruct (JsNumber.gt minReviews JsNumber.zero) eqn:E1; cbn [andb].
    + destruct (JsNumber.gt (JsNumber.ofZ z) JsNumber.zero) eqn:E2; cbn [andb].
      * destruct (JsNumber.lt (JsNumber.ofZ z) minReviews) eqn:E3.
        -- intros _. split; [|split]; [apply gt_zero_positive, E1
                                      | apply gt_zero_whole, E2 | reflexivity].
        -- destruct (preFilterCategory c filters); [discriminate|].
           destruct (preFilterBudget c filters); discriminate.
      * destruct (preFilterCategory c filters); [discriminate|].
        destruct (preFilterBudget c filters); discriminate.
    + destruct (preFilterCategory c filters); [discriminate|].
      destruct (preFilterBudget c filters); discriminate.
  - intros Hrev. unfold preFilter. cbn zeta.
    replace (JsNumber.or (JsNumber.parseIntNum (Candidate.reviews c)) JsNumber.zero)
      with JsNumber.zero by (destruct Hrev as [-> | ->]; reflexivity).
    replace (JsNumber.gt JsNumber.zero JsNumber.zero) with false by reflexivity.
    rewrite andb_false_r. cbn [andb].
    destruct (JsNumber.gt minRating JsNumber.zero && _); [discriminate|].
    destruct (preFilterCategory c filters); [discriminate|].
    destruct (preFilterBudget c filters); discriminate.
Qed.

End PreFilterFacts.

(** C2 as stated fails: rating 0, minimum 4.0, and the candidate leaves
    the loop through the rating counter. *)
Lemma preFilter_unknown_rating_counterexample :
  Candidate.rating unratedCandidate = JsNumber.zero
  /\ positive (JsNumber.ofZ 4)
  /\ @preFilter sampleHost unratedCandidate (JsNumber.ofZ 4) JsNumber.zero noFilters
     = OutRating.
Proof. split; [reflexivity|]. split; reflexivity. Qed.

Lemma preFilter_unknown_rating_rejected_witness :
  @preFilter sampleHost unratedCandidate (JsNumber.ofZ 4) JsNumber.zero noFilters
  = OutRating
  /\ (@preFilter sampleHost repeatedCandidate JsNumber.zero (JsNumber.ofZ 50) noFilters
      = OutReviews ->
      positive (JsNumber.ofZ 50) /\ (0 < 12)%Z
      /\ JsNumber.lt (Candidate.reviews repeatedCandidate) (JsNumber.ofZ 50) = true).
Proof.
  split.
  - apply (@preFilter_unknown_rating_rejected sampleHost unratedCandidate
             (JsNumber.ofZ 4) JsNumber.zero noFilters); reflexivity.
  - apply (proj1 (proj2 (@preFilter_unknown_rating_rejected sampleHost repeatedCandidate
                           JsNumber.zero (JsNumber.ofZ 50) noFilters)) 12%Z);
      [reflexivity | lia].
Defined.

(** ** C5: windows that span midnight *)

Lemma isOpen_wrap (open close target : Q) :
  (close <= open)%Q ->
  isOpen (Fin open) (Fin close) (Fin target) = true
  <-> (open <= target)%Q \/ (target < close)%Q.
Proof.
  intros Hle. unfold isOpen.
  replace (JsNumber.gt (Fin close) (Fin open)) with false.
  - rewrite orb_true_iff, ge_Fin, lt_Fin. reflexivity.
  - symmetry. unfold JsNumber.gt. destruct (JsNumber.lt (Fin open) (Fin close)) eqn:E;
      [|reflexivity].
    apply lt_Fin in E. exfalso. exact (Qlt_not_le _ _ E Hle).
Qed.

Lemma isOpen_plain (open close target : Q) :
  (open < close)%Q ->
  isOpen (Fin open) (Fin close) (Fin target) = true
  <-> (open <= target)%Q /\ (target < close)%Q.
Proof.
  intros Hlt. unfold isOpen.
  replace (JsNumber.gt (Fin close) (Fin open)) with true
    by (symmetry; apply lt_Fin; exact Hlt).
  rewrite andb_true_iff, ge_Fin, lt_Fin. reflexivity.
Qed.

(** C5.  With the text "月: 18時00分～5時00分" and the days ["月曜日"], the
    check passes at "23:00" and fails at "10:00".  In general, for a
    segment of a configured day whose window closes at or before its
    opening minute, the loop finds the target open exactly when
    target >= open or target < close (minutes since midnight). *)
Theorem checkOpenAtTime_midnight_wrap :
  (passed (checkOpenAtTime mondayNight (js "23:00") [js "月曜日"]) = true
   /\ passed (checkOpenAtTime mondayNight (js "10:00") [js "月曜日"]) = false)
  /\ forall (segment : jsstring) (targetDays : list jsstring)
            (colonIndex : nat) (open close target : Q),
       indexOf (js ":") segment = Some colonIndex ->
       (targetDays = []
        \/ existsb (fun d => includes (substring segment 0 colonIndex) d)
                   (map dayShort targetDays) = true) ->
       parseBusinessTime (substringFrom segment (colonIndex + 1))
       = Some (Fin open, Fin close) ->
       (close <= open)%Q ->
       foundMatch [segment] (Fin target) targetDays = true
       <-> (open <= target)%Q \/ (target < close)%Q.
Proof.
  split.
  - split; vm_compute; reflexivity.
  - intros segment targetDays colonIndex open close target Hcolon Hday Hparse Hwrap.
    rewrite <- (isOpen_wrap open close target Hwrap).
    cbn [foundMatch]. unfold segmentOpen. rewrite Hcolon.
    assert (Hm : match targetDays with
                 | [] => true
                 | _ => existsb (fun d => includes (substring segment 0 colonIndex) d)
                                (map dayShort targetDays)
                 end = true).
    { destruct Hday as [-> | Hd]; [reflexivity|]. destruct targetDays; [reflexivity|exact Hd]. }
    rewrite Hm. cbn [negb]. rewrite Hparse.
    destruct (isOpen (Fin open) (Fin close) (Fin target)); split; congruence.
Qed.

Lemma checkOpenAtTime_midnight_wrap_witness :
  foundMatch [mondayNight] (Fin (inject_Z 1380)) [js "月曜日"] = true
  <-> (inject_Z 1080 <= inject_Z 1380)%Q \/ (inject_Z 1380 < inject_Z 300)%Q.
Proof.
  apply (proj2 checkOpenAtTime_midnight_wrap mondayNight [js "月曜日"] 1
           (inject_Z 1080) (inject_Z 300) (inject_Z 1380)).
  - vm_compute. reflexivity.
  - right. vm_compute. reflexivity.
  - vm_compute. reflexivity.
  - vm_compute. discriminate.
Defined.

(** ** C6 and C7: the post-filter *)

Lemma app_nonempty_l (a b : jsstring) : a <> [] -> a ++ b <> [].
Proof. destruct a; simpl; congruence. Qed.

Lemma app_nonempty_r (a b : jsstring) : b <> [] -> a ++ b <> [].
Proof. destruct a, b; simpl; congruence. Qed.

(** A literal is not the empty string. *)
Ltac literal_nonempty :=
  apply app_nonempty_l; apply truthy_nonempty; vm_compute; reflexivity.

(** A check either falls through or returns a failure with a reason. *)
Definition rejection (c : option FilterOutcome) : Prop :=
  forall o, c = Some o -> passed o = false /\ reason o <> [].

Lemma rejection_None : rejection None.
Proof. intros o H. discriminate H. Qed.

Lemma rejection_fail (r : jsstring) : r <> [] -> rejection (Some (fail r)).
Proof. intros Hr o H. injection H as <-. split; [reflexivity | exact Hr]. Qed.

(** Closes a branch of a check: fall through, or fail with a literal. *)
Ltac branch_done :=
  first [ apply rejection_None | apply rejection_fail; literal_nonempty ].

Lemma checkOpenAtTime_reason (businessHours targetTime : jsstring) (targetDays : list jsstring) :
  passed (checkOpenAtTime businessHours targetTime targetDays) = false ->
  reason (checkOpenAtTime businessHours targetTime targetDays) <> [].
Proof.
  unfold checkOpenAtTime. destruct (parseTime targetTime); [|discriminate].
  destruct (negb (foundMatch _ _ _)); [|discriminate].
  intros _. cbn [reason fail]. apply app_nonempty_r.
  apply truthy_nonempty. vm_compute. reflexivity.
Qed.

Section PostFilterFacts.

Context {host : Host}.

Lemma checkReviews_rejection item minReviews : rejection (checkReviews item minReviews).
Proof.
  unfold checkReviews. destruct (JsNumber.gt minReviews JsNumber.zero); [|branch_done].
  cbn zeta. destruct (JsNumber.lt _ minReviews); branch_done.
Qed.

Lemma checkAddress_rejection item filters : rejection (checkAddress item filters).
Proof.
  unfold checkAddress. destruct (JsString.truthy (Filters.address filters)); [|branch_done].
  cbn zeta. destruct (addressKeywordsOf _); [branch_done|].
  destruct (negb _); branch_done.
Qed.

Lemma checkCategory_rejection item filters : rejection (checkCategory item filters).
Proof.
  unfold checkCategory. destruct (JsString.truthy (Filters.category filters)); [|branch_done].
  cbn zeta. destruct (categoryKeywordsOf _); [branch_done|].
  destruct (negb _); branch_done.
Qed.

Lemma checkBudget_rejection item filters : rejection (checkBudget item filters).
Proof.
  unfold checkBudget. destruct (notNull _ || notNull _); [|branch_done].
  cbn zeta. destruct (JsString.truthy _); [|branch_done].
  destruct (exec rePrice _); [|branch_done].
  destruct (below _ _); [branch_done|].
  destruct (above _ _); branch_done.
Qed.

Lemma checkDays_rejection item filters : rejection (checkDays item filters).
Proof.
  unfold checkDays. destruct (Filters.days filters); [branch_done|].
  cbn zeta. destruct (JsString.truthy _); [|branch_done].
  destruct (negb _); branch_done.
Qed.

Lemma checkHours_rejection item filters : rejection (checkHours item filters).
Proof.
  unfold checkHours. destruct (JsString.truthy (Filters.hours filters)); [|branch_done].
  cbn zeta. destruct (JsString.truthy _); [|branch_done].
  destruct (negb _) eqn:E; [|branch_done].
  apply rejection_fail. apply checkOpenAtTime_reason.
  apply negb_true_iff. exact E.
Qed.

Lemma orReturn_reason (c : option FilterOutcome) (rest : FilterOutcome) :
  rejection c ->
  (passed rest = false -> reason rest <> []) ->
  passed (c >>> rest) = false -> reason (c >>> rest) <> [].
Proof.
  intros Hc Hrest. destruct c as [o|]; cbn [orReturn]; [|exact Hrest].
  intros _. apply (Hc o eq_refl).
Qed.

Lemma orReturn_fails (c : option FilterOutcome) (rest : FilterOutcome) :
  rejection c -> passed rest = false -> passed (c >>> rest) = false.
Proof.
  intros Hc Hrest. destruct c as [o|]; cbn [orReturn]; [|exact Hrest].
  apply (Hc o eq_refl).
Qed.

(** C7.  [checkFilters] is a total function into [FilterOutcome] (none of
    the operations it applies to its typed arguments can throw), and an
    outcome that did not pass carries a non-empty reason. *)
Theorem checkFilters_total_with_reason
    (item : Merged.t) (minReviews : number) (filters : Filters.t) :
  exists o : FilterOutcome,
    checkFilters item minReviews filters = o
    /\ (passed o = false -> reason o <> []).
Proof.
  eexists. split; [reflexivity|]. unfold checkFilters.
  apply orReturn_reason; [apply checkReviews_rejection|].
  apply orReturn_reason; [apply checkAddress_rejection|].
  apply orReturn_reason; [apply checkCategory_rejection|].
  apply orReturn_reason; [apply checkBudget_rejection|].
  apply orReturn_reason; [apply checkDays_rejection|].
  apply orReturn_reason; [apply checkHours_rejection|].
  discriminate.
Qed.

(** The closed markers the day loop looks for in the lower-cased text. *)
Definition closedMarker (hours : jsstring) : bool :=
  includes (toLowerCase hours) (js "定休") || includes (toLowerCase hours) (js "休み").

(** A configured day found open in the text: its token is present and
    the text carries no closed marker. *)
Definition dayFoundOpen (hours day : jsstring) : bool :=
  includes hours (dayShort day) && negb (closedMarker hours).

Lemma foundOpenDay_existsb (hours : jsstring) (days : list jsstring) :
  foundOpenDay (toLowerCase hours) hours days = existsb (dayFoundOpen hours) days.
Proof.
  induction days as [|day rest IH]; [reflexivity|].
  cbn [foundOpenDay existsb]. rewrite IH.
  replace (dayFoundOpen hours day)
    with (includes hours (dayShort day) && negb (closedMarker hours)) by reflexivity.
  unfold closedMarker.
  destruct (includes (toLowerCase hours) (js "定休") || includes (toLowerCase hours) (js "休み"));
    destruct (includes hours (dayShort day)); reflexivity.
Qed.

(** Filters with the configured days removed. *)
Definition withoutDays (filters : Filters.t) : Filters.t :=
  Filters.mk (Filters.address filters) (Filters.category filters)
             (Filters.budgetMin filters) (Filters.budgetMax filters) []
             (Filters.hours filters) (Filters.maxItems filters).

(** C6 (as the code has it).  With days configured and a non-empty
    business-hours text, an item none of whose configured days is found
    open is rejected.  An item without business-hours text is not
    subjected to the day check: the check falls through, and the outcome
    of the post-filter is the one it has with no day configured. *)
Theorem checkFilters_no_open_day
    (item : Merged.t) (minReviews : number) (filters : Filters.t) :
  (Filters.days filters <> [] ->
   Merged.businessHours item <> [] ->
   (forall day, In day (Filters.days filters) ->
      dayFoundOpen (Merged.businessHours item) day = false) ->
   passed (checkFilters item minReviews filters) = false)
  /\ (Merged.businessHours item = [] ->
      checkDays item filters = None
      /\ checkFilters item minReviews filters
         = checkFilters item minReviews (withoutDays filters)).
Proof.
  split.
  - intros Hdays Hhours Hnone. unfold checkFilters.
    apply orReturn_fails; [apply checkReviews_rejection|].
    apply orReturn_fails; [apply checkAddress_rejection|].
    apply orReturn_fails; [apply checkCategory_rejection|].
    apply orReturn_fails; [apply checkBudget_rejection|].
    unfold checkDays. destruct (Filters.days filters) as [|d ds] eqn:Ed; [congruence|].
    cbn zeta. rewrite (or_empty_r (Merged.businessHours item)).
    apply truthy_nonempty in Hhours. rewrite Hhours.
    rewrite foundOpenDay_existsb.
    replace (existsb (dayFoundOpen (Merged.businessHours item)) (d :: ds)) with false.
    + reflexivity.
    + symmetry. apply not_true_is_false. intros Hex.
      apply existsb_exists in Hex as (day & Hin & Hopen).
      rewrite (Hnone day Hin) in Hopen. discriminate Hopen.
  - intros Hh.
    assert (Ed : forall f, checkDays item f = None).
    { intros f. unfold checkDays. rewrite Hh. destruct (Filters.days f); reflexivity. }
    assert (Eh : forall f, checkHours item f = None).
    { intros f. unfold checkHours. rewrite Hh.
      destruct (JsString.truthy (Filters.hours f)); reflexivity. }
    split; [apply Ed|]. unfold checkFilters. rewrite !Ed, !Eh. reflexivity.
Qed.

End PostFilterFacts.

(** C6 as stated fails: days are configured, no configured day appears in
    the (empty) business-hours text, and the item passes. *)
Lemma checkFilters_no_hours_counterexample :
  Filters.days mondayFilters <> []
  /\ (forall day, In day (Filters.days mondayFilters) ->
        @dayFoundOpen sampleHost (Merged.businessHours noHoursItem) day = false)
  /\ passed (@checkFilters sampleHost noHoursItem JsNumber.zero mondayFilters) = true.
Proof.
  split; [discriminate|]. split; [|vm_compute; reflexivity].
  intros day [<- | []]. vm_compute. reflexivity.
Qed.

Lemma checkFilters_no_open_day_witness :
  passed (@checkFilters sampleHost tuesdayItem JsNumber.zero mondayFilters) = false
  /\ @checkFilters sampleHost noHoursItem JsNumber.zero mondayFilters
     = @checkFilters sampleHost noHoursItem JsNumber.zero (withoutDays mondayFilters).
Proof.
  split.
  - apply (@checkFilters_no_open_day sampleHost tuesdayItem JsNumber.zero mondayFilters).
    + discriminate.
    + vm_compute. discriminate.
    + intros day [<- | []]. vm_compute. reflexivity.
  - apply (@checkFilters_no_open_day sampleHost noHoursItem JsNumber.zero mondayFilters).
    reflexivity.
Defined.

Lemma checkFilters_total_with_reason_witness :
  reason (@checkFilters sampleHost tuesdayItem JsNumber.zero mondayFilters) <> [].
Proof.
  destruct (@checkFilters_total_with_reason sampleHost tuesdayItem JsNumber.zero mondayFilters)
    as (o & Ho & Hreason).
  rewrite Ho. apply Hreason. rewrite <- Ho. vm_compute. reflexivity.
Defined.

(** ** C4: one record per url, the first one met *)

(** [urlMap] holds exactly the urls of [unique]. *)
Definition tracks (urlMap : gmap jsstring bool) (unique : list Candidate.t) : Prop :=
  forall u, is_Some (urlMap !! u) <-> In u (map Candidate.url unique).

Lemma tracks_empty : tracks ∅ [].
Proof.
  intros u. rewrite lookup_empty. split.
  - intros [x Hx]. discriminate Hx.
  - intros [].
Qed.

Lemma tracks_insert urlMap unique item :
  tracks urlMap unique ->
  tracks (<[Candidate.url item := true]> urlMap) (unique ++ [item]).
Proof.
  intros Ht u. rewrite map_app, in_app_iff. cbn [map In]. rewrite <- (Ht u).
  destruct (decide (Candidate.url item = u)) as [-> | Hne].
  - rewrite lookup_insert_eq. split; [intros _; right; left; reflexivity | eauto].
  - rewrite lookup_insert_ne by exact Hne. split; [tauto | intros [H | [H | []]]; [exact H | contradiction]].
Qed.

Lemma NoDup_snoc (l : list jsstring) (x : jsstring) :
  List.NoDup l -> ~ In x l -> List.NoDup (l ++ [x]).
Proof.
  intros Hl Hx. induction Hl as [|y l Hy Hl IH]; cbn.
  - constructor; [intros [] | constructor].
  - constructor.
    + rewrite in_app_iff. cbn.
      intros [H | [H | []]]; [contradiction|]. subst y. apply Hx. left. reflexivity.
    + apply IH. intros H. apply Hx. right. exact H.
Qed.

Lemma uniqueLoop_spec (results : list Candidate.t) :
  forall (unique : list Candidate.t) (urlMap : gmap jsstring bool),
    tracks urlMap unique ->
    List.NoDup (map Candidate.url unique) ->
    let r := fst (uniqueLoop results unique urlMap) in
    List.NoDup (map Candidate.url r)
    /\ (forall u, In u (map Candidate.url r)
                  <-> In u (map Candidate.url unique) \/ In u (map Candidate.url results))
    /\ exists added,
         r = unique ++ added
         /\ forall item, In item added ->
              exists before after,
                results = before ++ item :: after
                /\ ~ In (Candidate.url item) (map Candidate.url before)
                /\ ~ In (Candidate.url item) (map Candidate.url unique).
Proof.
  induction results as [|item rest IH]; intros unique urlMap Ht Hnd; cbn zeta.
  - cbn. split; [exact Hnd|]. split; [tauto|].
    exists []. rewrite app_nil_r. split; [reflexivity | intros ? []].
  - cbn [uniqueLoop]. destruct (urlMap !! Candidate.url item) as [b|] eqn:Hlook.
    + assert (Hseen : In (Candidate.url item) (map Candidate.url unique))
        by (apply Ht; eauto).
      destruct (IH unique urlMap Ht Hnd) as (Hnd' & Hmem & added & Hr & Hfirst).
      split; [exact Hnd'|]. split.
      * intros u. rewrite Hmem. cbn [map In]. split; [tauto|].
        intros [H | [<- | H]]; tauto.
      * exists added. split; [exact Hr|]. intros x Hx.
        destruct (Hfirst x Hx) as (before & after & -> & Hb & Hu).
        exists (item :: before), after. split; [reflexivity|]. split; [|exact Hu].
        cbn [map In]. intros [Heq | H]; [|contradiction]. apply Hu. rewrite <- Heq. exact Hseen.
    + assert (Hnew : ~ In (Candidate.url item) (map Candidate.url unique)).
      { intros H. apply Ht in H as [x Hx]. congruence. }
      assert (Hnd1 : List.NoDup (map Candidate.url (unique ++ [item]))).
      { rewrite map_app. apply NoDup_snoc; assumption. }
      destruct (IH (unique ++ [item]) _ (tracks_insert _ _ item Ht) Hnd1)
        as (Hnd' & Hmem & added & Hr & Hfirst).
      split; [exact Hnd'|]. split.
      * intros u. rewrite Hmem, map_app, in_app_iff. cbn [map In]. tauto.
      * exists (item :: added). split; [rewrite Hr, <- app_assoc; reflexivity|].
        intros x [<- | Hx].
        -- exists [], rest. split; [reflexivity|]. split; [intros [] | exact Hnew].
        -- destruct (Hfirst x Hx) as (before & after & -> & Hb & Hu).
           rewrite map_app, in_app_iff in Hu. cbn [map In] in Hu.
           exists (item :: before), after. split; [reflexivity|]. split; [|tauto].
           cbn [map In]. intros [Heq | H]; [|contradiction]. apply Hu. right. left. exact Heq.
Qed.

(** C4.  Whatever list of items the extraction loop produced, the list
    [extractBasicList] returns has no url twice, has exactly the urls of
    the items, and each of its records is the first item of that url. *)
Theorem uniqueByUrl_first_occurrence (results : list Candidate.t) :
  List.NoDup (map Candidate.url (uniqueByUrl results))
  /\ (forall u, In u (map Candidate.url (uniqueByUrl results))
                <-> In u (map Candidate.url results))
  /\ (forall item, In item (uniqueByUrl results) ->
        exists before after,
          results = before ++ item :: after
          /\ ~ In (Candidate.url item) (map Candidate.url before)).
Proof.
  destruct (uniqueLoop_spec results [] ∅ tracks_empty (List.NoDup_nil _))
    as (Hnd & Hmem & added & Hr & Hfirst).
  fold (uniqueByUrl results) in Hnd, Hmem, Hr.
  split; [exact Hnd|]. split.
  - intros u. rewrite Hmem. cbn. tauto.
  - intros item Hin. rewrite Hr in Hin. cbn in Hin.
    destruct (Hfirst item Hin) as (before & after & H1 & H2 & _). eauto.
Qed.

Lemma uniqueByUrl_first_occurrence_witness :
  uniqueByUrl feedWithRepeat = [unratedCandidate; ratedCandidate]
  /\ exists before after,
       feedWithRepeat = before ++ unratedCandidate :: after
       /\ ~ In (Candidate.url unratedCandidate) (map Candidate.url before).
Proof.
  assert (E : uniqueByUrl feedWithRepeat = [unratedCandidate; ratedCandidate])
    by (vm_compute; reflexivity).
  split; [exact E|].
  apply (proj2 (proj2 (uniqueByUrl_first_occurrence feedWithRepeat))).
  rewrite E. left. reflexivity.
Defined.

(** ** C8: three attempts, then the last error *)

Section RetryFacts.

Context {World Res Err : Type}.
Variable fn : World -> World * (Thrown Err + Res).
Variable waitForTimeout : Z -> World -> World.



End RetryFacts.


(** ** C9: the ranking *)

Section ArraySortFacts.

Context {A : Type} (comparefn : A -> A -> number).

(** [x] has to go behind [y]. *)
Definition behind (x y : A) : Prop :=
  JsNumber.gt (comparefn x y) JsNumber.zero = true.

Lemma insertSorted_perm (x : A) (l : list A) :
  Permutation (x :: l) (insertSorted comparefn x l).
Proof.
  induction l as [|y l IH]; cbn [insertSorted]; [reflexivity|].
  destruct (JsNumber.gt (comparefn x y) JsNumber.zero); [|reflexivity].
  rewrite perm_swap. apply perm_skip. exact IH.
Qed.

Lemma arraySort_perm (l : list A) : Permutation l (arraySort comparefn l).
Proof.
  induction l as [|x l IH]; cbn [arraySort]; [reflexivity|].
  rewrite <- insertSorted_perm. apply perm_skip. exact IH.
Qed.

Section Order.

Variable R : A -> A -> Prop.
Hypothesis R_behind : forall x y, behind x y -> R y x.
Hypothesis R_stay : forall x y, ~ behind x y -> R x y.
Hypothesis R_trans : forall x y z, R x y -> R y z -> R x z.

Lemma insertSorted_sorted (x : A) (l : list A) :
  StronglySorted R l -> StronglySorted R (insertSorted comparefn x l).
Proof.
  induction l as [|y l IH]; intros Hs; cbn [insertSorted].
  - constructor; constructor.
  - apply StronglySorted_inv in Hs as [Hl Hy].
    destruct (JsNumber.gt (comparefn x y) JsNumber.zero) eqn:E.
    + constructor; [apply IH; exact Hl|].
      apply (Permutation_Forall (insertSorted_perm x l)).
      constructor; [apply R_behind; exact E | exact Hy].
    + assert (Hxy : R x y) by (apply R_stay; unfold behind; congruence).
      constructor; [constructor; assumption|].
      constructor; [exact Hxy|].
      apply (List.Forall_impl _ (fun z Hz => R_trans _ _ _ Hxy Hz) Hy).
Qed.

Lemma arraySort_sorted (l : list A) : StronglySorted R (arraySort comparefn l).
Proof.
  induction l as [|x l IH]; cbn [arraySort]; [constructor|].
  apply insertSorted_sorted. exact IH.
Qed.

End Order.

Section Stability.

(** Elements of one class [tie], among the elements that satisfy [P],
    are never moved past each other. *)
Variable tie : A -> bool.
Variable P : A -> Prop.
Hypothesis tie_not_behind :
  forall x y, P x -> P y -> behind x y -> tie x = true -> tie y = false.

Lemma insertSorted_filter (x : A) (l : list A) :
  P x -> List.Forall P l ->
  List.filter tie (insertSorted comparefn x l) = List.filter tie (x :: l).
Proof.
  intros Hx Hl. induction Hl as [|y l Hy Hl IH]; cbn [insertSorted]; [reflexivity|].
  destruct (JsNumber.gt (comparefn x y) JsNumber.zero) eqn:E; [|reflexivity].
  cbn [List.filter]. rewrite IH. cbn [List.filter].
  destruct (tie x) eqn:Ex; [|reflexivity].
  rewrite (tie_not_behind x y Hx Hy E Ex). reflexivity.
Qed.

Lemma arraySort_filter (l : list A) :
  List.Forall P l ->
  List.filter tie (arraySort comparefn l) = List.filter tie l.
Proof.
  intros Hl. induction Hl as [|x l Hx Hl IH]; cbn [arraySort]; [reflexivity|].
  rewrite insertSorted_filter;
    [| exact Hx | apply (Permutation_Forall (arraySort_perm l)), Hl].
  cbn [List.filter]. rewrite IH. reflexivity.
Qed.

End Stability.

End ArraySortFacts.

Section RankingFacts.

Context {host : Host}.

Lemma ratingKey_not_NaN (a : Merged.t) : ratingKey a <> NaN.
Proof. apply number_or_zero_not_NaN. Qed.

Lemma reviewsKey_not_NaN (a : Merged.t) : reviewsKey a <> NaN.
Proof. apply number_or_zero_not_NaN. Qed.

(** [a] may stand before [b] by the keys the comparator reads: its
    rating key is at least that of [b], and when the two rating keys are
    equal its review key is at least that of [b]. *)
Definition noWorse (a b : Merged.t) : Prop :=
  JsNumber.ge (ratingKey a) (ratingKey b) = true
  /\ (JsNumber.ge (ratingKey b) (ratingKey a) = true ->
      JsNumber.ge (reviewsKey a) (reviewsKey b) = true).

(** [a] has to stand before [b] by those keys. *)
Definition outranks (a b : Merged.t) : Prop :=
  JsNumber.lt (ratingKey b) (ratingKey a) = true
  \/ (JsNumber.strictEq (ratingKey a) (ratingKey b) = true
      /\ JsNumber.lt (reviewsKey b) (reviewsKey a) = true).

Lemma compareResults_behind (a b : Merged.t) :
  behind compareResults a b <-> outranks b a.
Proof.
  unfold behind, compareResults, outranks. cbn zeta.
  pose proof (ratingKey_not_NaN a) as Ha. pose proof (ratingKey_not_NaN b) as Hb.
  pose proof (reviewsKey_not_NaN a) as Hva. pose proof (reviewsKey_not_NaN b) as Hvb.
  destruct (JsNumber.strictEq (ratingKey b) (ratingKey a)) eqn:E; cbn [negb];
    rewrite gt_sub_zero by assumption.
  - rewrite (strictEq_ge _ _ Hb Ha) in E. apply andb_true_iff in E as [_ E].
    rewrite (lt_not_ge _ _ Ha Hb), E. cbn [negb].
    split; [intros H; right; split; [reflexivity | exact H]|].
    intros [H | [_ H]]; [discriminate H | exact H].
  - split; [intros H; left; exact H|]. intros [H | [H _]]; [exact H | discriminate H].
Qed.

Lemma noWorse_of_outranks (a b : Merged.t) : outranks a b -> noWorse a b.
Proof.
  unfold outranks, noWorse.
  pose proof (ratingKey_not_NaN a) as Ha. pose proof (ratingKey_not_NaN b) as Hb.
  pose proof (reviewsKey_not_NaN a) as Hva. pose proof (reviewsKey_not_NaN b) as Hvb.
  rewrite (lt_not_ge _ _ Hb Ha), (lt_not_ge _ _ Hvb Hva), !negb_true_iff,
    (strictEq_ge _ _ Ha Hb), andb_true_iff.
  intros [H | [[H1 H1'] H2]].
  - split; [|congruence].
    destruct (ge_total _ _ Ha Hb) as [H' | H']; [exact H' | congruence].
  - split; [exact H1|]. intros _.
    destruct (ge_total _ _ Hva Hvb) as [H' | H']; [exact H' | congruence].
Qed.

Lemma noWorse_of_not_outranks (a b : Merged.t) : ~ outranks b a -> noWorse a b.
Proof.
  unfold outranks, noWorse. intros Hn.
  pose proof (ratingKey_not_NaN a) as Ha. pose proof (ratingKey_not_NaN b) as Hb.
  pose proof (reviewsKey_not_NaN a) as Hva. pose proof (reviewsKey_not_NaN b) as Hvb.
  rewrite (lt_not_ge _ _ Ha Hb), (lt_not_ge _ _ Hva Hvb), !negb_true_iff,
    (strictEq_ge _ _ Hb Ha), andb_true_iff in Hn.
  destruct (JsNumber.ge (ratingKey a) (ratingKey b)) eqn:E1.
  - split; [reflexivity|]. intros Hba.
    destruct (JsNumber.ge (reviewsKey a) (reviewsKey b)) eqn:E2; [reflexivity|].
    exfalso. apply Hn. right. split; [split; [exact Hba | reflexivity] | reflexivity].
  - exfalso. apply Hn. left. reflexivity.
Qed.

Lemma noWorse_trans (a b c : Merged.t) : noWorse a b -> noWorse b c -> noWorse a c.
Proof.
  unfold noWorse. intros [H1 H1'] [H2 H2']. split.
  - apply (ge_trans _ (ratingKey b)); assumption.
  - intros Hca. apply (ge_trans _ (reviewsKey b)).
    + apply H1'. apply (ge_trans _ (ratingKey c)); assumption.
    + apply H2'. apply (ge_trans _ (ratingKey a)); assumption.
Qed.

Lemma noWorse_not_behind (x y : Merged.t) : noWorse x y -> ~ behind compareResults x y.
Proof.
  intros [H1 H2] Hb. apply compareResults_behind in Hb.
  pose proof (ratingKey_not_NaN x) as Hx. pose proof (ratingKey_not_NaN y) as Hy.
  pose proof (reviewsKey_not_NaN x) as Hvx. pose proof (reviewsKey_not_NaN y) as Hvy.
  unfold outranks in Hb.
  rewrite (lt_not_ge _ _ Hx Hy), (lt_not_ge _ _ Hvx Hvy), !negb_true_iff,
    (strictEq_ge _ _ Hy Hx), andb_true_iff in Hb.
  destruct Hb as [Hb | [[Hb1 _] Hb2]]; [congruence|].
  rewrite (H2 Hb1) in Hb2. discriminate Hb2.
Qed.

(** The list the sort returns is ordered by the keys of the comparator. *)
Lemma arraySort_noWorse (l : list Merged.t) :
  StronglySorted noWorse (arraySort compareResults l).
Proof.
  apply arraySort_sorted.
  - intros x y H. apply noWorse_of_outranks, compareResults_behind, H.
  - intros x y H. apply noWorse_of_not_outranks. intros Ho. apply H.
    apply compareResults_behind. exact Ho.
  - exact noWorse_trans.
Qed.

(** *** The keys of a record whose fields are plain numbers *)

(** A record whose rating is a finite number and whose review count is
    a whole number from 0 up to, not including, 1e21. *)
Definition plainRecord (a : Merged.t) : Prop :=
  (exists q, Merged.rating a = Fin q)
  /\ exists z, Merged.reviews a = JsNumber.ofZ z /\ (0 <= z < 10 ^ 21)%Z.

(** [a] may stand before [b] by the fields themselves: higher rating, or
    the same rating and at least as many reviews. *)
Definition rankedBefore (a b : Merged.t) : Prop :=
  (valueOf (Merged.rating b) < valueOf (Merged.rating a))%Q
  \/ ((valueOf (Merged.rating a) == valueOf (Merged.rating b))%Q
      /\ (valueOf (Merged.reviews b) <= valueOf (Merged.reviews a))%Q).

(** Records with the rating and the review count of [k]. *)
Definition sameRank (k a : Merged.t) : bool :=
  Qeq_bool (valueOf (Merged.rating a)) (valueOf (Merged.rating k))
  && Qeq_bool (valueOf (Merged.reviews a)) (valueOf (Merged.reviews k)).

Lemma plainRecord_keys (a : Merged.t) :
  plainRecord a ->
  exists r v,
    ratingKey a = Fin r /\ (r == valueOf (Merged.rating a))%Q
    /\ reviewsKey a = Fin v /\ (v == valueOf (Merged.reviews a))%Q.
Proof.
  intros [[q Hq] (z & Hz & Hrange)]. unfold ratingKey, reviewsKey.
  rewrite Hq, Hz, count_read_whole by lia. unfold JsNumber.parseFloatNum.
  cbn [valueOf JsNumber.ofZ].
  unfold JsNumber.or, JsNumber.truthy. destruct (Qeq_bool q 0) eqn:E; cbn [negb].
  - apply Qeq_bool_iff in E. exists (inject_Z 0), (inject_Z z).
    repeat split; try reflexivity. rewrite E. reflexivity.
  - exists q, (inject_Z z). repeat split; reflexivity.
Qed.

Lemma plain_noWorse (a b : Merged.t) :
  plainRecord a -> plainRecord b -> (noWorse a b <-> rankedBefore a b).
Proof.
  intros Ha Hb. unfold noWorse, rankedBefore.
  destruct (plainRecord_keys a Ha) as (ra & va & -> & Era & -> & Eva).
  destruct (plainRecord_keys b Hb) as (rb & vb & -> & Erb & -> & Evb).
  rewrite !ge_Fin, <- Era, <- Erb, <- Eva, <- Evb. split.
  - intros [H1 H2]. destruct (Qlt_le_dec rb ra) as [Hlt | Hle]; [left; exact Hlt|].
    right. split; [lra | apply H2; exact Hle].
  - intros [H | [H1 H2]]; (split; [lra | intros Hle; lra]).
Qed.

Lemma StronglySorted_on {A : Type} (P : A -> Prop) (R R' : A -> A -> Prop) (l : list A) :
  (forall a b, P a -> P b -> R a b -> R' a b) ->
  List.Forall P l -> StronglySorted R l -> StronglySorted R' l.
Proof.
  intros Himp Hall Hs. induction Hs as [|x l Hs IH Hx]; [constructor|].
  apply List.Forall_cons_iff in Hall as [Hpx Hpl]. constructor; [apply IH; exact Hpl|].
  rewrite List.Forall_forall in *. intros y Hy. apply Himp; auto.
Qed.

Lemma sameRank_not_behind (k x y : Merged.t) :
  plainRecord x -> plainRecord y ->
  behind compareResults x y -> sameRank k x = true -> sameRank k y = false.
Proof.
  intros Hx Hy Hb Hkx. apply compareResults_behind in Hb.
  destruct (sameRank k y) eqn:Hky; [|reflexivity]. exfalso.
  apply (noWorse_not_behind x y); [|apply compareResults_behind; exact Hb].
  apply (plain_noWorse x y Hx Hy). unfold sameRank, rankedBefore in *.
  apply andb_true_iff in Hkx as [H1 H2]. apply andb_true_iff in Hky as [H3 H4].
  apply Qeq_bool_iff in H1, H2, H3, H4. right. split; lra.
Qed.

(** [parseInt(n) || 0] for the number 1e21, in an engine that prints it
    as ECMAScript prescribes: 1. *)
Lemma reviewsKey_1e21 (a : Merged.t) :
  numberToString (JsNumber.ofZ (10 ^ 21)) = js "1e+21" ->
  Merged.reviews a = JsNumber.ofZ (10 ^ 21) ->
  reviewsKey a = JsNumber.ofZ 1.
Proof.
  intros Hprint Ha. unfold reviewsKey. rewrite Ha.
  replace (JsNumber.parseIntNum (JsNumber.ofZ (10 ^ 21)))
    with (JsNumber.parseInt (numberToString (JsNumber.ofZ (10 ^ 21)))) by reflexivity.
  rewrite Hprint. vm_compute. reflexivity.
Qed.

(** C9.  The list [search] returns is the matched records in completion
    order ([finalResults]) sorted by the comparator: a permutation of
    them.  When every rating is a finite number and every review count a
    whole number below 1e21, it is ordered by rating descending then
    review count descending, and the records with one rating and one
    review count keep their completion order; the example of the
    specification sorts to 4.8/2, 4.2/50, 4.2/10.  A review count of 1e21
    is read by the comparator as 1 (the count is printed as 1e+21 and
    [parseInt] stops at the letter): a record with 5 reviews is ranked
    before a record of the same rating with 1e21 reviews, in whichever
    order the two completed. *)
Theorem finalResults_ranked (finalResults : list Merged.t) :
  Permutation finalResults (arraySort compareResults finalResults)
  /\ (List.Forall plainRecord finalResults ->
      StronglySorted rankedBefore (arraySort compareResults finalResults)
      /\ forall k, List.filter (sameRank k) (arraySort compareResults finalResults)
                   = List.filter (sameRank k) finalResults)
  /\ arraySort compareResults rankingExample
     = [matched "b" (48 # 10) 2; matched "c" (42 # 10) 50; matched "a" (42 # 10) 10]
  /\ (numberToString (JsNumber.ofZ (10 ^ 21)) = js "1e+21" ->
      arraySort compareResults [fewReviews; hugeCount] = [fewReviews; hugeCount]
      /\ arraySort compareResults [hugeCount; fewReviews] = [fewReviews; hugeCount]
      /\ ~ rankedBefore fewReviews hugeCount).
Proof.
  split; [apply arraySort_perm|]. split; [|split].
  - intros Hplain.
    assert (Hsorted : List.Forall plainRecord (arraySort compareResults finalResults))
      by (apply (Permutation_Forall (arraySort_perm compareResults finalResults)), Hplain).
    split.
    + apply (StronglySorted_on plainRecord noWorse); [|exact Hsorted | apply arraySort_noWorse].
      intros a b Ha Hb H. apply (plain_noWorse a b Ha Hb), H.
    + intros k. apply (arraySort_filter compareResults (sameRank k) plainRecord);
        [|exact Hplain]. intros x y Hx Hy. apply sameRank_not_behind; assumption.
  - vm_compute. reflexivity.
  - intros Hprint.
    assert (Hhuge : reviewsKey hugeCount = JsNumber.ofZ 1)
      by (apply reviewsKey_1e21; [exact Hprint | reflexivity]).
    assert (Hfew : reviewsKey fewReviews = JsNumber.ofZ 5) by (vm_compute; reflexivity).
    assert (Hrating : ratingKey hugeCount = ratingKey fewReviews) by reflexivity.
    assert (Hself : JsNumber.strictEq (ratingKey fewReviews) (ratingKey fewReviews) = true)
      by (vm_compute; reflexivity).
    split; [|split].
    + cbn [arraySort insertSorted]. unfold compareResults. cbn zeta.
      rewrite Hrating, Hself, Hhuge, Hfew. reflexivity.
    + cbn [arraySort insertSorted]. unfold compareResults. cbn zeta.
      rewrite Hrating, Hself, Hhuge, Hfew. reflexivity.
    + unfold rankedBefore. vm_compute. intros [H | [_ H]]; [discriminate H|].
      apply H. reflexivity.
Qed.

End RankingFacts.

Lemma finalResults_ranked_witness :
  StronglySorted (@rankedBefore) (arraySort (@compareResults sampleHost) rankingExample)
  /\ arraySort (@compareResults sampleHost) [hugeCount; fewReviews] = [fewReviews; hugeCount].
Proof.
  destruct (@finalResults_ranked sampleHost rankingExample) as (_ & Hplain & _ & Hhuge).
  split.
  - apply Hplain. unfold rankingExample, matched.
    repeat (constructor; [split; [eexists; reflexivity
                                 | eexists; split; [reflexivity | lia]]|]).
    constructor.
  - apply Hhuge. vm_compute. reflexivity.
Defined.

(** ** C10: [maxItems] is never read *)

(** Two filter objects that agree on every field but [maxItems]. *)
Definition sameButMaxItems (f1 f2 : Filters.t) : Prop :=
  Filters.address f1 = Filters.address f2
  /\ Filters.category f1 = Filters.category f2
  /\ Filters.budgetMin f1 = Filters.budgetMin f2
  /\ Filters.budgetMax f1 = Filters.budgetMax f2
  /\ Filters.days f1 = Filters.days f2
  /\ Filters.hours f1 = Filters.hours f2.

(** C10.  Two runs over the same feed and the same browser, with the same
    minima and with filters that differ in [maxItems] only, return the
    same list. *)
Theorem search_ignores_maxItems {host : Host} (browse : nat -> jsstring -> Visit)
    (feed : FeedState) (minRating minReviews : number)
    (f1 f2 : Filters.t) :
  sameButMaxItems f1 f2 ->
  search browse feed minRating minReviews f1
  = search browse feed minRating minReviews f2.
Proof.
  destruct f1 as [a1 c1 lo1 hi1 d1 h1 m1], f2 as [a2 c2 lo2 hi2 d2 h2 m2].
  unfold sameButMaxItems. cbn [Filters.address Filters.category Filters.budgetMin
    Filters.budgetMax Filters.days Filters.hours].
  intros (-> & -> & -> & -> & -> & ->). reflexivity.
Qed.

Lemma search_ignores_maxItems_witness :
  @search sampleHost sampleBrowse (Feed feedWithRepeat) JsNumber.zero JsNumber.zero
          (withMaxItems noFilters (JsNumber.ofZ 1))
  = @search sampleHost sampleBrowse (Feed feedWithRepeat) JsNumber.zero JsNumber.zero noFilters
  /\ length (@search sampleHost sampleBrowse (Feed feedWithRepeat) JsNumber.zero JsNumber.zero
               (withMaxItems noFilters (JsNumber.ofZ 1))) = 2.
Proof.
  split.
  - apply (@search_ignores_maxItems sampleHost sampleBrowse (Feed feedWithRepeat)
             JsNumber.zero JsNumber.zero (withMaxItems noFilters (JsNumber.ofZ 1)) noFilters).
    repeat split.
  - vm_compute. reflexivity.
Defined.

(** ** C3: bounds of the rating *)

Lemma firstRatingInRange_bounds (ratingMatches : list jsstring) :
  exists q, firstRatingInRange ratingMatches = Fin q /\ (0 <= q)%Q /\ (q <= 5)%Q.
Proof.
  induction ratingMatches as [|m rest IH]; cbn [firstRatingInRange].
  - exists 0%Q. split; [reflexivity|]. split; [apply Qle_refl | discriminate].
  - destruct (JsNumber.parseFloat m) as [|negative|q] eqn:E; cbn zeta.
    + cbn. exact IH.
    + destruct negative; cbn; exact IH.
    + destruct (JsNumber.ge (Fin q) (JsNumber.ofZ 1) && JsNumber.le (Fin q) (JsNumber.ofZ 5))
        eqn:Hin; [|exact IH].
      apply andb_true_iff in Hin as [H1 H5].
      unfold JsNumber.le, JsNumber.ofZ in *. apply ge_Fin in H1. apply ge_Fin in H5.
      exists q. split; [reflexivity|].
      change (inject_Z 1) with 1%Q in H1. change (inject_Z 5) with 5%Q in H5.
      split; lra.
Qed.

(** At the list stage the rating is 0 or lies in 1.0 .. 5.0, whatever the
    text of the item. *)
Lemma extractRating_bounds (text : jsstring) :
  exists q, extractRating text = Fin q /\ (0 <= q)%Q /\ (q <= 5)%Q.
Proof. apply firstRatingInRange_bounds. Qed.

(** C3 at a detail page.  The star label "9.9 つ星" gives the detail
    record the rating 9.9, which the merge then prefers to the
    candidate's 4.2 and which [search] returns: the detail path has no
    test of the range. *)
Theorem detail_rating_above_five :
  (exists details,
     getDetailsWithPage (Loaded overratedPage) = inr details
     /\ Details.detailRating details = Fin (99 # 10)
     /\ Merged.rating (mergedResult ratedCandidate details) = Fin (99 # 10))
  /\ map Merged.rating
         (@search sampleHost (fun _ _ => Loaded overratedPage) (Feed [ratedCandidate])
                  JsNumber.zero JsNumber.zero noFilters)
     = [Fin (99 # 10)]
  /\ ~ (99 # 10 <= 5)%Q.
Proof.
  split; [|split].
  - eexists. split; [vm_compute; reflexivity|]. split; reflexivity.
  - vm_compute. reflexivity.
  - intros H. vm_compute in H. apply H. reflexivity.
Qed.

(* ===================================================================== *)
(** * Further properties of the scheduler, the filters and the extractor *)
(* ===================================================================== *)

(** ** Chunks and rounds *)

Section SlicesFacts.

Context {A : Type}.

Lemma slices_concat (k fuel : nat) :
  0 < k -> forall a : list A, length a <= fuel -> concat (slices fuel k a) = a.
Proof.
  intros Hk. induction fuel as [|fuel IH]; intros a Hlen.
  - destruct a; [reflexivity | cbn in Hlen; lia].
  - destruct a as [|x a]; [reflexivity|].
    change (slices (S fuel) k (x :: a))
      with (firstn k (x :: a) :: slices fuel k (skipn k (x :: a))).
    cbn [concat]. rewrite IH; [apply firstn_skipn|].
    rewrite length_skipn. cbn [length] in *. lia.
Qed.

Lemma slices_sizes (k fuel : nat) :
  0 < k -> forall a : list A,
    List.Forall (fun c => 1 <= length c /\ length c <= k) (slices fuel k a).
Proof.
  intros Hk. induction fuel as [|fuel IH]; intros a.
  - destruct a; constructor.
  - destruct a as [|x a]; [constructor|].
    change (slices (S fuel) k (x :: a))
      with (firstn k (x :: a) :: slices fuel k (skipn k (x :: a))).
    constructor; [|apply IH].
    rewrite length_firstn. cbn [length]. lia.
Qed.

Lemma slices_count (k fuel : nat) :
  0 < k -> forall a : list A, length a <= fuel ->
    length (slices fuel k a) = (length a + (k - 1)) / k.
Proof.
  intros Hk. induction fuel as [|fuel IH]; intros a Hlen.
  - destruct a; [|cbn in Hlen; lia]. cbn. symmetry. apply Nat.div_small. lia.
  - destruct a as [|x a]; [cbn; symmetry; apply Nat.div_small; lia|].
    change (slices (S fuel) k (x :: a))
      with (firstn k (x :: a) :: slices fuel k (skipn k (x :: a))).
    cbn [length] in *. rewrite IH by (rewrite length_skipn; cbn [length]; lia).
    rewrite length_skipn. cbn [length].
    destruct (Nat.le_gt_cases k (S (length a))) as [Hge | Hlt].
    + replace (S (length a) + (k - 1)) with ((S (length a) - k + (k - 1)) + 1 * k) by lia.
      rewrite Nat.div_add by lia. lia.
    + replace (S (length a) - k) with 0 by lia.
      rewrite (Nat.div_small (0 + (k - 1)) k) by lia.
      apply (Nat.div_unique _ k 1 (S (length a) - 1)); lia.
Qed.

End SlicesFacts.

(** X1.  The chunks are a partition of the targets in order: put end to
    end they give the targets back, each holds between 1 and 3
    targets, and there are ceil(n / 3) of them. *)
Theorem chunks_partition_targets (targets : list Candidate.t) :
  let chunks := slices (length targets) maxItemsPerTab targets in
  concat chunks = targets
  /\ List.Forall (fun chunk => 1 <= length chunk /\ length chunk <= 3) chunks
  /\ length chunks = (length targets + 2) / 3.
Proof.
  cbn zeta. unfold maxItemsPerTab. split; [|split].
  - apply slices_concat; lia.
  - apply slices_sizes. lia.
  - apply (slices_count 3); lia.
Qed.




(** ** The tally of the rounds and what [search] returns *)

(** The record an item adds to [finalResults], if any. *)
Definition keptOf (item : Item.t) : list Merged.t :=
  match Item.error item, Item.passed item, Item.result item with
  | Some (_ :: _), _, _ => []
  | _, true, Some r => [r]
  | _, _, _ => []
  end.

Lemma tallyItem_step (t : Tally.t) (item : Item.t) :
  let t' := tallyItem t item in
  Tally.finalResults t' = Tally.finalResults t ++ keptOf item
  /\ Tally.processedCount t' = S (Tally.processedCount t)
  /\ Tally.successCount t' = Tally.successCount t + length (keptOf item)
  /\ Tally.successCount t' + Tally.failCount t' + Tally.filteredOutCount t'
     = S (Tally.successCount t + Tally.failCount t + Tally.filteredOutCount t).
Proof.
  cbn zeta. unfold tallyItem, keptOf.
  destruct (Item.error item) as [[|e0 e]|], (Item.passed item), (Item.result item);
    cbn [Tally.finalResults Tally.processedCount Tally.successCount Tally.failCount
         Tally.filteredOutCount length];
    rewrite ?app_nil_r; repeat split; lia.
Qed.

Lemma tallyItem_fold (items : list Item.t) :
  forall t : Tally.t,
    let t' := fold_left tallyItem items t in
    Tally.finalResults t' = Tally.finalResults t ++ flat_map keptOf items
    /\ Tally.processedCount t' = Tally.processedCount t + length items
    /\ Tally.successCount t' = Tally.successCount t + length (flat_map keptOf items)
    /\ Tally.successCount t' + Tally.failCount t' + Tally.filteredOutCount t'
       = Tally.successCount t + Tally.failCount t + Tally.filteredOutCount t + length items.
Proof.
  induction items as [|item items IH]; intros t; cbn zeta.
  - cbn. rewrite app_nil_r. repeat split; lia.
  - cbn [fold_left flat_map length].
    destruct (IH (tallyItem t item)) as (H1 & H2 & H3 & H4).
    destruct (tallyItem_step t item) as (S1 & S2 & S3 & S4).
    rewrite length_app. split; [|repeat split; lia].
    rewrite H1, S1, <- app_assoc. reflexivity.
Qed.

Lemma fold_left_concat {S T : Type} (f : S -> T -> S) (ls : list (list T)) :
  forall s, fold_left (fun s l => fold_left f l s) ls s = fold_left f (concat ls) s.
Proof.
  induction ls as [|l ls IH]; intros s; cbn [fold_left concat]; [reflexivity|].
  rewrite IH, fold_left_app. reflexivity.
Qed.

Section SearchFacts.

Context {host : Host}.
Variable browse : nat -> jsstring -> Visit.
Variables (minReviews : number) (filters : Filters.t).

(** The element [processChunk] pushes for one target fetched in [page]. *)
Definition chunkItem (page : nat) (target : Candidate.t) : Item.t :=
  match getDetailsWithPage (browse page (Candidate.url target)) with
  | inr details =>
      let merged := mergedResult target details in
      let filterResult := checkFilters merged minReviews filters in
      Item.mk (Some merged) (passed filterResult) (reason filterResult)
              None (Candidate.name target)
  | inl message => Item.mk None false [] (Some message) (Candidate.name target)
  end.

Lemma processChunk_map (numTabs : nat) (chunk : list Candidate.t) (pageIndex : nat) :
  processChunk browse numTabs minReviews filters chunk pageIndex
  = map (chunkItem (pageIndex mod numTabs)) chunk.
Proof. reflexivity. Qed.

(** The items of one round, in the order in which they are tallied. *)
Definition batchItems (pageOf : nat -> nat) (batch : list (list Candidate.t)) : list Item.t :=
  concat (imap (fun idx chunk => map (chunkItem (pageOf idx)) chunk) batch).

Lemma keptOf_chunkItem (page : nat) (target : Candidate.t) (r : Merged.t) :
  In r (keptOf (chunkItem page target)) ->
  exists details,
    getDetailsWithPage (browse page (Candidate.url target)) = inr details
    /\ r = mergedResult target details
    /\ passed (checkFilters r minReviews filters) = true.
Proof.
  unfold chunkItem, keptOf.
  destruct (getDetailsWithPage (browse page (Candidate.url target))) as [message | details].
  - cbn. destruct message; intros [].
  - cbn [Item.error Item.passed Item.result].
    destruct (passed (checkFilters (mergedResult target details) minReviews filters)) eqn:E;
      [|intros []].
    intros [<- | []]. exists details. split; [reflexivity|]. split; [reflexivity | exact E].
Qed.

Lemma keptOf_chunkItem_url (page : nat) (target : Candidate.t) :
  map Merged.url (keptOf (chunkItem page target)) `sublist_of` [Candidate.url target].
Proof.
  unfold chunkItem, keptOf.
  destruct (getDetailsWithPage (browse page (Candidate.url target))) as [message | details].
  - cbn. destruct message; apply sublist_nil_l.
  - cbn [Item.error Item.passed Item.result].
    destruct (passed (checkFilters (mergedResult target details) minReviews filters));
      [reflexivity | apply sublist_nil_l].
Qed.

Lemma chunk_kept_urls (page : nat) (chunk : list Candidate.t) :
  map Merged.url (flat_map keptOf (map (chunkItem page) chunk))
  `sublist_of` map Candidate.url chunk.
Proof.
  induction chunk as [|target chunk IH]; [reflexivity|].
  cbn [map flat_map]. rewrite map_app.
  apply (sublist_app _ [Candidate.url target]); [apply keptOf_chunkItem_url | exact IH].
Qed.

Lemma batchItems_cons (pageOf : nat -> nat) chunk batch :
  batchItems pageOf (chunk :: batch)
  = map (chunkItem (pageOf 0)) chunk ++ batchItems (fun idx => pageOf (S idx)) batch.
Proof. reflexivity. Qed.

Lemma batch_kept_urls (batch : list (list Candidate.t)) :
  forall pageOf,
    map Merged.url (flat_map keptOf (batchItems pageOf batch))
    `sublist_of` map Candidate.url (concat batch).
Proof.
  induction batch as [|chunk batch IH]; intros pageOf; [reflexivity|].
  rewrite batchItems_cons, flat_map_app, !map_app. cbn [concat]. rewrite map_app.
  apply sublist_app; [apply chunk_kept_urls | apply IH].
Qed.

Lemma batchItems_length (batch : list (list Candidate.t)) :
  forall pageOf, length (batchItems pageOf batch) = length (concat batch).
Proof.
  induction batch as [|chunk batch IH]; intros pageOf; [reflexivity|].
  rewrite batchItems_cons. cbn [concat]. rewrite !length_app, length_map, IH. reflexivity.
Qed.

Lemma batchItems_In (batch : list (list Candidate.t)) :
  forall pageOf item,
    In item (batchItems pageOf batch) ->
    exists idx target,
      idx < length batch /\ In target (concat batch)
      /\ item = chunkItem (pageOf idx) target.
Proof.
  induction batch as [|chunk batch IH]; intros pageOf item Hin; [destruct Hin|].
  rewrite batchItems_cons in Hin. apply in_app_iff in Hin as [Hin | Hin].
  - apply in_map_iff in Hin as (target & <- & Ht).
    exists 0, target. cbn [length concat]. split; [lia|]. split; [|reflexivity].
    apply in_app_iff. left. exact Ht.
  - destruct (IH _ _ Hin) as (idx & target & Hidx & Ht & ->).
    exists (S idx), target. cbn [length concat]. split; [lia|]. split; [|reflexivity].
    apply in_app_iff. right. exact Ht.
Qed.

(** The items of all rounds. *)
Definition roundItems (numTabs : nat) (batches : list (list (list Candidate.t))) : list Item.t :=
  concat (map (batchItems (fun idx => idx mod numTabs)) batches).

Lemma rounds_fold (numTabs : nat) (batches : list (list (list Candidate.t))) :
  forall t,
    fold_left (processBatch browse numTabs minReviews filters) batches t
    = fold_left tallyItem (roundItems numTabs batches) t.
Proof.
  unfold roundItems. induction batches as [|batch batches IH]; intros t; [reflexivity|].
  cbn [fold_left map concat]. rewrite IH, fold_left_app. f_equal.
  unfold processBatch. rewrite fold_left_concat. reflexivity.
Qed.

Lemma roundItems_length (numTabs : nat) (batches : list (list (list Candidate.t))) :
  length (roundItems numTabs batches) = length (concat (concat batches)).
Proof.
  unfold roundItems. induction batches as [|batch batches IH]; [reflexivity|].
  cbn [map concat]. rewrite !length_app, batchItems_length, concat_app, length_app, IH.
  reflexivity.
Qed.

Lemma roundItems_kept_urls (numTabs : nat) (batches : list (list (list Candidate.t))) :
  map Merged.url (flat_map keptOf (roundItems numTabs batches))
  `sublist_of` map Candidate.url (concat (concat batches)).
Proof.
  unfold roundItems. induction batches as [|batch batches IH]; [reflexivity|].
  cbn [map concat]. rewrite flat_map_app, concat_app, !map_app.
  apply sublist_app; [apply batch_kept_urls | exact IH].
Qed.

Lemma roundItems_In (numTabs : nat) (batches : list (list (list Candidate.t))) item :
  In item (roundItems numTabs batches) ->
  exists idx target,
    In target (concat (concat batches)) /\ item = chunkItem (idx mod numTabs) target.
Proof.
  unfold roundItems. induction batches as [|batch batches IH]; [intros []|].
  cbn [map concat]. rewrite in_app_iff. intros [Hin | Hin].
  - destruct (batchItems_In _ _ _ Hin) as (idx & target & _ & Ht & ->).
    exists idx, target. split; [|reflexivity]. rewrite concat_app, in_app_iff. left. exact Ht.
  - destruct (IH Hin) as (idx & target & Ht & ->).
    exists idx, target. split; [|reflexivity]. rewrite concat_app, in_app_iff. right. exact Ht.
Qed.

End SearchFacts.

Section SearchResults.

Context {host : Host}.
Variable browse : nat -> jsstring -> Visit.
Variables (minRating minReviews : number) (filters : Filters.t).

(** The matched records in completion order, before the sort. *)
Definition matchedOf (targets : list Candidate.t) : list Merged.t :=
  let numTabs := numTabsFor (length targets) in
  let chunks := slices (length targets) maxItemsPerTab targets in
  let batches := slices (length chunks) numTabs chunks in
  flat_map keptOf (roundItems browse minReviews filters numTabs batches).

Lemma search_Feed (results : list Candidate.t) :
  search browse (Feed results) minRating minReviews filters
  = arraySort compareResults
      (matchedOf (targetsOf (uniqueByUrl results) minRating minReviews filters)).
Proof.
  unfold search, matchedOf.
  destruct (uniqueByUrl results) as [|c cs] eqn:Eu; [reflexivity|].
  destruct (targetsOf (c :: cs) minRating minReviews filters) as [|t ts] eqn:Et; [reflexivity|].
  cbn zeta. rewrite rounds_fold.
  destruct (tallyItem_fold
              (roundItems browse minReviews filters (numTabsFor (length (t :: ts)))
                 (slices (length (slices (length (t :: ts)) maxItemsPerTab (t :: ts)))
                    (numTabsFor (length (t :: ts)))
                    (slices (length (t :: ts)) maxItemsPerTab (t :: ts))))
              (Tally.mk [] 0 0 0 0)) as (H1 & _).
  cbn zeta in H1. rewrite H1. reflexivity.
Qed.

Lemma numTabsFor_bounds (n : nat) :
  1 <= n -> 1 <= numTabsFor n /\ numTabsFor n <= 5.
Proof.
  intros Hn. unfold numTabsFor, maxItemsPerTab.
  assert (1 <= (n + (3 - 1)) / 3) by (apply (Nat.div_le_lower_bound _ 3 1); lia).
  lia.
Qed.

Lemma rounds_cover_targets (targets : list Candidate.t) :
  targets <> [] ->
  concat (concat (slices (length (slices (length targets) maxItemsPerTab targets))
                    (numTabsFor (length targets))
                    (slices (length targets) maxItemsPerTab targets)))
  = targets.
Proof.
  intros Hne.
  assert (Hlen : 1 <= length targets) by (destruct targets; [congruence | cbn; lia]).
  destruct (numTabsFor_bounds _ Hlen) as [H1 _].
  rewrite slices_concat by lia. apply slices_concat; unfold maxItemsPerTab; lia.
Qed.

(** X3.  After the last round every target has been counted once:
    [processedCount] is the number of targets, it is the sum of the
    matched, failed and filtered-out counters, and the matched counter is
    the length of [finalResults]. *)
Theorem tally_accounts_for_every_target (targets : list Candidate.t) :
  targets <> [] ->
  let numTabs := numTabsFor (length targets) in
  let chunks := slices (length targets) maxItemsPerTab targets in
  let batches := slices (length chunks) numTabs chunks in
  let tally :=
    fold_left (processBatch browse numTabs minReviews filters) batches
              (Tally.mk [] 0 0 0 0) in
  Tally.processedCount tally = length targets
  /\ Tally.successCount tally + Tally.failCount tally + Tally.filteredOutCount tally
     = length targets
  /\ Tally.successCount tally = length (Tally.finalResults tally).
Proof.
  intros Hne. cbn zeta. rewrite rounds_fold.
  match goal with |- context [fold_left tallyItem ?items ?t0] =>
    destruct (tallyItem_fold items t0) as (H1 & H2 & H3 & H4);
    pose proof (roundItems_length browse minReviews filters
                  (numTabsFor (length targets))
                  (slices (length (slices (length targets) maxItemsPerTab targets))
                     (numTabsFor (length targets))
                     (slices (length targets) maxItemsPerTab targets))) as Hlen
  end.
  cbn zeta in *. rewrite (rounds_cover_targets targets Hne) in Hlen.
  cbn [Tally.finalResults Tally.processedCount Tally.successCount Tally.failCount
       Tally.filteredOutCount app] in *.
  split; [lia|]. split; [lia|]. rewrite H1. lia.
Qed.

Lemma map_filter_sublist {A B : Type} (f : A -> B) (p : A -> bool) (l : list A) :
  map f (List.filter p l) `sublist_of` map f l.
Proof.
  induction l as [|x l IH]; [reflexivity|]. cbn [List.filter map].
  destruct (p x); cbn [map]; [apply sublist_skip | apply sublist_cons]; exact IH.
Qed.

(** X4.  Every record [search] returns is the merge of a deduplicated
    candidate that the pre-filter kept with the detail record fetched
    for its url in one of at most five tabs, and passes the post-filter. *)
Theorem search_results_pass_filters (feed : FeedState) (r : Merged.t) :
  In r (search browse feed minRating minReviews filters) ->
  exists results target page details,
    feed = Feed results
    /\ In target (uniqueByUrl results)
    /\ preFilter target minRating minReviews filters = Kept
    /\ page < 5
    /\ getDetailsWithPage (browse page (Candidate.url target)) = inr details
    /\ r = mergedResult target details
    /\ passed (checkFilters r minReviews filters) = true.
Proof.
  destruct feed as [|results]; [intros []|].
  rewrite search_Feed. intros Hin.
  apply (Permutation_in _ (Permutation_sym (arraySort_perm compareResults _))) in Hin.
  unfold matchedOf in Hin. cbn zeta in Hin.
  set (targets := targetsOf (uniqueByUrl results) minRating minReviews filters) in *.
  destruct targets as [|t ts] eqn:Et; [destruct Hin|].
  assert (Hne : targets <> []) by (subst targets; rewrite Et; discriminate).
  rewrite <- Et in Hin. apply in_flat_map in Hin as (item & Hitem & Hr).
  apply roundItems_In in Hitem as (idx & target & Ht & ->).
  rewrite (rounds_cover_targets targets Hne) in Ht.
  apply keptOf_chunkItem in Hr as (details & Hd & -> & Hp).
  subst targets. unfold targetsOf in Ht. apply filter_In in Ht as [Hin Hk].
  assert (Hlen : 1 <= length (targetsOf (uniqueByUrl results) minRating minReviews filters))
    by (destruct (targetsOf (uniqueByUrl results) minRating minReviews filters);
        [congruence | cbn; lia]).
  destruct (numTabsFor_bounds _ Hlen) as (H1 & H5).
  exists results, target, (idx mod numTabsFor (length (targetsOf (uniqueByUrl results)
                                                   minRating minReviews filters))), details.
  split; [reflexivity|]. split; [exact Hin|]. split.
  - destruct (preFilter target minRating minReviews filters); try discriminate Hk. reflexivity.
  - split; [|split; [exact Hd | split; [reflexivity | exact Hp]]].
    cbn zeta in H1, H5. unfold targetsOf in *.
    pose proof (Nat.mod_upper_bound idx
                  (numTabsFor (length (List.filter
                     (fun c => isKept (preFilter c minRating minReviews filters))
                     (uniqueByUrl results))))) as Hm.
    lia.
Qed.

(** X5.  The list [search] returns never has two records with the same
    url. *)
Theorem search_one_record_per_url (feed : FeedState) :
  List.NoDup (map Merged.url (search browse feed minRating minReviews filters)).
Proof.
  destruct feed as [|results]; [constructor|].
  rewrite search_Feed.
  apply (Permutation_NoDup
           (Permutation_map Merged.url (arraySort_perm compareResults _))).
  apply NoDup_ListNoDup.
  set (targets := targetsOf (uniqueByUrl results) minRating minReviews filters).
  assert (Ht : NoDup (map Candidate.url targets)).
  { apply (sublist_NoDup _ (map Candidate.url (uniqueByUrl results))).
    - apply NoDup_ListNoDup.
      apply (uniqueLoop_spec results [] ∅ tracks_empty (List.NoDup_nil _)).
    - apply map_filter_sublist. }
  destruct targets as [|t ts] eqn:Et; [constructor|].
  apply (sublist_NoDup _ (map Candidate.url (t :: ts))); [exact Ht|].
  unfold matchedOf. cbn zeta.
  pose proof (roundItems_kept_urls browse minReviews filters
                (numTabsFor (length (t :: ts)))
                (slices (length (slices (length (t :: ts)) maxItemsPerTab (t :: ts)))
                   (numTabsFor (length (t :: ts)))
                   (slices (length (t :: ts)) maxItemsPerTab (t :: ts)))) as Hsub.
  rewrite (rounds_cover_targets (t :: ts)) in Hsub by discriminate. exact Hsub.
Qed.

End SearchResults.

Lemma tally_accounts_for_every_target_witness :
  let tally :=
    fold_left (@processBatch sampleHost sampleBrowse 1 JsNumber.zero noFilters)
              [[[unratedCandidate; ratedCandidate]]] (Tally.mk [] 0 0 0 0) in
  Tally.processedCount tally = 2
  /\ Tally.successCount tally + Tally.failCount tally + Tally.filteredOutCount tally = 2
  /\ Tally.successCount tally = length (Tally.finalResults tally).
Proof.
  apply (@tally_accounts_for_every_target sampleHost sampleBrowse JsNumber.zero noFilters
           [unratedCandidate; ratedCandidate]).
  discriminate.
Defined.

Lemma search_results_pass_filters_witness :
  exists results target page details,
    Feed feedWithRepeat = Feed results
    /\ In target (uniqueByUrl results)
    /\ @preFilter sampleHost target JsNumber.zero JsNumber.zero noFilters = Kept
    /\ page < 5
    /\ getDetailsWithPage (sampleBrowse page (Candidate.url target)) = inr details
    /\ mergedResult ratedCandidate sampleDetailsOfPage = mergedResult target details
    /\ passed (@checkFilters sampleHost (mergedResult ratedCandidate sampleDetailsOfPage)
                 JsNumber.zero noFilters) = true.
Proof.
  apply (@search_results_pass_filters sampleHost sampleBrowse JsNumber.zero JsNumber.zero
           noFilters (Feed feedWithRepeat)).
  vm_compute. right. left. reflexivity.
Defined.

(** ** How the two filter stages fit together *)

Section FilterStages.

Context {host : Host}.

Lemma parseIntNum_or_unknown (n : number) :
  n = JsNumber.zero \/ n = NaN ->
  JsNumber.or (JsNumber.parseIntNum n) JsNumber.zero = JsNumber.zero.
Proof. intros [-> | ->]; reflexivity. Qed.

(** X6.  With a review minimum above 0, a candidate whose list count is
    unknown (0 or NaN) and whose detail page gives no positive count is
    rejected by the post-filter: a deferred candidate gets through only
    when the detail page supplies the count. *)
Theorem unknown_review_count_rejected_after_detail
    (c : Candidate.t) (d : Details.t) (minReviews : number) (filters : Filters.t) :
  positive minReviews ->
  Candidate.reviews c = JsNumber.zero \/ Candidate.reviews c = NaN ->
  ~ positive (Details.detailReviews d) ->
  passed (checkFilters (mergedResult c d) minReviews filters) = false.
Proof.
  intros Hmin Hc Hd. unfold checkFilters, checkReviews.
  replace (JsNumber.gt minReviews JsNumber.zero) with true
    by (symmetry; apply gt_zero_positive; exact Hmin).
  cbn zeta. unfold mergedResult at 1. cbn [Merged.reviews].
  apply gt_zero_not_positive in Hd. rewrite Hd.
  rewrite (parseIntNum_or_unknown _ Hc).
  apply gt_zero_positive in Hmin. unfold JsNumber.gt in Hmin. rewrite Hmin.
  reflexivity.
Qed.

(** X7.  A candidate the pre-filter kept and whose budget text comes
    from the list is never rejected on the budget by the post-filter:
    the merge keeps the list budget and both stages parse and bound it
    alike. *)
Theorem list_budget_checked_once
    (c : Candidate.t) (d : Details.t) (minRating minReviews : number) (filters : Filters.t) :
  preFilter c minRating minReviews filters = Kept ->
  Candidate.budget c <> [] ->
  checkBudget (mergedResult c d) filters = None.
Proof.
  intros Hkept Hb.
  assert (Hpre : preFilterBudget c filters = false).
  { unfold preFilter in Hkept. cbn zeta in Hkept.
    destruct (JsNumber.gt minRating JsNumber.zero && _); [discriminate|].
    destruct (JsNumber.gt minReviews JsNumber.zero && _ && _); [discriminate|].
    destruct (preFilterCategory c filters); [discriminate|].
    destruct (preFilterBudget c filters); [discriminate | reflexivity]. }
  unfold checkBudget, preFilterBudget in *. unfold mergedResult. cbn [Merged.budget].
  rewrite (or_nonempty _ (Details.budget d) Hb), !(or_nonempty _ [] Hb).
  apply truthy_nonempty in Hb. rewrite Hb in *.
  destruct (notNull (Filters.budgetMin filters) || notNull (Filters.budgetMax filters));
    [|reflexivity].
  cbn [andb] in Hpre. cbn zeta.
  destruct (exec rePrice (Candidate.budget c)); [|reflexivity].
  apply orb_false_iff in Hpre as [-> ->]. reflexivity.
Qed.

(** Filters with the budget bounds, the days and the time of day unset. *)
Definition withoutDataFilters (filters : Filters.t) : Filters.t :=
  Filters.mk (Filters.address filters) (Filters.category filters) None None [] []
             (Filters.maxItems filters).

(** X8.  For an item with no budget text and no business-hours text,
    the budget bounds, the configured days and the time of day do not
    change the outcome of the post-filter: missing data is never a
    reason to reject. *)
Theorem missing_data_is_not_filtered
    (item : Merged.t) (minReviews : number) (filters : Filters.t) :
  Merged.budget item = [] ->
  Merged.businessHours item = [] ->
  checkFilters item minReviews filters
  = checkFilters item minReviews (withoutDataFilters filters).
Proof.
  intros Hb Hh. unfold checkFilters.
  assert (E1 : checkBudget item filters = None).
  { unfold checkBudget. rewrite Hb. destruct (notNull _ || notNull _); reflexivity. }
  assert (E2 : checkDays item filters = None).
  { unfold checkDays. rewrite Hh. destruct (Filters.days filters); reflexivity. }
  assert (E3 : checkHours item filters = None).
  { unfold checkHours. rewrite Hh. destruct (JsString.truthy (Filters.hours filters)); reflexivity. }
  rewrite E1, E2, E3. reflexivity.
Qed.

End FilterStages.

Lemma unknown_review_count_rejected_after_detail_witness :
  passed (@checkFilters sampleHost (mergedResult ratedCandidate sampleDetails)
            (JsNumber.ofZ 10) noFilters) = false.
Proof.
  apply (@unknown_review_count_rejected_after_detail sampleHost ratedCandidate sampleDetails
           (JsNumber.ofZ 10) noFilters).
  - reflexivity.
  - left. reflexivity.
  - intros Hpos. discriminate Hpos.
Defined.

Lemma list_budget_checked_once_witness :
  @checkBudget sampleHost (mergedResult ratedCandidate sampleDetails) budgetFilters = None.
Proof.
  apply (@list_budget_checked_once sampleHost ratedCandidate sampleDetails
           JsNumber.zero JsNumber.zero budgetFilters).
  - vm_compute. reflexivity.
  - vm_compute. discriminate.
Defined.

Lemma missing_data_is_not_filtered_witness :
  @checkFilters sampleHost noHoursItem JsNumber.zero mondayFilters
  = @checkFilters sampleHost noHoursItem JsNumber.zero (withoutDataFilters mondayFilters).
Proof.
  apply (@missing_data_is_not_filtered sampleHost noHoursItem JsNumber.zero mondayFilters);
    reflexivity.
Defined.

(** ** Windows that do not span midnight *)

(** X9.  For a segment of a configured day whose window closes after it
    opens, the loop finds the target open exactly when
    open <= target < close: the opening minute is in, the closing minute
    is out. *)
Theorem plain_window_half_open
    (segment : jsstring) (targetDays : list jsstring)
    (colonIndex : nat) (open close target : Q) :
  indexOf (js ":") segment = Some colonIndex ->
  (targetDays = []
   \/ existsb (fun d => includes (substring segment 0 colonIndex) d)
              (map dayShort targetDays) = true) ->
  parseBusinessTime (substringFrom segment (colonIndex + 1)) = Some (Fin open, Fin close) ->
  (open < close)%Q ->
  foundMatch [segment] (Fin target) targetDays = true
  <-> (open <= target)%Q /\ (target < close)%Q.
Proof.
  intros Hcolon Hday Hparse Hlt.
  rewrite <- (isOpen_plain open close target Hlt).
  cbn [foundMatch]. unfold segmentOpen. rewrite Hcolon.
  assert (Hm : match targetDays with
               | [] => true
               | _ => existsb (fun d => includes (substring segment 0 colonIndex) d)
                              (map dayShort targetDays)
               end = true).
  { destruct Hday as [-> | Hd]; [reflexivity|]. destruct targetDays; [reflexivity | exact Hd]. }
  rewrite Hm. cbn [negb]. rewrite Hparse.
  destruct (isOpen (Fin open) (Fin close) (Fin target)); split; congruence.
Qed.

Lemma plain_window_half_open_witness :
  (foundMatch [js "火: 11時00分～15時00分"] (Fin (inject_Z 900)) [js "火曜日"] = true
   <-> (inject_Z 660 <= inject_Z 900)%Q /\ (inject_Z 900 < inject_Z 900)%Q)
  /\ foundMatch [js "火: 11時00分～15時00分"] (Fin (inject_Z 900)) [js "火曜日"] = false.
Proof.
  split; [|vm_compute; reflexivity].
  apply (plain_window_half_open (js "火: 11時00分～15時00分") [js "火曜日"] 1
           (inject_Z 660) (inject_Z 900) (inject_Z 900)).
  - vm_compute. reflexivity.
  - right. vm_compute. reflexivity.
  - vm_compute. reflexivity.
  - vm_compute. reflexivity.
Defined.

(** ** [retryOperation] for any budget *)

Section RetryBudget.

Context {World Res Err : Type}.
Variable fn : World -> World * (Thrown Err + Res).
Variable waitForTimeout : Z -> World -> World.

(** One turn of the loop. *)
Lemma retryLoop_turn (remaining attempt maxRetries : nat) (lastError : Thrown Err)
    (calls : nat) (w : World) :
  retryLoop fn waitForTimeout (S remaining) attempt maxRetries lastError calls w
  = match fn w with
    | (w', inr result) => (w', S calls, Return result)
    | (w', inl (Value error)) =>
        retryLoop fn waitForTimeout remaining (S attempt) maxRetries (Value error) (S calls)
          (if attempt <? maxRetries
           then waitForTimeout (retryDelay * Z.of_nat attempt) w' else w')
    | (w', inl _) => (w', S calls, ThrowTypeError)
    end.
Proof. reflexivity. Qed.

(** An operation that, whenever it is called, fails with a value other
    than [undefined] and [null]. *)
Definition failsWithValue : Prop :=
  forall w, exists w' e, fn w = (w', inl (Value e)).

Lemma retryLoop_last_call (remaining : nat) :
  failsWithValue ->
  forall attempt maxRetries lastError calls w,
    exists wLast w' e,
      fn wLast = (w', inl (Value e))
      /\ retryLoop fn waitForTimeout (S remaining) attempt maxRetries lastError calls w
         = (if attempt + remaining <? maxRetries
            then waitForTimeout (retryDelay * Z.of_nat (attempt + remaining)) w' else w',
            calls + S remaining, Throw (Value e)).
Proof.
  intros Hfail. induction remaining as [|k IH]; intros attempt maxRetries lastError calls w.
  - destruct (Hfail w) as (w' & e & Hw). exists w, w', e. split; [exact Hw|].
    rewrite retryLoop_turn, Hw, Nat.add_0_r, Nat.add_1_r. reflexivity.
  - destruct (Hfail w) as (w1 & e1 & Hw).
    destruct (IH (S attempt) maxRetries (Value e1) (S calls)
                 (if attempt <? maxRetries
                  then waitForTimeout (retryDelay * Z.of_nat attempt) w1 else w1))
      as (wLast & w' & e & Hlast & Hrun).
    exists wLast, w', e. split; [exact Hlast|].
    rewrite retryLoop_turn, Hw, Hrun.
    replace (S attempt + k) with (attempt + S k) by lia.
    replace (S calls + S k) with (calls + S (S k)) by lia. reflexivity.
Qed.

(** X10.  Whatever the budget, an operation that fails on every call
    with a value other than [undefined] and [null] is called exactly
    [maxRetries] times; with a budget of 0 nothing is called and
    [undefined] is thrown; otherwise the error thrown is the one of the
    last call and the world is left as that call left it (no wait
    follows the last failure). *)
Theorem retryOperation_exhausts_budget (maxRetries : nat) (w : World) :
  failsWithValue ->
  match maxRetries with
  | O => retryOperation fn waitForTimeout maxRetries w = (w, 0, Throw Undefined)
  | S _ =>
      exists wLast w' e,
        fn wLast = (w', inl (Value e))
        /\ retryOperation fn waitForTimeout maxRetries w = (w', maxRetries, Throw (Value e))
  end.
Proof.
  intros Hfail. destruct maxRetries as [|k]; [reflexivity|].
  unfold retryOperation.
  destruct (retryLoop_last_call k Hfail 1 (S k) Undefined 0 w)
    as (wLast & w' & e & Hlast & Hrun).
  exists wLast, w', e. split; [exact Hlast|]. rewrite Hrun.
  replace (1 + k <? S k) with false by (symmetry; apply Nat.ltb_ge; lia).
  reflexivity.
Qed.

(** The world in which the call number [S i] is made when all calls
    before it failed. *)
Fixpoint worldBefore (i : nat) (w : World) : World :=
  match i with
  | O => w
  | S j => waitForTimeout (retryDelay * Z.of_nat i) (fst (fn (worldBefore j w)))
  end.

Lemma retryLoop_first_success (maxRetries k : nat) (w : World) (result : Res) :
  k < maxRetries ->
  (forall i, i < k -> exists e, snd (fn (worldBefore i w)) = inl (Value e)) ->
  snd (fn (worldBefore k w)) = inr result ->
  forall d j remaining lastError calls,
    k = j + d -> j + remaining = maxRetries ->
    retryLoop fn waitForTimeout remaining (S j) maxRetries lastError calls (worldBefore j w)
    = (fst (fn (worldBefore k w)), calls + S d, Return result).
Proof.
  intros Hk Hfail Hok. induction d as [|d IH]; intros j remaining lastError calls Hd Hrem.
  - replace j with k in * by lia.
    destruct remaining as [|remaining]; [lia|]. rewrite retryLoop_turn.
    destruct (fn (worldBefore k w)) as [w' [e | r]]; cbn [snd fst] in *; [discriminate|].
    injection Hok as ->. rewrite Nat.add_1_r. reflexivity.
  - destruct remaining as [|remaining]; [lia|]. rewrite retryLoop_turn.
    destruct (Hfail j) as (e & He); [lia|].
    specialize (IH (S j) remaining). cbn [worldBefore] in IH.
    destruct (fn (worldBefore j w)) as [w1 [e1 | r1]]; cbn [snd fst] in *; [|discriminate].
    injection He as ->.
    replace (S j <? maxRetries) with true by (symmetry; apply Nat.ltb_lt; lia).
    rewrite (IH (Value e) (S calls)) by lia. f_equal. f_equal. lia.
Qed.

(** X11.  Whatever the budget, when the calls 1 .. k fail with values
    other than [undefined] and [null] and the call k + 1 <= maxRetries
    succeeds, its result is returned after exactly k + 1 calls, the call
    number i + 1 being made after a wait of 2000 * i ms. *)
Theorem retryOperation_first_success (maxRetries k : nat) (w : World) (result : Res) :
  k < maxRetries ->
  (forall i, i < k -> exists e, snd (fn (worldBefore i w)) = inl (Value e)) ->
  snd (fn (worldBefore k w)) = inr result ->
  retryOperation fn waitForTimeout maxRetries w
  = (fst (fn (worldBefore k w)), S k, Return result).
Proof.
  intros Hk Hfail Hok. unfold retryOperation.
  apply (retryLoop_first_success maxRetries k w result Hk Hfail Hok k 0 maxRetries
           Undefined 0); lia.
Qed.

Section Backoff.

(** A clock read off the world: the operation leaves it alone, a wait
    advances it by the delay. *)
Variable clock : World -> Z.
Hypothesis fn_keeps_clock : forall w, clock (fst (fn w)) = clock w.
Hypothesis wait_advances_clock :
  forall delay w, clock (waitForTimeout delay w) = (clock w + delay)%Z.
Hypothesis always_fails : failsWithValue.

Lemma retryLoop_clock (remaining : nat) :
  forall attempt maxRetries lastError calls w,
    attempt + remaining = maxRetries ->
    clock (fst (fst (retryLoop fn waitForTimeout (S remaining) attempt maxRetries
                       lastError calls w)))
    = (clock w + 1000 * Z.of_nat remaining * (2 * Z.of_nat attempt + Z.of_nat remaining - 1))%Z.
Proof.
  induction remaining as [|r IH]; intros attempt maxRetries lastError calls w Hsum.
  - rewrite retryLoop_turn. destruct (always_fails w) as (w' & e & Hw).
    pose proof (fn_keeps_clock w) as Hc. rewrite Hw in *. cbn [fst] in *.
    replace (attempt <? maxRetries) with false by (symmetry; apply Nat.ltb_ge; lia).
    cbn [retryLoop fst]. lia.
  - destruct (always_fails w) as (w' & e & Hw).
    pose proof (fn_keeps_clock w) as Hc. rewrite Hw in Hc. cbn [fst] in Hc.
    rewrite retryLoop_turn, Hw.
    replace (attempt <? maxRetries) with true by (symmetry; apply Nat.ltb_lt; lia).
    rewrite IH by lia. rewrite wait_advances_clock, Hc. unfold retryDelay. nia.
Qed.

(** X12.  The backoff is linear: a run of [maxRetries >= 1] failures,
    each with a value other than [undefined] and [null], waits
    2000 * (1 + 2 + ... + (maxRetries - 1)) ms in all, that is
    1000 * maxRetries * (maxRetries - 1). *)
Theorem retryOperation_total_wait (maxRetries : nat) (w : World) :
  0 < maxRetries ->
  clock (fst (fst (retryOperation fn waitForTimeout maxRetries w)))
  = (clock w + 1000 * Z.of_nat maxRetries * (Z.of_nat maxRetries - 1))%Z.
Proof.
  intros Hpos. unfold retryOperation. destruct maxRetries as [|k]; [lia|].
  rewrite (retryLoop_clock k 1 (S k) Undefined 0 w) by lia. nia.
Qed.

End Backoff.

End RetryBudget.

Lemma retryOperation_exhausts_budget_witness :
  exists wLast w' e,
    alwaysFails wLast = (w', inl (Value e))
    /\ retryOperation (Res := jsstring) alwaysFails noWait 2 0 = (w', 2, Throw (Value e)).
Proof.
  apply (retryOperation_exhausts_budget alwaysFails noWait 2 0).
  intros w0. exists (S w0), (S w0). reflexivity.
Defined.

Lemma retryOperation_first_success_witness :
  retryOperation secondTimeLucky noWait 2 0 = (2, 2, Return (js "ok")).
Proof.
  apply (retryOperation_first_success secondTimeLucky noWait 2 1 0 (js "ok")).
  - lia.
  - intros i Hi. replace i with 0 by lia. exists 1. reflexivity.
  - reflexivity.
Defined.

Lemma retryOperation_total_wait_witness :
  fst (fst (retryOperation failsAtOnce elapse 3 0%Z)) = 6000%Z.
Proof.
  apply (retryOperation_total_wait failsAtOnce elapse (fun w => w) (fun w => eq_refl)
           (fun delay w => eq_refl) (fun w => ex_intro _ w (ex_intro _ 0 eq_refl)) 3 0%Z).
  lia.
Defined.

(** ** More on the deduplication *)

Lemma uniqueLoop_keeps_order (results : list Candidate.t) :
  forall unique urlMap,
    exists added,
      fst (uniqueLoop results unique urlMap) = unique ++ added
      /\ added `sublist_of` results.
Proof.
  induction results as [|item rest IH]; intros unique urlMap.
  - exists []. cbn. rewrite app_nil_r. split; reflexivity.
  - cbn [uniqueLoop]. destruct (urlMap !! Candidate.url item).
    + destruct (IH unique urlMap) as (added & -> & Hs).
      exists added. split; [reflexivity | apply sublist_cons; exact Hs].
    + destruct (IH (unique ++ [item]) (<[Candidate.url item := true]> urlMap))
        as (added & -> & Hs).
      exists (item :: added). rewrite <- app_assoc. split; [reflexivity|].
      apply sublist_skip. exact Hs.
Qed.

Lemma uniqueLoop_fresh (results : list Candidate.t) :
  forall unique urlMap,
    tracks urlMap unique ->
    List.NoDup (map Candidate.url results) ->
    (forall u, In u (map Candidate.url results) -> ~ In u (map Candidate.url unique)) ->
    fst (uniqueLoop results unique urlMap) = unique ++ results.
Proof.
  induction results as [|item rest IH]; intros unique urlMap Ht Hnd Hfresh.
  - cbn. rewrite app_nil_r. reflexivity.
  - cbn [uniqueLoop]. cbn [map] in Hnd, Hfresh. apply List.NoDup_cons_iff in Hnd as [Hitem Hnd].
    destruct (urlMap !! Candidate.url item) as [b|] eqn:Hlook.
    + exfalso. apply (Hfresh (Candidate.url item)); [left; reflexivity|].
      apply Ht. eauto.
    + rewrite IH; [rewrite <- app_assoc; reflexivity | apply tracks_insert; exact Ht
                   | exact Hnd |].
      intros u Hu. rewrite map_app, in_app_iff. cbn [map In].
      intros [H | [H | []]].
      * apply (Hfresh u); [right; exact Hu | exact H].
      * subst u. contradiction.
Qed.

Lemma uniqueByUrl_NoDup (results : list Candidate.t) :
  List.NoDup (map Candidate.url (uniqueByUrl results)).
Proof. apply (uniqueLoop_spec results [] ∅ tracks_empty (List.NoDup_nil _)). Qed.

(** X13.  The deduplication keeps the order of the feed (its result is a
    subsequence of the items), returns a list without repeated urls
    unchanged, and applied twice gives what it gives once. *)
Theorem uniqueByUrl_order_and_idempotence (results : list Candidate.t) :
  uniqueByUrl results `sublist_of` results
  /\ (List.NoDup (map Candidate.url results) -> uniqueByUrl results = results)
  /\ uniqueByUrl (uniqueByUrl results) = uniqueByUrl results.
Proof.
  assert (Hid : forall l, List.NoDup (map Candidate.url l) -> uniqueByUrl l = l).
  { intros l Hnd. unfold uniqueByUrl.
    rewrite (uniqueLoop_fresh l [] ∅ tracks_empty Hnd); [reflexivity|]. intros u _ []. }
  split; [|split].
  - unfold uniqueByUrl. destruct (uniqueLoop_keeps_order results [] ∅) as (added & -> & Hs).
    exact Hs.
  - apply Hid.
  - apply Hid. apply uniqueByUrl_NoDup.
Qed.

Lemma uniqueByUrl_order_and_idempotence_witness :
  uniqueByUrl [unratedCandidate; ratedCandidate] = [unratedCandidate; ratedCandidate].
Proof.
  apply (proj1 (proj2 (uniqueByUrl_order_and_idempotence [unratedCandidate; ratedCandidate]))).
  apply NoDup_ListNoDup. vm_compute.
  constructor; [|constructor; [|constructor]]; rewrite ?list_elem_of_In; cbn;
    intuition discriminate.
Defined.

(** ** Ranking a ranked list *)

Section RankingTwice.

Context {host : Host}.

Lemma insertSorted_in_place (x : Merged.t) (l : list Merged.t) :
  List.Forall (noWorse x) l -> insertSorted compareResults x l = x :: l.
Proof.
  intros Hall. destruct l as [|y l]; [reflexivity|]. cbn [insertSorted].
  apply List.Forall_inv in Hall.
  destruct (JsNumber.gt (compareResults x y) JsNumber.zero) eqn:E; [|reflexivity].
  exfalso. apply (noWorse_not_behind x y Hall). exact E.
Qed.

Lemma arraySort_ranked_fixed (l : list Merged.t) :
  StronglySorted noWorse l -> arraySort compareResults l = l.
Proof.
  induction 1 as [|x l Hs IH Hall]; [reflexivity|].
  cbn [arraySort]. rewrite IH. apply insertSorted_in_place. exact Hall.
Qed.

(** X14.  Ranking is idempotent: the sort leaves a list it has already
    ordered as it is, so ranking the returned list again changes
    nothing. *)
Theorem ranking_idempotent (l : list Merged.t) :
  arraySort compareResults (arraySort compareResults l) = arraySort compareResults l.
Proof. apply arraySort_ranked_fixed. apply arraySort_noWorse. Qed.

End RankingTwice.

(** ** What a match of a regular expression looks like *)

(** [matches r w cs]: the expression [r] can cover exactly [w], closing
    its groups on [cs] in that order. *)
Inductive matches : regex -> jsstring -> list jsstring -> Prop :=
| matches_Eps : matches Eps [] []
| matches_Cls p c : p c = true -> matches (Cls p) [c] []
| matches_Cat r1 r2 w1 w2 cs1 cs2 :
    matches r1 w1 cs1 -> matches r2 w2 cs2 ->
    matches (Cat r1 r2) (w1 ++ w2) (cs1 ++ cs2)
| matches_Alt_l r1 r2 w cs : matches r1 w cs -> matches (Alt r1 r2) w cs
| matches_Alt_r r1 r2 w cs : matches r2 w cs -> matches (Alt r1 r2) w cs
| matches_Rep p lo hi w :
    List.Forall (fun c => p c = true) w ->
    lo <= length w ->
    (forall h, hi = Some h -> length w <= h) ->
    matches (Rep p lo hi) w []
| matches_Cap r w cs : matches r w cs -> matches (Cap r) w (cs ++ [w]).

Lemma run_spec (p : N -> bool) (s : jsstring) :
  forall hi,
    run p hi s <= length s
    /\ List.Forall (fun c => p c = true) (firstn (run p hi s) s)
    /\ (forall h, hi = Some h -> run p hi s <= h).
Proof.
  induction s as [|c s IH]; intros hi.
  - destruct hi as [[|h]|]; cbn; repeat split; try constructor; try lia;
      intros h' E; injection E as <-; lia.
  - destruct hi as [[|h]|]; cbn [run].
    + cbn. repeat split; [lia | constructor | intros h' E; injection E as <-; lia].
    + destruct (p c) eqn:Hp.
      * destruct (IH (option_map Nat.pred (Some (S h)))) as (H1 & H2 & H3).
        cbn [length firstn]. split; [lia|]. split; [constructor; assumption|].
        intros h' E. injection E as <-. specialize (H3 h eq_refl). lia.
      * cbn. repeat split; [lia | constructor | intros; lia].
    + destruct (p c) eqn:Hp.
      * destruct (IH (option_map Nat.pred None)) as (H1 & H2 & H3).
        cbn [length firstn]. split; [lia|]. split; [constructor; assumption|].
        intros h' E. discriminate E.
      * cbn. repeat split; [lia | constructor | intros; lia].
Qed.

Lemma tryDown_spec {R : Type} (lo : nat) (s : jsstring) (k : jsstring -> option R) (x : R) :
  forall i, tryDown i lo s k = Some x ->
            exists j, lo <= j /\ j <= i /\ k (skipn j s) = Some x.
Proof.
  induction i as [|i IH]; cbn [tryDown]; intros H.
  - destruct (0 <? lo) eqn:E; [discriminate|]. apply Nat.ltb_ge in E.
    destruct (k (skipn 0 s)) eqn:Ek; [|discriminate]. injection H as ->.
    exists 0. repeat split; [lia | lia | exact Ek].
  - destruct (S i <? lo) eqn:E; [discriminate|]. apply Nat.ltb_ge in E.
    destruct (k (skipn (S i) s)) eqn:Ek.
    + injection H as ->. exists (S i). repeat split; [lia | lia | exact Ek].
    + destruct (IH H) as (j & H1 & H2 & H3). exists j. repeat split; [lia | lia | exact H3].
Qed.

Lemma Forall_firstn_le {A : Type} (P : A -> Prop) (l : list A) (j n : nat) :
  j <= n -> List.Forall P (firstn n l) -> List.Forall P (firstn j l).
Proof.
  revert j n. induction l as [|x l IH]; intros j n Hjn H.
  - rewrite firstn_nil. constructor.
  - destruct j as [|j]; [constructor|]. destruct n as [|n]; [lia|].
    cbn [firstn] in *. apply List.Forall_cons_iff in H as [Hx Hl].
    constructor; [exact Hx | apply (IH j n); [lia | exact Hl]].
Qed.

Lemma firstn_app_exact (w s : jsstring) : firstn (length (w ++ s) - length s) (w ++ s) = w.
Proof.
  rewrite length_app. replace (length w + length s - length s) with (length w + 0) by lia.
  rewrite firstn_app_2. cbn. apply app_nil_r.
Qed.

(** The matcher only reports what the expression can cover. *)
Lemma matchHere_sound {R : Type} (r : regex) :
  forall (s : jsstring) (caps : list jsstring)
         (k : jsstring -> list jsstring -> option R) (x : R),
    matchHere r s caps k = Some x ->
    exists w s' cs, s = w ++ s' /\ matches r w cs /\ k s' (caps ++ cs) = Some x.
Proof.
  induction r as [|p|r1 IH1 r2 IH2|r1 IH1 r2 IH2|p lo hi|r1 IH1];
    intros s caps k x H; cbn [matchHere] in H.
  - exists [], s, []. rewrite app_nil_r. repeat split; [constructor | exact H].
  - destruct s as [|c s]; [discriminate|]. destruct (p c) eqn:Hp; [|discriminate].
    exists [c], s, []. rewrite app_nil_r. repeat split; [constructor; exact Hp | exact H].
  - apply IH1 in H as (w1 & s1 & cs1 & -> & Hm1 & H).
    apply IH2 in H as (w2 & s2 & cs2 & -> & Hm2 & H).
    exists (w1 ++ w2), s2, (cs1 ++ cs2). rewrite <- app_assoc.
    repeat split; [constructor; assumption|]. rewrite app_assoc. exact H.
  - destruct (matchHere r1 s caps k) as [y|] eqn:E1.
    + injection H as ->. apply IH1 in E1 as (w & s' & cs & -> & Hm & Hk).
      exists w, s', cs. repeat split; [apply matches_Alt_l; exact Hm | exact Hk].
    + apply IH2 in H as (w & s' & cs & -> & Hm & Hk).
      exists w, s', cs. repeat split; [apply matches_Alt_r; exact Hm | exact Hk].
  - apply tryDown_spec in H as (j & Hlo & Hj & Hk).
    destruct (run_spec p s hi) as (Hlen & Hall & Hhi).
    exists (firstn j s), (skipn j s), []. rewrite app_nil_r, firstn_skipn.
    repeat split; [|exact Hk]. constructor.
    + apply (Forall_firstn_le _ _ j _ Hj Hall).
    + rewrite length_firstn. lia.
    + intros h Eh. rewrite length_firstn. specialize (Hhi h Eh). lia.
  - apply IH1 in H as (w & s' & cs & -> & Hm & Hk).
    rewrite firstn_app_exact in Hk.
    exists w, s', (cs ++ [w]). repeat split; [constructor; exact Hm|].
    rewrite app_assoc. exact Hk.
Qed.

Lemma at0_sound (r : regex) (s w : jsstring) (caps : list jsstring) :
  at0 r s = Some (w, caps) -> matches r w caps /\ exists s', s = w ++ s'.
Proof.
  unfold at0. intros H. apply matchHere_sound in H as (w' & s' & cs & -> & Hm & Hk).
  rewrite firstn_app_exact in Hk. cbn [app] in Hk. injection Hk as <- <-.
  split; [exact Hm | exists s'; reflexivity].
Qed.

Lemma execFrom_sound (r : regex) (s : jsstring) :
  forall i m, execFrom r i s = Some m ->
              matches r (whole m) (groups m)
              /\ exists pre post, s = pre ++ whole m ++ post /\ index m = i + length pre.
Proof.
  induction s as [|c s IH]; intros i m H; cbn [execFrom] in H.
  - destruct (at0 r []) as [[w caps]|] eqn:E; [|discriminate].
    injection H as <-. apply at0_sound in E as (Hm & s' & Hs). cbn [whole groups index].
    split; [exact Hm|]. exists [], s'. cbn. split; [exact Hs | lia].
  - destruct (at0 r (c :: s)) as [[w caps]|] eqn:E.
    + injection H as <-. apply at0_sound in E as (Hm & s' & Hs). cbn [whole groups index].
      split; [exact Hm|]. exists [], s'. cbn [app length]. split; [exact Hs | lia].
    + apply IH in H as (Hm & pre & post & -> & Hi).
      split; [exact Hm|]. exists (c :: pre), post. cbn [app length]. split; [reflexivity | lia].
Qed.

(** Every match reported by [exec] is a piece of the text that the
    expression covers. *)
Lemma exec_sound (r : regex) (s : jsstring) (m : result) :
  exec r s = Some m ->
  matches r (whole m) (groups m)
  /\ exists pre post, s = pre ++ whole m ++ post /\ index m = length pre.
Proof.
  intros H. apply execFrom_sound in H as (Hm & pre & post & Hs & Hi).
  split; [exact Hm|]. exists pre, post. split; [exact Hs | lia].
Qed.

Lemma matchAll_nil (r : regex) (s : jsstring) : exec r s = None -> matchAll r s = [].
Proof. intros H. unfold matchAll. cbn [matchAllFuel]. rewrite H. reflexivity. Qed.

Lemma matchAllFuel_sound (r : regex) :
  forall fuel s w, In w (matchAllFuel fuel r s) ->
                   exists cs pre post, matches r w cs /\ s = pre ++ w ++ post.
Proof.
  induction fuel as [|fuel IH]; intros s w Hin; [destruct Hin|].
  cbn [matchAllFuel] in Hin. destruct (exec r s) as [m|] eqn:E; [|destruct Hin].
  destruct Hin as [<- | Hin].
  - apply exec_sound in E as (Hm & pre & post & Hs & _). eauto.
  - apply IH in Hin as (cs & pre & post & Hm & Hs).
    exists cs, (firstn (index m + Nat.max 1 (length (whole m))) s ++ pre), post.
    split; [exact Hm|]. rewrite <- app_assoc, <- Hs. symmetry. apply firstn_skipn.
Qed.

Lemma matches_Eps_inv w cs : matches Eps w cs -> w = [] /\ cs = [].
Proof. intros H. inversion H. split; reflexivity. Qed.

Lemma matches_Cls_inv p w cs :
  matches (Cls p) w cs -> exists c, w = [c] /\ cs = [] /\ p c = true.
Proof. intros H. inversion H; subst. eauto. Qed.

Lemma matches_Cat_inv r1 r2 w cs :
  matches (Cat r1 r2) w cs ->
  exists w1 w2 cs1 cs2,
    w = w1 ++ w2 /\ cs = cs1 ++ cs2 /\ matches r1 w1 cs1 /\ matches r2 w2 cs2.
Proof. intros H. inversion H; subst. eauto 10. Qed.

Lemma matches_Alt_inv r1 r2 w cs :
  matches (Alt r1 r2) w cs -> matches r1 w cs \/ matches r2 w cs.
Proof. intros H. inversion H; subst; [left | right]; assumption. Qed.

Lemma matches_Rep_inv p lo hi w cs :
  matches (Rep p lo hi) w cs ->
  cs = [] /\ List.Forall (fun c => p c = true) w /\ lo <= length w
  /\ (forall h, hi = Some h -> length w <= h).
Proof. intros H. inversion H; subst. repeat split; assumption. Qed.

Lemma matches_Cap_inv r w cs :
  matches (Cap r) w cs -> exists cs', cs = cs' ++ [w] /\ matches r w cs'.
Proof. intros H. inversion H; subst. eauto. Qed.

Lemma matches_lit_inv (l : jsstring) :
  forall w cs, matches (lit l) w cs -> w = l /\ cs = [].
Proof.
  induction l as [|c l IH]; intros w cs H; cbn [lit] in H.
  - apply matches_Eps_inv in H. exact H.
  - apply matches_Cat_inv in H as (w1 & w2 & cs1 & cs2 & -> & -> & H1 & H2).
    apply matches_Cls_inv in H1 as (c' & -> & -> & Hc). apply IH in H2 as [-> ->].
    unfold chr in Hc. apply N.eqb_eq in Hc. subst c'. split; reflexivity.
Qed.

(** Takes apart every hypothesis on a match of a composed expression. *)
Ltac split_match :=
  repeat match goal with
    | H : matches (seq (_ :: _)) _ _ |- _ =>
        cbn [seq] in H
    | H : matches (seq []) _ _ |- _ =>
        cbn [seq] in H
    | H : matches (Cat _ _) _ _ |- _ =>
        apply matches_Cat_inv in H as (? & ? & ? & ? & -> & -> & ? & ?)
    | H : matches Eps _ _ |- _ =>
        apply matches_Eps_inv in H as [-> ->]
    | H : matches (lit _) _ _ |- _ =>
        apply matches_lit_inv in H as [-> ->]
    | H : matches (Cls _) _ _ |- _ =>
        apply matches_Cls_inv in H as (? & -> & -> & ?)
    | H : matches (Cap _) _ _ |- _ =>
        apply matches_Cap_inv in H as (? & -> & ?)
    | H : matches (Rep _ _ _) _ _ |- _ =>
        apply matches_Rep_inv in H as (-> & ? & ? & ?)
    | H : matches (letter _ _) _ _ |- _ =>
        unfold letter in H
    end.

(** ** Ratings are numbers between 0 and 9.9 *)

Lemma digit_cases (d : N) :
  digit d = true ->
  In d [48; 49; 50; 51; 52; 53; 54; 55; 56; 57]%N.
Proof.
  unfold digit, range. intros H. apply andb_true_iff in H as [H1 H2].
  apply N.leb_le in H1. apply N.leb_le in H2. cbn [In].
  assert (d = 48 \/ d = 49 \/ d = 50 \/ d = 51 \/ d = 52 \/ d = 53 \/ d = 54
          \/ d = 55 \/ d = 56 \/ d = 57)%N as Hd by lia.
  intuition auto.
Qed.

Lemma parseFloat_digit_dot_digit (d1 d2 : N) :
  digit d1 = true -> digit d2 = true ->
  exists q, JsNumber.parseFloat [d1; 46%N; d2] = Fin q /\ (0 <= q)%Q /\ (q <= 99 # 10)%Q.
Proof.
  intros H1 H2. apply digit_cases in H1. apply digit_cases in H2. cbn [In] in H1, H2.
  repeat (destruct H1 as [<- | H1]; [|]); try contradiction;
    repeat (destruct H2 as [<- | H2]; [|]); try contradiction;
    (eexists; split; [vm_compute; reflexivity | split; vm_compute; discriminate]).
Qed.

Lemma detailRatingOf_bounds (ratingLabel : jsstring) :
  exists q, detailRatingOf ratingLabel = Fin q /\ (0 <= q)%Q /\ (q <= 99 # 10)%Q.
Proof.
  unfold detailRatingOf. destruct (exec reDetailRating ratingLabel) as [m|] eqn:E.
  - apply exec_sound in E as (Hm & _). unfold group. destruct m as [i w gs].
    cbn [whole groups] in *. unfold reDetailRating in Hm.
    replace (js ".") with [46%N] in Hm by (vm_compute; reflexivity).
    split_match. cbn [app nth Nat.sub].
    apply parseFloat_digit_dot_digit; assumption.
  - exists 0%Q. split; [reflexivity|]. split; [apply Qle_refl | discriminate].
Qed.

(** X15.  Whatever the text of a list item, its rating is a number (never
    NaN) that is 0 (unknown) or lies between 1.0 and 5.0. *)
Theorem list_rating_zero_or_in_range (text : jsstring) :
  exists q, extractRating text = Fin q
            /\ ((q == 0)%Q \/ ((1 <= q)%Q /\ (q <= 5)%Q)).
Proof.
  unfold extractRating.
  induction (matchAll reListRating text) as [|m rest IH]; cbn [firstRatingInRange].
  - exists 0%Q. split; [reflexivity | left; reflexivity].
  - destruct (JsNumber.parseFloat m) as [|negative|q] eqn:E; cbn zeta.
    + cbn. exact IH.
    + destruct negative; cbn; exact IH.
    + destruct (JsNumber.ge (Fin q) (JsNumber.ofZ 1) && JsNumber.le (Fin q) (JsNumber.ofZ 5))
        eqn:Hin; [|exact IH].
      apply andb_true_iff in Hin as [H1 H5].
      unfold JsNumber.le, JsNumber.ofZ in *. apply ge_Fin in H1. apply ge_Fin in H5.
      exists q. split; [reflexivity|]. right.
      change (inject_Z 1) with 1%Q in H1. change (inject_Z 5) with 5%Q in H5. split; lra.
Qed.

(** X16.  Whatever the browser answers, the rating of a detail record is
    a number between 0 and 9.9, and so is the rating of its merge with a
    candidate whose rating came from the list extractor: no rating is
    NaN or negative. *)
Theorem detail_and_merged_rating_bounds
    (v : Visit) (details : Details.t) (target : Candidate.t) (text : jsstring) :
  getDetailsWithPage v = inr details ->
  Candidate.rating target = extractRating text ->
  (exists q, Details.detailRating details = Fin q /\ (0 <= q)%Q /\ (q <= 99 # 10)%Q)
  /\ (exists q, Merged.rating (mergedResult target details) = Fin q
                /\ (0 <= q)%Q /\ (q <= 99 # 10)%Q).
Proof.
  intros Hv Hc.
  assert (Hd : exists q, Details.detailRating details = Fin q
                         /\ (0 <= q)%Q /\ (q <= 99 # 10)%Q).
  { destruct v as [message | | pageData]; cbn in Hv; [discriminate | |].
    - injection Hv as <-. cbn. exists 0%Q. split; [reflexivity|].
      split; [apply Qle_refl | discriminate].
    - injection Hv as <-. cbn [Details.detailRating]. apply detailRatingOf_bounds. }
  split; [exact Hd|].
  unfold mergedResult. cbn [Merged.rating].
  destruct (JsNumber.gt (Details.detailRating details) JsNumber.zero); [exact Hd|].
  rewrite Hc. destruct (extractRating_bounds text) as (q & -> & H0 & H5).
  exists q. split; [reflexivity|]. split; [exact H0 | lra].
Qed.

Lemma detail_and_merged_rating_bounds_witness :
  exists q, Merged.rating (mergedResult extractedCandidate sampleDetailsOfPage) = Fin q
            /\ (0 <= q)%Q /\ (q <= 99 # 10)%Q.
Proof.
  apply (detail_and_merged_rating_bounds (Loaded samplePage) sampleDetailsOfPage
           extractedCandidate sampleListText); [vm_compute; reflexivity | reflexivity].
Defined.

(** ** Review counts are NaN, Infinity or non-negative integers *)

(** A count as the extractors produce it. *)
Definition countLike (n : number) : Prop :=
  n = NaN \/ n = Inf false \/ exists z, (0 <= z)%Z /\ n = JsNumber.ofZ z.

Lemma toDouble_exact (z : Z) :
  (Z.abs z < 2 ^ 53)%Z -> JsNumber.toDouble z = JsNumber.ofZ z.
Proof.
  intros Hz. unfold JsNumber.toDouble. cbv zeta.
  apply Z.ltb_lt in Hz. rewrite Hz. reflexivity.
Qed.

(** Rounding a non-negative integer gives a non-negative integer or
    [Infinity]. *)
Lemma toDouble_natural (z : Z) :
  (0 <= z)%Z ->
  JsNumber.toDouble z = Inf false
  \/ exists z', (0 <= z')%Z /\ JsNumber.toDouble z = JsNumber.ofZ z'.
Proof.
  intros Hz. unfold JsNumber.toDouble. cbv zeta.
  destruct (Z.abs z <? 2 ^ 53)%Z; [right; exists z; split; [exact Hz | reflexivity]|].
  match goal with |- context [(2 ^ 1024 <=? ?v)%Z] =>
    assert (Hv : (0 <= v)%Z); [|destruct (2 ^ 1024 <=? v)%Z] end.
  - apply Z.shiftl_nonneg.
    assert (Hm : (0 <= Z.shiftr (Z.abs z) (Z.log2 (Z.abs z) - 52))%Z)
      by (apply Z.shiftr_nonneg; lia).
    destruct (_ || _); lia.
  - left. replace (z <? 0)%Z with false by (symmetry; apply Z.ltb_ge; exact Hz). reflexivity.
  - right. eexists. split; [|reflexivity].
    apply Z.mul_nonneg_nonneg; [|exact Hv].
    destruct (Z.eq_dec z 0%Z) as [-> | Hne]; [reflexivity|].
    rewrite Z.sgn_pos by lia. lia.
Qed.

Lemma toDouble_not_NaN (z : Z) : JsNumber.toDouble z <> NaN.
Proof.
  unfold JsNumber.toDouble. cbv zeta.
  destruct (Z.abs z <? 2 ^ 53)%Z; [discriminate|].
  destruct (2 ^ 1024 <=? _)%Z; discriminate.
Qed.

Lemma countLike_toDouble (z : Z) : (0 <= z)%Z -> countLike (JsNumber.toDouble z).
Proof.
  intros Hz. destruct (toDouble_natural z Hz) as [H | H]; [right; left | right; right];
    exact H.
Qed.

Lemma digits_spec (s : jsstring) :
  forall acc n, (0 <= acc)%Z ->
    (0 <= snd (fst (JsNumber.digits acc n s)))%Z
    /\ n <= fst (fst (JsNumber.digits acc n s)).
Proof.
  induction s as [|c s IH]; intros acc n Hacc; cbn [JsNumber.digits].
  - cbn. split; [exact Hacc | lia].
  - destruct (JsNumber.isDigit c) eqn:Hc; [|cbn; split; [exact Hacc | lia]].
    assert (Hv : (0 <= JsNumber.digitVal c)%Z).
    { unfold JsNumber.isDigit in Hc. apply andb_true_iff in Hc as [H1 _].
      apply N.leb_le in H1. unfold JsNumber.digitVal. lia. }
    destruct (IH (10 * acc + JsNumber.digitVal c)%Z (S n)) as [H1 H2]; [lia|].
    split; [exact H1 | lia].
Qed.

(** A text that starts with a digit is read as the double nearest to a
    non-negative integer. *)
Lemma parseInt_digit_first (c : N) (s : jsstring) :
  digit c = true ->
  exists v, (0 <= v)%Z /\ JsNumber.parseInt (c :: s) = JsNumber.toDouble v.
Proof.
  intros Hc. assert (Hcases := digit_cases c Hc).
  assert (Hd : JsNumber.isDigit c = true) by exact Hc.
  assert (Htrim : trimStart (c :: s) = c :: s).
  { cbn [In] in Hcases. cbn [trimStart].
    replace (isSpace c) with false; [reflexivity|].
    intuition (subst c; reflexivity). }
  assert (Hsign : JsNumber.signOf (c :: s) = (1%Z, c :: s)).
  { cbn [In] in Hcases. intuition (subst c; reflexivity). }
  unfold JsNumber.parseInt. rewrite Htrim, Hsign.
  cbn [JsNumber.digits]. rewrite Hd.
  destruct (digits_spec s (10 * 0 + JsNumber.digitVal c)%Z 1) as [H1 H2].
  { unfold JsNumber.isDigit in Hd. apply andb_true_iff in Hd as [Hlo _].
    apply N.leb_le in Hlo. unfold JsNumber.digitVal. lia. }
  destruct (JsNumber.digits (10 * 0 + JsNumber.digitVal c) 1 s) as [[n v] rest].
  cbn [fst snd] in H1, H2. destruct n as [|n]; [lia|].
  exists (1 * v)%Z. split; [lia | reflexivity].
Qed.

Lemma parseInt_of_digits (s : jsstring) :
  List.Forall (fun c => digit c = true) s -> countLike (JsNumber.parseInt s).
Proof.
  intros Hall. destruct s as [|c s]; [left; reflexivity|].
  apply List.Forall_cons_iff in Hall as [Hc _].
  destruct (parseInt_digit_first c s Hc) as (v & Hv & ->).
  apply countLike_toDouble. exact Hv.
Qed.

Lemma removeAll_leaves_digits (strip cls : N -> bool) (g : jsstring) :
  (forall c, cls c = true -> digit c = true \/ strip c = true) ->
  List.Forall (fun c => cls c = true) g ->
  List.Forall (fun c => digit c = true) (removeAll strip g).
Proof.
  intros Hcls Hall. unfold removeAll. induction Hall as [|c g Hc Hall IH]; cbn [List.filter].
  - constructor.
  - destruct (strip c) eqn:Hs; cbn [negb]; [exact IH|].
    constructor; [|exact IH]. destruct (Hcls c Hc) as [H | H]; [exact H | congruence].
Qed.

Lemma either_cases (p q : N -> bool) (c : N) :
  either p q c = true -> p c = true \/ q c = true.
Proof. unfold either. apply orb_true_iff. Qed.

Lemma oneOf_comma_chr (c : N) : oneOf (js ",") c = true -> chr comma c = true.
Proof.
  replace (js ",") with [44%N] by (vm_compute; reflexivity).
  unfold oneOf, chr, comma. cbn [existsb]. rewrite orb_false_r. exact (fun H => H).
Qed.

Lemma orPattern_countLike (reviews : number) (r inner : regex) (cls strip : N -> bool)
    (text : jsstring) :
  (forall w cs, matches r w cs ->
     exists g, nth 0 cs [] = g /\ List.Forall (fun c => cls c = true) g) ->
  (forall c, cls c = true -> digit c = true \/ strip c = true) ->
  countLike reviews ->
  countLike (orPattern reviews r strip text).
Proof.
  intros Hgroup Hcls Hrev. unfold orPattern.
  destruct (JsNumber.strictEq reviews JsNumber.zero); [|exact Hrev].
  destruct (exec r text) as [m|] eqn:E; [|exact Hrev].
  apply exec_sound in E as (Hm & _). destruct (Hgroup _ _ Hm) as (g & Hg & Hall).
  unfold group. cbn [Nat.sub]. rewrite Hg.
  apply parseInt_of_digits. apply (removeAll_leaves_digits strip cls); assumption.
Qed.

Lemma countLike_zero : countLike JsNumber.zero.
Proof. right. right. exists 0%Z. split; [lia | reflexivity]. Qed.

Lemma review_count_of_text (text : jsstring) : countLike (extractReviews text).
Proof.
  - unfold extractReviews. cbn zeta.
    assert (Hdc : forall c, digitOrComma c = true ->
                            digit c = true \/ oneOf (js ",") c = true)
      by (intros c; apply either_cases).
    assert (Hdcd : forall c, digitCommaDot c = true ->
                             digit c = true \/ oneOf (js ",.") c = true)
      by (intros c; apply either_cases).
    apply (orPattern_countLike _ _ Eps digitCommaDot); [| exact Hdcd |].
    { intros w cs Hm. unfold reRatedCount in Hm. split_match. eexists. split; [reflexivity|].
      assumption. }
    apply (orPattern_countLike _ _ Eps digitOrComma); [| exact Hdc |].
    { intros w cs Hm. unfold reCountReviews in Hm. split_match. eexists.
      split; [reflexivity|]. assumption. }
    apply (orPattern_countLike _ _ Eps digitOrComma); [| exact Hdc |].
    { intros w cs Hm. unfold reCountKen in Hm. split_match. eexists.
      split; [reflexivity|]. assumption. }
    apply (orPattern_countLike _ _ Eps digitCommaDot); [| exact Hdcd |].
    { intros w cs Hm. unfold reParenCount in Hm. split_match. eexists.
      split; [reflexivity|]. assumption. }
    apply countLike_zero.
Qed.

Lemma review_count_of_lines (lines : list jsstring) : countLike (detailReviewsOf lines).
Proof.
  - induction lines as [|line rest IH]; cbn [detailReviewsOf]; [apply countLike_zero|].
    destruct (includes line (js "件のクチコミ") && negb (includes line (js "ローカルガイド")));
      [|exact IH].
    destruct (exec reReviewCount line) as [m|] eqn:E; [|exact IH].
    apply exec_sound in E as (Hm & _). unfold group. destruct m as [i w gs].
    cbn [whole groups] in *. unfold reReviewCount in Hm. split_match.
    cbn [Nat.sub app nth].
    apply parseInt_of_digits.
    apply (removeAll_leaves_digits _ (either digit (oneOf (js ",")))); [|assumption].
    intros c Hc. apply either_cases in Hc as [Hdig | Hcomma]; [left; exact Hdig|].
    right. apply oneOf_comma_chr. exact Hcomma.
Qed.

(** X17.  Whatever the text of a list item or the lines of a detail
    page, the review count extracted is NaN, Infinity (a run of digits
    too long for a double) or a non-negative integer: never negative,
    never fractional. *)
Theorem review_counts_nan_or_natural (text : jsstring) (lines : list jsstring) :
  countLike (extractReviews text) /\ countLike (detailReviewsOf lines).
Proof. split; [apply review_count_of_text | apply review_count_of_lines]. Qed.

Lemma ofZ_inj (z z' : Z) : JsNumber.ofZ z = JsNumber.ofZ z' -> z = z'.
Proof. unfold JsNumber.ofZ, inject_Z. intros H. injection H as H. exact H. Qed.

(** X18.  For a candidate whose count came from the list extractor and
    a detail record the browser gave, the merged review count is NaN,
    Infinity or a non-negative integer.  The value the post-filter and
    the ranking read off it ([parseInt(reviews) || 0]) is the count
    itself when the count is below 1e21, and 0 when it is NaN or
    Infinity. *)
Theorem merged_review_count_natural {host : Host}
    (v : Visit) (details : Details.t) (target : Candidate.t) (text : jsstring) :
  getDetailsWithPage v = inr details ->
  Candidate.reviews target = extractReviews text ->
  let merged := mergedResult target details in
  countLike (Merged.reviews merged)
  /\ (forall z, Merged.reviews merged = JsNumber.ofZ z -> (z < 10 ^ 21)%Z ->
        (0 <= z)%Z /\ reviewsKey merged = Merged.reviews merged)
  /\ (Merged.reviews merged = NaN \/ Merged.reviews merged = Inf false ->
      reviewsKey merged = JsNumber.zero).
Proof.
  intros Hv Hc. cbn zeta.
  assert (Hd : countLike (Details.detailReviews details)).
  { destruct v as [message | | pageData]; cbn in Hv; [discriminate | |].
    - injection Hv as <-. apply countLike_zero.
    - injection Hv as <-. cbn [Details.detailReviews].
      apply (review_count_of_lines (PageData.lines pageData)). }
  assert (Hm : countLike (Merged.reviews (mergedResult target details))).
  { unfold mergedResult. cbn [Merged.reviews].
    destruct (JsNumber.gt (Details.detailReviews details) JsNumber.zero); [exact Hd|].
    rewrite Hc. apply (review_count_of_text text). }
  split; [exact Hm|]. split.
  - intros z Hz Hlt.
    assert (Hpos : (0 <= z)%Z).
    { destruct Hm as [Hm | [Hm | (z' & Hz' & Hm)]]; rewrite Hz in Hm;
        [discriminate Hm | discriminate Hm|].
      apply ofZ_inj in Hm. lia. }
    split; [exact Hpos|]. unfold reviewsKey. rewrite Hz. apply count_read_whole. lia.
  - intros [H | H]; unfold reviewsKey; rewrite H; reflexivity.
Qed.

Lemma merged_review_count_natural_witness :
  @reviewsKey sampleHost (mergedResult extractedCandidate sampleDetailsOfPage)
  = JsNumber.ofZ 1234.
Proof.
  destruct (@merged_review_count_natural sampleHost (Loaded samplePage) sampleDetailsOfPage
              extractedCandidate sampleListText) as (_ & Hkey & _);
    [vm_compute; reflexivity | reflexivity|].
  destruct (Hkey 1234%Z) as [_ ->]; [reflexivity | lia | reflexivity].
Defined.

(** ** The time-of-day filter on texts it cannot read *)

Lemma In_trimStart (c : N) (s : jsstring) : In c (trimStart s) -> In c s.
Proof.
  induction s as [|x s IH]; cbn [trimStart]; [exact (fun H => H)|].
  destruct (isSpace x); [intros H; right; apply IH; exact H | exact (fun H => H)].
Qed.

Lemma In_trim (c : N) (s : jsstring) : In c (trim s) -> In c s.
Proof.
  unfold trim. intros H. apply in_rev in H. apply In_trimStart in H.
  apply in_rev in H. apply In_trimStart in H. exact H.
Qed.

Lemma In_split (sep : N) (s : jsstring) :
  forall piece c, In piece (split sep s) -> In c piece -> In c s.
Proof.
  induction s as [|x s IH]; intros piece c Hp Hc; cbn [split] in Hp.
  - destruct Hp as [<- | []]. destruct Hc.
  - destruct (x =? sep)%N.
    + destruct Hp as [<- | Hp]; [destruct Hc | right; apply (IH piece c Hp Hc)].
    + destruct (split sep s) as [|w ws] eqn:E.
      * destruct Hp as [<- | []]. destruct Hc as [<- | []]. left. reflexivity.
      * destruct Hp as [<- | Hp].
        -- destruct Hc as [<- | Hc]; [left; reflexivity|].
           right. apply (IH w c); [left; reflexivity | exact Hc].
        -- right. apply (IH piece c); [right; exact Hp | exact Hc].
Qed.

Lemma In_skipn (c : N) (n : nat) (s : jsstring) : In c (skipn n s) -> In c s.
Proof. intros H. rewrite <- (firstn_skipn n s). apply in_app_iff. right. exact H. Qed.

Definition colonUnit : N := 58%N.
Definition hourUnit : N := 26178%N.

Lemma reClock_needs_colon (s : jsstring) (m : result) :
  exec reClock s = Some m -> In colonUnit s.
Proof.
  intros E. apply exec_sound in E as (Hm & pre & post & -> & _).
  destruct m as [i w gs]. cbn [whole groups] in *. unfold reClock in Hm.
  replace (js ":") with [colonUnit] in Hm by (vm_compute; reflexivity).
  split_match. rewrite !in_app_iff. cbn [In]. tauto.
Qed.

Definition minuteUnit : N := 20998%N.

Lemma reBusinessTime_needs_units (s : jsstring) (m : result) :
  exec reBusinessTime s = Some m -> In hourUnit s /\ In minuteUnit s.
Proof.
  intros E. apply exec_sound in E as (Hm & pre & post & -> & _).
  destruct m as [i w gs]. cbn [whole groups] in *. unfold reBusinessTime in Hm.
  replace (js "時") with [hourUnit] in Hm by (vm_compute; reflexivity).
  replace (js "分") with [minuteUnit] in Hm by (vm_compute; reflexivity).
  split_match. rewrite !in_app_iff. cbn [In]. tauto.
Qed.

(** A text in which "時" or "分" does not occur. *)
Definition lacksWindow (s : jsstring) : Prop :=
  ~ In hourUnit s \/ ~ In minuteUnit s.

Lemma lacksWindow_part (s part : jsstring) :
  (forall c, In c part -> In c s) -> lacksWindow s -> lacksWindow part.
Proof. unfold lacksWindow. intros Hsub [H | H]; [left | right]; intros Hc; apply H, Hsub, Hc. Qed.

(** X19.  A time-of-day filter that holds no colon is not a time the
    code can read: the check passes whatever the business hours and the
    days. *)
Theorem unreadable_target_time_passes
    (businessHours targetTime : jsstring) (targetDays : list jsstring) :
  ~ In colonUnit targetTime ->
  checkOpenAtTime businessHours targetTime targetDays = pass.
Proof.
  intros Hno. unfold checkOpenAtTime, parseTime.
  destruct (negb (JsString.truthy targetTime)); [reflexivity|].
  destruct (exec reClock targetTime) as [m|] eqn:E; [|reflexivity].
  exfalso. apply Hno. apply (reClock_needs_colon _ _ E).
Qed.

Lemma unreadable_target_time_passes_witness :
  checkOpenAtTime mondayNight (js "2300") [js "月曜日"] = pass.
Proof.
  apply (unreadable_target_time_passes mondayNight (js "2300") [js "月曜日"]).
  vm_compute. intuition discriminate.
Defined.

Lemma parseBusinessTime_needs_units (timeStr : jsstring) :
  lacksWindow timeStr -> parseBusinessTime timeStr = None.
Proof.
  intros Hno. unfold parseBusinessTime. rewrite matchAll_nil; [reflexivity|].
  destruct (exec reBusinessTime timeStr) as [m|] eqn:E; [|reflexivity].
  exfalso. apply reBusinessTime_needs_units in E. unfold lacksWindow in Hno. tauto.
Qed.

Lemma foundMatch_needs_units (segments : list jsstring) (targetMinutes : number)
    (targetDays : list jsstring) :
  (forall segment, In segment segments -> lacksWindow segment) ->
  foundMatch segments targetMinutes targetDays = false.
Proof.
  induction segments as [|segment rest IH]; intros Hno; [reflexivity|].
  cbn [foundMatch].
  assert (E : segmentOpen segment targetMinutes targetDays = None).
  { unfold segmentOpen. destruct (indexOf (js ":") segment) as [colonIndex|]; [|reflexivity].
    cbn zeta. destruct (negb _); [reflexivity|].
    rewrite parseBusinessTime_needs_units; [reflexivity|].
    apply (lacksWindow_part segment); [|apply Hno; left; reflexivity].
    intros c Hc. apply (In_skipn _ _ _ Hc). }
  rewrite E. apply IH. intros s Hs. apply Hno. right. exact Hs.
Qed.

(** X20.  With a time of day the code can read, an item whose
    business-hours text lacks "時" or "分" (for instance the plain line
    "営業時間: 9:00～18:00") has no window the code can read, and is
    rejected as not open at that time. *)
Theorem hours_without_window_rejected
    (businessHours targetTime : jsstring) (targetDays : list jsstring) (targetMinutes : number) :
  parseTime targetTime = Some targetMinutes ->
  lacksWindow businessHours ->
  checkOpenAtTime businessHours targetTime targetDays
  = fail (targetTime ++ js "に営業していない").
Proof.
  intros Htime Hno. unfold checkOpenAtTime. rewrite Htime. cbn zeta.
  rewrite foundMatch_needs_units; [reflexivity|].
  intros segment Hseg. apply in_map_iff in Hseg as (piece & <- & Hpiece).
  apply (lacksWindow_part businessHours); [|exact Hno].
  intros c Hc. apply (In_split slash businessHours piece); [exact Hpiece|].
  apply In_trim. exact Hc.
Qed.

Lemma hours_without_window_rejected_witness :
  checkOpenAtTime (js "営業時間: 9:00～18:00") (js "10:00") []
  = fail (js "10:00" ++ js "に営業していない").
Proof.
  apply (hours_without_window_rejected (js "営業時間: 9:00～18:00") (js "10:00") []
           (JsNumber.ofZ 600)).
  - vm_compute. reflexivity.
  - right. vm_compute. intuition discriminate.
Defined.

(** ** Names, addresses and other trimmed fields *)

(** No white space at either end. *)
Definition trimmed (s : jsstring) : Prop :=
  (forall c r, s = c :: r -> isSpace c = false)
  /\ (forall c r, s = r ++ [c] -> isSpace c = false).

Lemma trimStart_head (s : jsstring) (c : N) (r : jsstring) :
  trimStart s = c :: r -> isSpace c = false.
Proof.
  induction s as [|x s IH]; cbn [trimStart]; [discriminate|].
  destruct (isSpace x) eqn:E; [exact IH|]. intros H. injection H as <- _. exact E.
Qed.

Lemma trimStart_suffix (s : jsstring) : exists sp, s = sp ++ trimStart s.
Proof.
  induction s as [|x s [sp IH]]; [exists []; reflexivity|]. cbn [trimStart].
  destruct (isSpace x); [|exists []; reflexivity].
  exists (x :: sp). cbn [app]. f_equal. exact IH.
Qed.

Lemma trim_trimmed (s : jsstring) : trimmed (trim s).
Proof.
  unfold trim. set (t := trimStart s). split; intros c r H.
  - destruct (trimStart_suffix (rev t)) as (sp & Hsp).
    apply (f_equal (@rev N)) in Hsp. rewrite rev_involutive, rev_app_distr, H in Hsp.
    cbn [app] in Hsp. apply (trimStart_head s c _ Hsp).
  - apply (f_equal (@rev N)) in H. rewrite rev_involutive, rev_app_distr in H.
    cbn [rev app] in H. apply (trimStart_head _ _ _ H).
Qed.

Lemma or_right_nonempty (a b : jsstring) : b <> [] -> JsString.or a b <> [].
Proof. unfold JsString.or. destruct a; cbn; [intros H; exact H | discriminate]. Qed.

Lemma trimmed_literal (l : jsstring) :
  match l with [] => true | c :: _ => negb (isSpace c) end
  && match rev l with [] => true | c :: _ => negb (isSpace c) end = true ->
  trimmed l.
Proof.
  intros H. apply andb_true_iff in H as [H1 H2]. split; intros c r E; subst l.
  - apply negb_true_iff in H1. exact H1.
  - rewrite rev_app_distr in H2. cbn in H2. apply negb_true_iff in H2. exact H2.
Qed.

Lemma or_trim_trimmed (a b : jsstring) : trimmed b -> trimmed (JsString.or (trim a) b).
Proof.
  intros Hb. unfold JsString.or. destruct (JsString.truthy (trim a)); [apply trim_trimmed|].
  exact Hb.
Qed.

(** X21.  Whatever the accessible label and the text of a list item, the
    name given to it is never empty and has no white space at either
    end ("Unknown" when nothing else is left). *)
Theorem extractName_nonempty_trimmed (ariaLabel text : jsstring) :
  extractName ariaLabel text <> [] /\ trimmed (extractName ariaLabel text).
Proof.
  unfold extractName.
  destruct (JsString.truthy ariaLabel && JsString.truthy (trim ariaLabel)) eqn:E.
  - apply andb_true_iff in E as [_ E]. apply truthy_nonempty in E.
    split; [exact E | apply trim_trimmed].
  - cbn zeta. split.
    + apply or_right_nonempty. apply truthy_nonempty. vm_compute. reflexivity.
    + apply or_trim_trimmed. apply trimmed_literal. vm_compute. reflexivity.
Qed.

(** ** The shape of a detail record *)

Lemma detailHoursOf_length (lines : list jsstring) : length (detailHoursOf lines) <= 100.
Proof.
  induction lines as [|line rest IH]; cbn [detailHoursOf]; [cbn; lia|].
  destruct (includes line (js "営業") && _); [|exact IH].
  unfold substring. rewrite length_firstn. lia.
Qed.

(** A budget text as the detail page gives it: a currency sign first. *)
Definition currencyFirst (budget : jsstring) : Prop :=
  exists c r, budget = c :: r /\ In c (js "￥¥").

Lemma reBudgetRange_currency (line : jsstring) (m : result) :
  exec reBudgetRange line = Some m -> currencyFirst (whole m).
Proof.
  intros E. apply exec_sound in E as (Hm & _). destruct m as [i w gs].
  cbn [whole groups] in *. cbv zeta in Hm. unfold reBudgetRange in Hm.
  replace (js "￥") with [65509%N] in Hm by (vm_compute; reflexivity).
  replace (js "¥") with [165%N] in Hm by (vm_compute; reflexivity).
  apply matches_Alt_inv in Hm as [Hm | Hm]; split_match; cbn [app];
    eexists; eexists; (split; [reflexivity|]); vm_compute; tauto.
Qed.

Lemma detailBudgetOf_shape (lines : list jsstring) :
  forall budget, (budget = [] \/ currencyFirst budget) ->
                 detailBudgetOf budget lines = [] \/ currencyFirst (detailBudgetOf budget lines).
Proof.
  induction lines as [|line rest IH]; intros budget Hb; cbn [detailBudgetOf]; [exact Hb|].
  destruct (includes line (js "￥") || includes line (js "¥")); [|apply IH; exact Hb].
  destruct (if includes line (js "1 人あたり") then exec reBudgetRange line else None)
    as [m|] eqn:E1.
  - right. destruct (includes line (js "1 人あたり")); [|discriminate].
    apply (reBudgetRange_currency line m E1).
  - destruct (negb (JsString.truthy budget)); [|apply IH; exact Hb].
    destruct (exec reBudgetRange line) as [m|] eqn:E2; [|apply IH; exact Hb].
    apply IH. right. apply (reBudgetRange_currency line m E2).
Qed.

(** X22.  Whatever the browser answers, the detail record has a
    non-empty category ("Unknown" by default), an address without white
    space at either end, business hours of at most 100 code units, and a
    budget that is empty or starts with the currency sign. *)
Theorem detail_record_shape (v : Visit) (details : Details.t) :
  getDetailsWithPage v = inr details ->
  Details.category details <> []
  /\ trimmed (Details.address details)
  /\ length (Details.businessHours details) <= 100
  /\ (Details.budget details = [] \/ currencyFirst (Details.budget details)).
Proof.
  intros Hv. destruct v as [message | | pageData]; cbn [getDetailsWithPage] in Hv;
    [discriminate | |]; injection Hv as <-;
    cbn [Details.category Details.address Details.businessHours Details.budget].
  - split; [apply truthy_nonempty; vm_compute; reflexivity|].
    split; [split; intros c r H; destruct r; discriminate|].
    split; [cbn; lia | left; reflexivity].
  - split; [apply or_right_nonempty, truthy_nonempty; vm_compute; reflexivity|].
    rewrite !or_empty_r. split.
    + destruct (JsString.truthy (PageData.addressLabel pageData)); [apply trim_trimmed|].
      split; intros c r H; destruct r; discriminate.
    + split; [apply detailHoursOf_length|].
      apply detailBudgetOf_shape. left. reflexivity.
Qed.

Lemma detail_record_shape_witness :
  Details.category sampleDetailsOfPage <> []
  /\ trimmed (Details.address sampleDetailsOfPage)
  /\ length (Details.businessHours sampleDetailsOfPage) <= 100
  /\ (Details.budget sampleDetailsOfPage = []
      \/ currencyFirst (Details.budget sampleDetailsOfPage)).
Proof.
  apply (detail_record_shape (Loaded samplePage) sampleDetailsOfPage).
  vm_compute. reflexivity.
Defined.

(** ** The price of a list budget *)

Lemma tryDown_total {R : Type} (lo : nat) (s : jsstring) (k : jsstring -> option R) :
  (forall s', k s' <> None) ->
  forall i, lo <= i -> tryDown i lo s k = k (skipn i s).
Proof.
  intros Hk i Hi. destruct i as [|i]; cbn [tryDown].
  - replace (0 <? lo) with false by (symmetry; apply Nat.ltb_ge; lia).
    destruct (k (skipn 0 s)) eqn:E; [reflexivity | exfalso; apply (Hk _ E)].
  - replace (S i <? lo) with false by (symmetry; apply Nat.ltb_ge; lia).
    destruct (k (skipn (S i) s)) eqn:E; [reflexivity | exfalso; apply (Hk _ E)].
Qed.

Lemma rePrice_at_currency (c : N) (rest : jsstring) :
  oneOf (js "￥¥") c = true ->
  1 <= run digitOrComma None rest ->
  exec rePrice (c :: rest)
  = Some (mkResult 0 (c :: firstn (run digitOrComma None rest) rest)
                   [firstn (run digitOrComma None rest) rest]).
Proof.
  intros Hc Hrun. unfold exec. cbn [execFrom]. unfold at0, rePrice.
  cbn [seq matchHere]. rewrite Hc.
  fold digitOrComma. rewrite tryDown_total; [|discriminate | exact Hrun].
  destruct (run_spec digitOrComma rest None) as (Hlen & _ & _).
  rewrite length_skipn. cbn [length app].
  replace (length rest - (length rest - run digitOrComma None rest))
    with (run digitOrComma None rest) by lia.
  replace (S (length rest) - (length rest - run digitOrComma None rest))
    with (S (run digitOrComma None rest)) by lia.
  reflexivity.
Qed.

(** The price read off a group of digits and commas: [NaN] exactly when
    the group holds no digit. *)
Lemma price_of_group (g : jsstring) :
  List.Forall (fun c => digitOrComma c = true) g ->
  let price := JsNumber.parseInt (removeAll (chr comma) g) in
  countLike price /\ (price = NaN <-> forall c, In c g -> c = comma).
Proof.
  intros Hall. cbn zeta.
  assert (Hdigits : List.Forall (fun c => digit c = true) (removeAll (chr comma) g)).
  { apply (removeAll_leaves_digits _ digitOrComma); [|exact Hall].
    intros c Hc. apply either_cases in Hc as [Hd | Hcm]; [left; exact Hd|].
    right. apply oneOf_comma_chr. exact Hcm. }
  split; [apply parseInt_of_digits; exact Hdigits|].
  assert (Hkeep : forall c, In c g -> chr comma c = false -> In c (removeAll (chr comma) g)).
  { intros c Hin Hc. unfold removeAll. apply filter_In. split; [exact Hin|].
    rewrite Hc. reflexivity. }
  destruct (removeAll (chr comma) g) as [|d ds] eqn:E.
  - split; [|reflexivity]. intros _ c Hin.
    destruct (chr comma c) eqn:Hc; [apply N.eqb_eq in Hc; exact Hc|].
    destruct (Hkeep c Hin Hc).
  - apply List.Forall_cons_iff in Hdigits as [Hd _].
    destruct (parseInt_digit_first d ds Hd) as (v & _ & ->). split.
    + intros H. exfalso. apply (toDouble_not_NaN v H).
    + intros Hcommas. exfalso.
      assert (Hin : In d g).
      { assert (H : In d (removeAll (chr comma) g)) by (rewrite E; left; reflexivity).
        unfold removeAll in H. apply filter_In in H as [H _]. exact H. }
      specialize (Hcommas d Hin). subst d. discriminate Hd.
Qed.

(** X23.  A budget text produced by the list extractor is empty or is
    one in which the price pattern of the two filter stages matches at
    the start, with a non-empty group of digits and commas.  The price
    the two stages read off that group is NaN, Infinity or a
    non-negative integer, and it is NaN exactly when the group holds
    commas only (as in a currency sign followed by commas): the budget
    bounds then compare with NaN and reject nothing. *)
Theorem list_budget_price (text : jsstring) :
  extractBudget text = []
  \/ exists m,
       exec rePrice (extractBudget text) = Some m
       /\ index m = 0
       /\ group 1 m <> []
       /\ List.Forall (fun c => digitOrComma c = true) (group 1 m)
       /\ let price := JsNumber.parseInt (removeAll (chr comma) (group 1 m)) in
          countLike price
          /\ (price = NaN <-> forall c, In c (group 1 m) -> c = comma)
          /\ (price = NaN ->
              forall bound, below price bound = false /\ above price bound = false).
Proof.
  unfold extractBudget. destruct (exec reListBudget text) as [m|] eqn:E; [|left; reflexivity].
  right. apply exec_sound in E as (Hm & _). destruct m as [i w gs].
  cbn [whole groups] in *. unfold reListBudget in Hm. split_match. cbn [app].
  match goal with
  | Hall : List.Forall _ ?ds, Hlen : 1 <= length ?ds |- context [?ds ++ ?tail] =>
      destruct ds as [|d ds]; [cbn in Hlen; lia|];
      apply List.Forall_cons_iff in Hall as [Hd _];
      assert (Hrun : 1 <= run digitOrComma None ((d :: ds) ++ tail))
        by (cbn [app run]; rewrite Hd; lia);
      rewrite (rePrice_at_currency _ ((d :: ds) ++ tail)) by assumption;
      destruct (run_spec digitOrComma ((d :: ds) ++ tail) None) as (_ & Hforall & _);
      set (g := firstn (run digitOrComma None ((d :: ds) ++ tail)) ((d :: ds) ++ tail)) in *
  end.
  eexists. split; [reflexivity|]. cbn [index group groups Nat.sub nth].
  split; [reflexivity|]. split.
  { subst g. destruct (run digitOrComma None _); [lia | discriminate]. }
  split; [exact Hforall|].
  destruct (price_of_group g Hforall) as [Hcount Hnan].
  split; [exact Hcount|]. split; [exact Hnan|].
  intros Hprice bound. rewrite Hprice. destruct bound as [[|[|]|]|]; split; reflexivity.
Qed.

(** ** [autoScroll] *)

Lemma scrollLoop_spec (turns : nat -> ScrollTurn) (remaining : nat) :
  forall i previousHeight noChangeCount,
    let n := fst (scrollLoop turns remaining i previousHeight noChangeCount) in
    let e := snd (scrollLoop turns remaining i previousHeight noChangeCount) in
    i <= n /\ n <= i + remaining
    /\ (0 < remaining -> i < n)
    /\ (e = CapReached -> n = i + remaining)
    /\ (e = SawEnd -> turns (n - 1) = EndVisible)
    /\ (e = Aborted -> turns (n - 1) = HeightThrows)
    /\ (e = NoMoreContent -> exists h, turns (n - 1) = Measured h).
Proof.
  induction remaining as [|remaining IH]; intros i previousHeight noChangeCount; cbn zeta.
  - cbn. repeat split; try lia; try discriminate.
  - cbn [scrollLoop]. destruct (turns i) as [| | |newHeight] eqn:Et.
    + cbn [fst snd]. replace (S i - 1) with i by lia.
      repeat split; try lia; try discriminate. intros _. exact Et.
    + destruct (IH (S i) previousHeight noChangeCount) as (H1 & H2 & H3 & H4 & H5 & H6 & H7).
      repeat split; try lia; try assumption. intros E. specialize (H4 E). lia.
    + cbn [fst snd]. replace (S i - 1) with i by lia.
      repeat split; try lia; try discriminate. intros _. exact Et.
    + destruct (newHeight =? previousHeight)%Z.
      * destruct (3 <=? S noChangeCount).
        -- cbn [fst snd]. replace (S i - 1) with i by lia.
           repeat split; try lia; try discriminate. intros _. eauto.
        -- destruct (IH (S i) newHeight (S noChangeCount))
             as (H1 & H2 & H3 & H4 & H5 & H6 & H7).
           repeat split; try lia; try assumption. intros E. specialize (H4 E). lia.
      * destruct (IH (S i) newHeight 0) as (H1 & H2 & H3 & H4 & H5 & H6 & H7).
        repeat split; try lia; try assumption. intros E. specialize (H4 E). lia.
Qed.

(** X24.  Whatever the page does, [autoScroll] runs between 1 and 100
    turns; it runs all 100 when it leaves by the cap, and otherwise its
    last turn is the one that showed the end text, measured an unchanged
    height, or threw while measuring the height at the top of the turn.
    A throw inside the turn is never a way out. *)
Theorem autoScroll_bounded (turns : nat -> ScrollTurn) :
  let n := fst (autoScroll turns) in
  let e := snd (autoScroll turns) in
  1 <= n /\ n <= 100
  /\ (e = CapReached -> n = 100)
  /\ (e = SawEnd -> turns (n - 1) = EndVisible)
  /\ (e = Aborted -> turns (n - 1) = HeightThrows)
  /\ (e = NoMoreContent -> exists h, turns (n - 1) = Measured h).
Proof.
  cbn zeta. unfold autoScroll.
  destruct (scrollLoop_spec turns maxScrollAttempts 0 0%Z 0)
    as (H1 & H2 & H3 & H4 & H5 & H6 & H7).
  cbn zeta in *. unfold maxScrollAttempts in *.
  split; [lia|]. split; [lia|]. split; [intros E; specialize (H4 E); lia|].
  split; [exact H5|]. split; [exact H6 | exact H7].
Qed.

Section GrowingFeed.

Variable turns : nat -> ScrollTurn.
Variable heights : nat -> Z.
Variable k : nat.

Hypothesis heights_increase : forall i j, i < j -> (heights i < heights j)%Z.
Hypothesis heights_positive : forall j, (0 < heights j)%Z.
Hypothesis before_end :
  forall j, j < k -> turns j = ScrollThrows \/ turns j = Measured (heights j).
Hypothesis end_at_k : turns k = EndVisible.

Lemma scrollLoop_growing (remaining : nat) :
  forall i previousHeight noChangeCount,
    i <= k -> k < i + remaining ->
    (forall j, i <= j -> (previousHeight < heights j)%Z) ->
    scrollLoop turns remaining i previousHeight noChangeCount = (S k, SawEnd).
Proof.
  induction remaining as [|remaining IH]; intros i previousHeight noChangeCount Hik Hk Hprev;
    [lia|].
  cbn [scrollLoop]. destruct (Nat.eq_dec i k) as [-> | Hne].
  - rewrite end_at_k. reflexivity.
  - destruct (before_end i) as [-> | ->]; [lia | |].
    + apply IH; [lia | lia|]. intros j Hj. apply Hprev. lia.
    + replace (heights i =? previousHeight)%Z with false
        by (symmetry; apply Z.eqb_neq; specialize (Hprev i (Nat.le_refl i)); lia).
      apply IH; [lia | lia|]. intros j Hj. apply heights_increase. lia.
Qed.

(** X25.  When the feed keeps growing (every height measured is above
    the ones before it) until the end text shows at turn [k < 100],
    [autoScroll] scrolls exactly [k + 1] times and leaves by the end
    text; turns in which the scroll throws are passed over. *)
Theorem autoScroll_reaches_end :
  k < 100 -> autoScroll turns = (S k, SawEnd).
Proof.
  intros Hk. unfold autoScroll, maxScrollAttempts.
  apply scrollLoop_growing; [lia | lia|]. intros j _. apply heights_positive.
Qed.

End GrowingFeed.

(** X26.  A feed whose height stays at [h <> 0] is scrolled four times:
    the first measure counts as a change from the initial 0, the next
    three as no change. *)
Theorem autoScroll_stalled_feed (turns : nat -> ScrollTurn) (h : Z) :
  h <> 0%Z ->
  (forall i, i < 4 -> turns i = Measured h) ->
  autoScroll turns = (4, NoMoreContent).
Proof.
  intros Hh Hturns. unfold autoScroll, maxScrollAttempts.
  assert (Hfour : forall rest, scrollLoop turns (4 + rest) 0 0%Z 0 = (4, NoMoreContent)).
  { intros rest. cbn [Nat.add scrollLoop].
    rewrite (Hturns 0) by lia.
    replace (h =? 0)%Z with false by (symmetry; apply Z.eqb_neq; exact Hh).
    rewrite (Hturns 1) by lia. rewrite Z.eqb_refl. cbn [Nat.leb].
    rewrite (Hturns 2) by lia. rewrite Z.eqb_refl. cbn [Nat.leb].
    rewrite (Hturns 3) by lia. rewrite Z.eqb_refl. cbn [Nat.leb].
    reflexivity. }
  exact (Hfour 96).
Qed.

Lemma autoScroll_reaches_end_witness :
  autoScroll scrollWithErrors = (6, SawEnd).
Proof.
  apply (autoScroll_reaches_end scrollWithErrors (fun j => Z.of_nat (S j) * 700)%Z 5).
  - intros i j Hij. lia.
  - intros j. lia.
  - intros j Hj. do 5 (destruct j as [|j]; [cbn; auto|]). lia.
  - reflexivity.
  - lia.
Defined.

Lemma autoScroll_stalled_feed_witness :
  autoScroll (fun _ => Measured 1200) = (4, NoMoreContent).
Proof.
  apply (autoScroll_stalled_feed (fun _ => Measured 1200) 1200%Z).
  - discriminate.
  - intros i _. reflexivity.
Defined.

(** ** The record written to the CSV file *)

Lemma number_or_zero_idem (n : number) :
  JsNumber.or (JsNumber.or n JsNumber.zero) JsNumber.zero = JsNumber.or n JsNumber.zero.
Proof.
  unfold JsNumber.or. destruct (JsNumber.truthy n) eqn:E; [rewrite E; reflexivity|].
  reflexivity.
Qed.

Lemma string_or_idem (a b : jsstring) : JsString.or (JsString.or a b) b = JsString.or a b.
Proof.
  unfold JsString.or. destruct (JsString.truthy a) eqn:E; [rewrite E; reflexivity|].
  destruct (JsString.truthy b); reflexivity.
Qed.

(** X27.  The record written for a result never has an empty name or
    category nor a NaN rating or review count (a NaN count read off a
    list text is written as 0), and sanitising a sanitised record
    changes nothing. *)
Theorem sanitizedRecord_complete (record : Merged.t) :
  Merged.name (sanitizedRecord record) <> []
  /\ Merged.category (sanitizedRecord record) <> []
  /\ Merged.rating (sanitizedRecord record) <> NaN
  /\ Merged.reviews (sanitizedRecord record) <> NaN
  /\ sanitizedRecord (sanitizedRecord record) = sanitizedRecord record.
Proof.
  unfold sanitizedRecord. cbn [Merged.name Merged.category Merged.rating Merged.reviews
    Merged.budget Merged.businessHours Merged.address Merged.review Merged.url].
  split; [apply or_right_nonempty, truthy_nonempty; vm_compute; reflexivity|].
  split; [apply or_right_nonempty, truthy_nonempty; vm_compute; reflexivity|].
  split; [apply number_or_zero_not_NaN|]. split; [apply number_or_zero_not_NaN|].
  rewrite !number_or_zero_idem, !string_or_idem. reflexivity.
Qed.

(** ** The review snippet *)

Lemma reQuoted_group (text : jsstring) (m : result) :
  exec reQuoted text = Some m ->
  In quote text /\ ~ In quote (group 1 m).
Proof.
  intros E. apply exec_sound in E as (Hm & pre & post & -> & _).
  destruct m as [i w gs]. cbn [whole groups] in *. unfold reQuoted in Hm.
  split_match. unfold group. cbn [groups Nat.sub app nth]. split.
  - match goal with H : chr quote ?c = true |- _ =>
      unfold chr in H; apply N.eqb_eq in H; rewrite H end.
    cbn [app]. repeat (rewrite in_app_iff || cbn [In]). intuition auto.
  - intros Hin.
    match goal with H : List.Forall _ ?g |- _ =>
      rewrite List.Forall_forall in H; specialize (H quote Hin); cbn beta in H end.
    unfold chr in *. rewrite N.eqb_refl in *. discriminate.
Qed.

Lemma reStar_group (s : jsstring) (m : result) :
  exec reStar s = Some m -> exists d, group 1 m = [d] /\ digit d = true.
Proof.
  intros E. apply exec_sound in E as (Hm & _).
  destruct m as [i w gs]. cbn [whole groups] in *. unfold reStar in Hm.
  split_match. unfold group. cbn [groups Nat.sub app nth]. eauto.
Qed.

(** X28.  The review snippet of a list text without a double quote is
    empty, and no snippet ever holds a double quote: it is the trimmed
    text between the first pair of quotes, after "★" and a digit when a
    star mark precedes it. *)
Theorem extractReview_quotes (text : jsstring) :
  (~ In quote text -> extractReview text = [])
  /\ ~ In quote (extractReview text).
Proof.
  unfold extractReview. destruct (exec reQuoted text) as [m|] eqn:E.
  - destruct (reQuoted_group text m E) as [Hq Hg]. split; [intros Hno; contradiction|].
    destruct (JsString.truthy (group 1 m)); [|intros []]. cbn zeta.
    assert (Htrim : ~ In quote (trim (group 1 m))) by (intros H; apply Hg, In_trim, H).
    destruct (exec reStar _) as [starMatch|] eqn:Es; [|exact Htrim].
    destruct (reStar_group _ _ Es) as (d & -> & Hd).
    replace (js "★") with [9733%N] by (vm_compute; reflexivity).
    replace (js " ") with [32%N] by (vm_compute; reflexivity).
    cbn [app In]. intros [H | [H | [H | H]]]; try discriminate H; [|contradiction].
    subst d. discriminate Hd.
  - split; [reflexivity | intros []].
Qed.

Lemma extractReview_quotes_witness : extractReview sampleListText = [].
Proof.
  apply (proj1 (extractReview_quotes sampleListText)).
  vm_compute. intuition discriminate.
Defined.

(** ** No matching record is lost *)

Section SearchComplete.

Context {host : Host}.
Variable browse : nat -> jsstring -> Visit.
Variables (minRating minReviews : number) (filters : Filters.t).

Lemma batchItems_covers (batch : list (list Candidate.t)) :
  forall pageOf target,
    In target (concat batch) ->
    exists idx, In (chunkItem browse minReviews filters (pageOf idx) target)
                   (batchItems browse minReviews filters pageOf batch).
Proof.
  induction batch as [|chunk batch IH]; intros pageOf target Hin; [destruct Hin|].
  cbn [concat] in Hin. rewrite batchItems_cons. apply in_app_iff in Hin as [Hin | Hin].
  - exists 0. apply in_app_iff. left. apply in_map. exact Hin.
  - destruct (IH (fun idx => pageOf (S idx)) target Hin) as (idx & Hidx).
    exists (S idx). apply in_app_iff. right. exact Hidx.
Qed.

Lemma roundItems_covers (numTabs : nat) (batches : list (list (list Candidate.t))) target :
  In target (concat (concat batches)) ->
  exists idx, In (chunkItem browse minReviews filters (idx mod numTabs) target)
                 (roundItems browse minReviews filters numTabs batches).
Proof.
  unfold roundItems. induction batches as [|batch batches IH]; intros Hin; [destruct Hin|].
  cbn [concat map] in *. rewrite concat_app in Hin. apply in_app_iff in Hin as [Hin | Hin].
  - destruct (batchItems_covers batch (fun idx => idx mod numTabs) target Hin) as (idx & H).
    exists idx. apply in_app_iff. left. exact H.
  - destruct (IH Hin) as (idx & H). exists idx. apply in_app_iff. right. exact H.
Qed.

(** X29.  A candidate of the deduplicated feed that the pre-filter keeps,
    whose detail page gives the same record in whichever tab it is
    opened and whose merged record passes the post-filter, is in the
    list [search] returns: chunks, rounds and the sort lose nothing. *)
Theorem search_keeps_every_match
    (results : list Candidate.t) (target : Candidate.t) (details : Details.t) :
  In target (uniqueByUrl results) ->
  preFilter target minRating minReviews filters = Kept ->
  (forall page, getDetailsWithPage (browse page (Candidate.url target)) = inr details) ->
  passed (checkFilters (mergedResult target details) minReviews filters) = true ->
  In (mergedResult target details)
     (search browse (Feed results) minRating minReviews filters).
Proof.
  intros Hin Hkept Hdet Hpass. rewrite search_Feed.
  apply (Permutation_in _ (arraySort_perm compareResults _)).
  set (targets := targetsOf (uniqueByUrl results) minRating minReviews filters).
  assert (Ht : In target targets).
  { subst targets. unfold targetsOf. apply filter_In. split; [exact Hin|].
    rewrite Hkept. reflexivity. }
  assert (Hne : targets <> []) by (intros E; rewrite E in Ht; destruct Ht).
  unfold matchedOf. cbn zeta. apply in_flat_map.
  rewrite <- (rounds_cover_targets targets Hne) in Ht.
  destruct (roundItems_covers (numTabsFor (length targets)) _ target Ht) as (idx & Hitem).
  eexists. split; [exact Hitem|].
  unfold chunkItem, keptOf. rewrite Hdet. cbn [Item.error Item.passed Item.result].
  rewrite Hpass. left. reflexivity.
Qed.

End SearchComplete.

Lemma search_keeps_every_match_witness :
  In (mergedResult ratedCandidate sampleDetailsOfPage)
     (@search sampleHost sampleBrowse (Feed feedWithRepeat) JsNumber.zero JsNumber.zero
              noFilters).
Proof.
  apply (@search_keeps_every_match sampleHost sampleBrowse JsNumber.zero JsNumber.zero
           noFilters feedWithRepeat ratedCandidate sampleDetailsOfPage).
  - vm_compute. right. left. reflexivity.
  - vm_compute. reflexivity.
  - intros page. vm_compute. reflexivity.
  - vm_compute. reflexivity.
Defined.

(** ** Address terms made of commas and blanks *)

Lemma trimStart_blank (s : jsstring) :
  List.Forall (fun c => isSpace c = true) s -> trimStart s = [].
Proof.
  induction 1 as [|c s Hc Hs IH]; cbn [trimStart]; [reflexivity|]. rewrite Hc. exact IH.
Qed.

Lemma split_pieces (sep : N) (s : jsstring) :
  forall piece, In piece (split sep s) ->
                List.Forall (fun c => In c s /\ c <> sep) piece.
Proof.
  induction s as [|x s IH]; intros piece Hp; cbn [split] in Hp.
  - destruct Hp as [<- | []]. constructor.
  - assert (Hweak : forall p, List.Forall (fun c => In c s /\ c <> sep) p ->
                              List.Forall (fun c => In c (x :: s) /\ c <> sep) p).
    { intros p Hall. eapply List.Forall_impl; [|exact Hall]. cbn. intros c [H1 H2].
      split; [right; exact H1 | exact H2]. }
    destruct (x =? sep)%N eqn:E.
    + destruct Hp as [<- | Hp]; [constructor | apply Hweak, IH, Hp].
    + apply N.eqb_neq in E. destruct (split sep s) as [|w ws] eqn:Es.
      * destruct Hp as [<- | []]. constructor; [|constructor].
        split; [left; reflexivity | exact E].
      * destruct Hp as [<- | Hp].
        -- constructor; [split; [left; reflexivity | exact E]|].
           apply Hweak, IH. left. reflexivity.
        -- apply Hweak, IH. right. exact Hp.
Qed.

Lemma addressKeywordsOf_blank (s : jsstring) :
  List.Forall (fun c => c = comma \/ isSpace c = true) s -> addressKeywordsOf s = [].
Proof.
  intros Hall. unfold addressKeywordsOf.
  assert (Hpieces : forall piece, In piece (split comma s) -> trim piece = []).
  { intros piece Hp. assert (Hstart : trimStart piece = []); [|unfold trim; rewrite Hstart; reflexivity].
    apply trimStart_blank.
    eapply List.Forall_impl; [|apply (split_pieces comma s piece Hp)].
    cbn. intros c [Hin Hne]. rewrite List.Forall_forall in Hall.
    destruct (Hall c Hin) as [H | H]; [contradiction | exact H]. }
  induction (split comma s) as [|piece pieces IH]; [reflexivity|].
  cbn [map List.filter]. rewrite (Hpieces piece) by (left; reflexivity). cbn [JsString.truthy].
  apply IH. intros p Hp. apply Hpieces. right. exact Hp.
Qed.

(** X30.  An address filter made of commas and white space only names no
    term: the post-filter gives the same outcome as with no address
    filter at all. *)
Theorem blank_address_terms_ignored {host : Host}
    (item : Merged.t) (minReviews : number) (filters : Filters.t) :
  List.Forall (fun c => c = comma \/ isSpace c = true) (Filters.address filters) ->
  checkFilters item minReviews filters
  = checkFilters item minReviews
      (Filters.mk [] (Filters.category filters) (Filters.budgetMin filters)
                  (Filters.budgetMax filters) (Filters.days filters)
                  (Filters.hours filters) (Filters.maxItems filters)).
Proof.
  intros Hblank. unfold checkFilters.
  assert (E : checkAddress item filters = None).
  { unfold checkAddress. destruct (JsString.truthy (Filters.address filters)); [|reflexivity].
    cbn zeta. rewrite (addressKeywordsOf_blank _ Hblank). reflexivity. }
  rewrite E. reflexivity.
Qed.

Lemma blank_address_terms_ignored_witness :
  @checkFilters sampleHost tuesdayItem JsNumber.zero
     (Filters.mk (js " , ,") [] None None [] [] JsNumber.zero)
  = @checkFilters sampleHost tuesdayItem JsNumber.zero noFilters.
Proof.
  apply (@blank_address_terms_ignored sampleHost tuesdayItem JsNumber.zero
           (Filters.mk (js " , ,") [] None None [] [] JsNumber.zero)).
  cbn [Filters.address]. change (js " , ,") with [32; 44; 32; 44]%N.
  repeat (constructor; [first [left; reflexivity | right; reflexivity]|]). constructor.
Defined.
